(** * Notebook Navigator: sort resolution, icon picker and file item

    A shallow embedding of the pure and state-passing parts of
    - [utils/sortUtils.ts]      ([getEffectiveSortOption], [sortFiles]),
    - [utils/iconUtils.ts]      ([isEmoji]),
    - [modals/IconPickerModal.ts] (constructor, search, grid keys, [selectIcon]),
    - [components/EmojiPicker.tsx] ([handleInputChange], [handleSubmit]),
    - [components/FileItem.tsx] (feature image, memo comparator),
    followed by the properties proved about them. *)

From Stdlib Require Import ZArith List Lia Bool.
From stdpp Require Import base decidable option list gmap strings sorting pretty.

Local Open Scope Z_scope.

(** ** JavaScript values and strings *)

(** A JavaScript string is a sequence of UTF-16 code units; [length],
    [slice] and indexing count code units, the string iterator and
    [u]-flag regular expressions work on code points. *)
Abbreviation jsstring := (list Z).

(** ASCII literals, one code unit per character. *)
Definition u16 (s : string) : jsstring :=
  (λ a, Z.of_N (Ascii.N_of_ascii a)) <$> String.list_ascii_of_string s.

(** The values a dynamically typed position ([any]) can hold. Numbers are
    the integers; [JObject] stands for every object (arrays and functions
    included) without string methods. *)
Inductive JSValue : Type :=
| JUndefined
| JNull
| JBoolean (b : bool)
| JNumber (n : Z)
| JString (s : jsstring)
| JObject.

(** ToBoolean. *)
Definition truthy (v : JSValue) : bool :=
  match v with
  | JUndefined | JNull => false
  | JBoolean b => b
  | JNumber n => negb (n =? 0)
  | JString s => match s with [] => false | _ => true end
  | JObject => true
  end.

(** The properties of [Object.prototype]. A plain object (an object
    literal, what [JSON.parse] or the YAML parser builds) has it as its
    prototype, so that [obj[key]] finds these members under their names
    when the object has no own property of that name. Each of them is a
    function, and [__proto__] reads as the prototype object itself: all
    of them are truthy and none is a string. *)
Definition objectPrototypeNames : list jsstring :=
  [u16 "constructor"; u16 "hasOwnProperty"; u16 "isPrototypeOf";
   u16 "propertyIsEnumerable"; u16 "toLocaleString"; u16 "toString";
   u16 "valueOf"; u16 "__proto__"; u16 "__defineGetter__";
   u16 "__defineSetter__"; u16 "__lookupGetter__"; u16 "__lookupSetter__"].

Definition inObjectPrototype (key : jsstring) : bool :=
  bool_decide (key ∈ objectPrototypeNames).

Definition isHighSurrogate (u : Z) : bool := (0xD800 <=? u) && (u <=? 0xDBFF).
Definition isLowSurrogate (u : Z) : bool := (0xDC00 <=? u) && (u <=? 0xDFFF).

(** [[...s]]: the string iterator yields one substring per code point, a
    surrogate pair as two code units, anything else (a lone surrogate
    too) as one. *)
Fixpoint stringIterator (s : jsstring) : list jsstring :=
  match s with
  | [] => []
  | hi :: rest =>
      match rest with
      | lo :: rest' =>
          if isHighSurrogate hi && isLowSurrogate lo
          then [hi; lo] :: stringIterator rest'
          else [hi] :: stringIterator rest
      | [] => [[hi]]
      end
  end.

Definition pairCodePoint (hi lo : Z) : Z :=
  0x10000 + (hi - 0xD800) * 0x400 + (lo - 0xDC00).

(** [c.codePointAt(0)] for an element [c] of the string iterator. *)
Definition codePointAt0 (c : jsstring) : Z :=
  match c with
  | [hi; lo] => pairCodePoint hi lo
  | [u] => u
  | _ => 0
  end.

(** [String.prototype.slice(start, end)]: negative indices count from the
    end, both are clamped to the string, an empty range gives the empty
    string. *)
Definition sliceIndex (len i : Z) : Z :=
  if i <? 0 then Z.max (len + i) 0 else Z.min i len.

Definition jsSlice (s : jsstring) (start end_ : Z) : jsstring :=
  let len := Z.of_nat (length s) in
  let from := sliceIndex len start in
  let to := sliceIndex len end_ in
  take (Z.to_nat (to - from)) (drop (Z.to_nat from) s).

(** [s.slice(start)]. *)
Definition jsSliceFrom (s : jsstring) (start : Z) : jsstring :=
  jsSlice s start (Z.of_nat (length s)).

Definition startsWith (s pat : jsstring) : bool :=
  bool_decide (take (length pat) s = pat).

Definition endsWith (s pat : jsstring) : bool :=
  bool_decide (drop (length s - length pat) s = pat).

(** [s.includes(pat)]: [pat] occurs at some position of [s]. *)
Fixpoint includes (s pat : jsstring) : bool :=
  startsWith s pat ||
  match s with
  | [] => false
  | _ :: s' => includes s' pat
  end.

(** [s.replace(pat, by)] for a string pattern: the first occurrence only. *)
Fixpoint replaceFirst (s pat by_ : jsstring) : jsstring :=
  if startsWith s pat then by_ ++ drop (length pat) s
  else match s with
       | [] => []
       | u :: s' => u :: replaceFirst s' pat by_
       end.

(** [n.toString()] for a non-negative integer: its decimal digits. *)
Definition numberToString (n : nat) : jsstring := u16 (pretty n).

(** Normal completion or a thrown exception. *)
Inductive JSError : Type := TypeError | HostError.

Inductive Completion (A : Type) : Type :=
| Normal (a : A)
| Throw (e : JSError).
Arguments Normal {A} a.
Arguments Throw {A} e.

(** A position typed [T | null | undefined] and compared with [===]. *)
Inductive Nullable (A : Type) : Type :=
| IsUndefined
| IsNull
| IsValue (a : A).
Arguments IsUndefined {A}.
Arguments IsNull {A}.
Arguments IsValue {A} a.

#[global] Instance Nullable_eq_dec {A} `{EqDecision A} : EqDecision (Nullable A).
Proof. solve_decision. Defined.

(** ** utils/iconUtils.ts *)

(** The character classes of [emojiRegex], in the order of the
    alternation. *)
Definition emojiRanges : list (Z * Z) :=
  [ (0x1F600, 0x1F64F); (0x1F300, 0x1F5FF); (0x1F680, 0x1F6FF);
    (0x1F1E0, 0x1F1FF); (0x2600, 0x26FF); (0x2700, 0x27BF);
    (0x1F900, 0x1F9FF); (0x1F018, 0x1F270); (0x238C, 0x2454);
    (0x20D0, 0x20FF) ].

Definition inRange (cp : Z) (r : Z * Z) : bool := (r.1 <=? cp) && (cp <=? r.2).

(** One attempt of the alternation at a position: the code point read
    there is tried against each class in turn. *)
Definition emojiClassMatch (cp : Z) : bool := existsb (inRange cp) emojiRanges.

(** [emojiRegex.test(s)]: the pattern is unanchored, so every start
    position is tried; with the [u] flag positions advance by code point
    and a surrogate pair is read as one code point. *)
Fixpoint emojiRegexTest (s : jsstring) : bool :=
  match s with
  | [] => false
  | hi :: rest =>
      match rest with
      | lo :: rest' =>
          if isHighSurrogate hi && isLowSurrogate lo
          then emojiClassMatch (pairCodePoint hi lo) || emojiRegexTest rest'
          else emojiClassMatch hi || emojiRegexTest rest
      | [] => emojiClassMatch hi
      end
  end.

Definition isEmoji (icon : JSValue) : bool :=
  match icon with
  | JString s => if truthy icon then emojiRegexTest s else false
  | _ => false
  end.

(** ** components/EmojiPicker.tsx *)

Module EmojiPicker.

Definition handleInputChange (value : jsstring) : jsstring :=
  let chars := stringIterator value in
  jsSlice value 0 (match chars with
                   | c :: _ => Z.of_nat (length c)
                   | [] => 0
                   end).

(** What reaches [onSelectEmoji], and from where. *)
Inductive Selection : Type :=
| Submitted (emoji : jsstring)
| Recent (emoji : jsstring).

(** [handleSubmit] with [inputValue] as the component state holds it. *)
Definition handleSubmit (inputValue : jsstring) : list Selection :=
  if truthy (JString inputValue) && isEmoji (JString inputValue)
  then [Submitted inputValue]
  else [].

Inductive Event : Type :=
| InputChange (value : jsstring)
| SubmitClick
| KeyPress (key : jsstring)
| RecentEmojiClick (emoji : jsstring).

Definition keyEnter : jsstring := u16 "Enter".

(** One event: the new [inputValue] and the calls of [onSelectEmoji]. *)
Definition step (inputValue : jsstring) (e : Event) : jsstring * list Selection :=
  match e with
  | InputChange value => (handleInputChange value, [])
  | SubmitClick => (inputValue, handleSubmit inputValue)
  | KeyPress key =>
      (inputValue, if bool_decide (key = keyEnter) then handleSubmit inputValue else [])
  | RecentEmojiClick emoji => (inputValue, [Recent emoji])
  end.

Fixpoint run (inputValue : jsstring) (es : list Event) : jsstring * list Selection :=
  match es with
  | [] => (inputValue, [])
  | e :: es' =>
      let '(v, calls) := step inputValue e in
      let '(v', calls') := run v es' in
      (v', calls ++ calls')
  end.

(** The input value starts empty. *)
Definition initialInputValue : jsstring := [].

End EmojiPicker.

(** ** Host API: files, metadata cache, vault *)

Record TFolder : Type := { folderPath : jsstring; folderName : jsstring }.

Record FileStats : Type := { ctime : Z; mtime : Z; size : Z }.

Record TFile : Type := {
  path : jsstring;
  name : jsstring;
  basename : jsstring;
  extension : jsstring;
  stat : FileStats;
  parent : option TFolder
}.

Record EmbedCache : Type := { link : jsstring }.

(** [frontmatter] holds the own properties of the frontmatter object:
    property names with YAML values of any type; both fields are
    optional. *)
Record CachedMetadata : Type := {
  frontmatter : option (gmap jsstring JSValue);
  embeds : option (list EmbedCache)
}.

Record MetadataCache : Type := {
  getFileCache : TFile → option CachedMetadata;
  getFirstLinkpathDest : jsstring → jsstring → option TFile
}.

(** [getResourcePath] may throw while the vault is not ready. *)
Record Vault : Type := { getResourcePath : TFile → Completion jsstring }.

Inductive ItemType : Type := FILE | FOLDER | TAG.

#[global] Instance ItemType_eq_dec : EqDecision ItemType.
Proof. solve_decision. Defined.

(** ** settings *)

Inductive SortOption : Type :=
| ModifiedDesc | ModifiedAsc | CreatedDesc | CreatedAsc | TitleAsc | TitleDesc.

#[global] Instance SortOption_eq_dec : EqDecision SortOption.
Proof. solve_decision. Defined.

(** What a position typed [SortOption] holds at run time when it was
    read from an override map: one of the six strings, or a member the
    map inherits from [Object.prototype], named by its key. *)
Inductive SortValue : Type :=
| IsOption (o : SortOption)
| InheritedMember (key : jsstring).

Coercion IsOption : SortOption >-> SortValue.

#[global] Instance SortValue_eq_dec : EqDecision SortValue.
Proof. solve_decision. Defined.

(** The settings the functions below read. The override maps are
    optional, a map holds the overrides that were set: the own
    properties of the object. *)
Record NotebookNavigatorSettings : Type := {
  defaultFolderSort : SortOption;
  folderSortOverrides : option (gmap jsstring SortOption);
  tagSortOverrides : option (gmap jsstring SortOption);
  showFeatureImage : bool;
  featureImageProperties : list jsstring
}.

(** ** utils/sortUtils.ts *)

Definition SORT_OPTIONS : list SortOption :=
  [ModifiedDesc; ModifiedAsc; CreatedDesc; CreatedAsc; TitleAsc; TitleDesc].

(** [overrides?.[key]]: [None] is [undefined]. An own property of the
    object comes first; without one the lookup goes on to
    [Object.prototype]. A sort option is one of six non-empty strings
    and an inherited member is a function or an object, so a value that
    is found is truthy. *)
Definition overrideAt (overrides : option (gmap jsstring SortOption))
    (key : jsstring) : option SortValue :=
  m ← overrides;
  match m !! key with
  | Some o => Some (IsOption o)
  | None => if inObjectPrototype key then Some (InheritedMember key) else None
  end.

Definition getEffectiveSortOption (settings : NotebookNavigatorSettings)
    (selectionType : ItemType) (selectedFolder : option TFolder)
    (selectedTag : option jsstring) : SortValue :=
  match
    (if bool_decide (selectionType = FOLDER)
     then f ← selectedFolder; overrideAt (folderSortOverrides settings) (folderPath f)
     else None)
  with
  | Some folderSort => folderSort
  | None =>
      match
        (if bool_decide (selectionType = TAG)
         then t ← selectedTag;
              if truthy (JString t)
              then overrideAt (tagSortOverrides settings) t
              else None
         else None)
      with
      | Some tagSort => tagSort
      | None => IsOption (defaultFolderSort settings)
      end
  end.

(** [Array.prototype.sort(comparefn)]: a stable sort; [comparefn a b <= 0]
    keeps [a] before [b]. The array is updated in place, the function
    below gives its new contents. *)
Section ArraySort.
Context {A : Type} (comparefn : A → A → Z).

Fixpoint sortInsert (x : A) (sorted : list A) : list A :=
  match sorted with
  | [] => [x]
  | y :: rest =>
      if comparefn x y <=? 0 then x :: y :: rest else y :: sortInsert x rest
  end.

Definition arraySort (l : list A) : list A := foldr sortInsert [] l.
End ArraySort.

Inductive DateField : Type := Modified | Created.

(** [DateUtils.getFileTimestamp] and [String.prototype.localeCompare] are
    the host's; [sortFiles] is written over them. *)
Section SortFiles.
Variable getFileTimestamp :
  TFile → DateField → NotebookNavigatorSettings → MetadataCache → Z.
Variable localeCompare : jsstring → jsstring → Z.

Definition sortFiles (files : list TFile) (sortOption : SortOption)
    (settings : NotebookNavigatorSettings) (metadataCache : MetadataCache)
    : list TFile :=
  match sortOption with
  | ModifiedDesc =>
      arraySort (λ a b,
        let aTime := getFileTimestamp a Modified settings metadataCache in
        let bTime := getFileTimestamp b Modified settings metadataCache in
        bTime - aTime) files
  | ModifiedAsc =>
      arraySort (λ a b,
        let aTime := getFileTimestamp a Modified settings metadataCache in
        let bTime := getFileTimestamp b Modified settings metadataCache in
        aTime - bTime) files
  | CreatedDesc =>
      arraySort (λ a b,
        let aTime := getFileTimestamp a Created settings metadataCache in
        let bTime := getFileTimestamp b Created settings metadataCache in
        bTime - aTime) files
  | CreatedAsc =>
      arraySort (λ a b,
        let aTime := getFileTimestamp a Created settings metadataCache in
        let bTime := getFileTimestamp b Created settings metadataCache in
        aTime - bTime) files
  | TitleAsc =>
      arraySort (λ a b, localeCompare (basename a) (basename b)) files
  | TitleDesc =>
      arraySort (λ a b, localeCompare (basename b) (basename a)) files
  end.
End SortFiles.

Definition getSortIcon (sortOption : SortOption) : jsstring :=
  match sortOption with
  | ModifiedDesc | CreatedDesc | TitleDesc => u16 "sort-desc"
  | _ => u16 "sort-asc"
  end.

Definition shouldShowDateGrouping (sortOption : SortOption) : bool :=
  match sortOption with
  | TitleAsc | TitleDesc => false
  | _ => true
  end.

Definition getDateField (sortOption : SortOption) : DateField :=
  match sortOption with
  | CreatedDesc | CreatedAsc => Created
  | _ => Modified
  end.

(** The declared (field, direction) pair of a sort option. *)
Inductive SortField : Type := ByModified | ByCreated | ByTitle.
Inductive Direction : Type := Ascending | Descending.

Definition sortField (o : SortOption) : SortField :=
  match o with
  | ModifiedDesc | ModifiedAsc => ByModified
  | CreatedDesc | CreatedAsc => ByCreated
  | TitleAsc | TitleDesc => ByTitle
  end.

Definition sortDirection (o : SortOption) : Direction :=
  match o with
  | ModifiedAsc | CreatedAsc | TitleAsc => Ascending
  | ModifiedDesc | CreatedDesc | TitleDesc => Descending
  end.

Definition sortOptionOf (f : SortField) (d : Direction) : SortOption :=
  match f, d with
  | ByModified, Ascending => ModifiedAsc
  | ByModified, Descending => ModifiedDesc
  | ByCreated, Ascending => CreatedAsc
  | ByCreated, Descending => CreatedDesc
  | ByTitle, Ascending => TitleAsc
  | ByTitle, Descending => TitleDesc
  end.

(** The timestamps as the file system has them (no frontmatter dates
    configured), and the ordering of strings by code units: one host
    the section above can run on. *)
Definition statTimestamp (f : TFile) (d : DateField)
    (_ : NotebookNavigatorSettings) (_ : MetadataCache) : Z :=
  match d with
  | Modified => mtime (stat f)
  | Created => ctime (stat f)
  end.

Fixpoint codeUnitCompare (a b : jsstring) : Z :=
  match a, b with
  | [], [] => 0
  | [], _ :: _ => -1
  | _ :: _, [] => 1
  | x :: a', y :: b' =>
      if x <? y then -1 else if y <? x then 1 else codeUnitCompare a' b'
  end.

(** ** components/FileItem.tsx *)

Module FileItem.

Record FileItemProps : Type := {
  file : TFile;
  isSelected : bool;
  hasSelectedAbove : option bool;
  hasSelectedBelow : option bool;
  (** the identity of the handler function *)
  onClick : nat;
  dateGroup : Nullable jsstring;
  formattedDate : option jsstring;
  parentFolder : Nullable jsstring
}.

(** [metadata?.frontmatter?.[property]]: an own property of the
    frontmatter object, else the member of [Object.prototype] of that
    name, else [undefined]. *)
Definition frontmatterAt (metadata : option CachedMetadata)
    (property : jsstring) : JSValue :=
  match md ← metadata; frontmatter md with
  | Some fm =>
      match fm !! property with
      | Some value => value
      | None => if inObjectPrototype property then JObject else JUndefined
      end
  | None => JUndefined
  end.

(** [[[image.png]]] to [image.png]. *)
Definition unwrapWikilink (imagePath : jsstring) : jsstring :=
  if startsWith imagePath (u16 "[[") && endsWith imagePath (u16 "]]")
  then jsSlice imagePath 2 (-2)
  else imagePath.

(** [isImageFile] is the host-side helper of [utils/fileTypeUtils]. *)
Section FeatureImage.
Variable isImageFile : TFile → bool.
Variable settings : NotebookNavigatorSettings.
Variable metadataCache : MetadataCache.
Variable vault : Vault.
Variable file : TFile.

Definition metadata : option CachedMetadata := getFileCache metadataCache file.

(** The loop over [settings.featureImageProperties]: [Normal (Some url)]
    when it returns, [Normal None] when it runs to its end. A truthy
    value is used as a string: [imagePath.startsWith] is called on it. *)
Fixpoint frontmatterLoop (properties : list jsstring) : Completion (option jsstring) :=
  match properties with
  | [] => Normal None
  | property :: rest =>
      let imagePath := frontmatterAt metadata property in
      if negb (truthy imagePath) then frontmatterLoop rest
      else
        match imagePath with
        | JString s =>
            let resolvedPath := unwrapWikilink s in
            match getFirstLinkpathDest metadataCache resolvedPath (path file) with
            | Some imageFile =>
                match getResourcePath vault imageFile with
                | Normal url => Normal (Some url)
                | Throw _ => frontmatterLoop rest
                end
            | None => frontmatterLoop rest
            end
        | _ => Throw TypeError
        end
  end.

(** The loop over [metadata.embeds]. *)
Fixpoint embedLoop (es : list EmbedCache) : option jsstring :=
  match es with
  | [] => None
  | embed :: rest =>
      let embedPath := link embed in
      match getFirstLinkpathDest metadataCache embedPath (path file) with
      | Some embedFile =>
          if isImageFile embedFile
          then match getResourcePath vault embedFile with
               | Normal url => Some url
               | Throw _ => embedLoop rest
               end
          else embedLoop rest
      | None => embedLoop rest
      end
  end.

(** [metadata?.embeds], when it is there and not empty. *)
Definition embedList : list EmbedCache :=
  default [] (md ← metadata; embeds md).

Definition featureImageUrl : Completion (option jsstring) :=
  if negb (showFeatureImage settings) then Normal None
  else if isImageFile file then
    match getResourcePath vault file with
    | Normal url => Normal (Some url)
    | Throw _ => Normal None
    end
  else if bool_decide (extension file = u16 "md") then
    match frontmatterLoop (featureImageProperties settings) with
    | Normal (Some url) => Normal (Some url)
    | Normal None => Normal (embedLoop embedList)
    | Throw e => Throw e
    end
  else Normal None.
End FeatureImage.

(** The comparator given to [memo]: [true] skips the re-render. *)
Definition propsAreEqual (prevProps nextProps : FileItemProps) : bool :=
  bool_decide (path (file prevProps) = path (file nextProps)) &&
  bool_decide (name (file prevProps) = name (file nextProps)) &&
  bool_decide (mtime (stat (file prevProps)) = mtime (stat (file nextProps))) &&
  bool_decide (isSelected prevProps = isSelected nextProps) &&
  bool_decide (hasSelectedAbove prevProps = hasSelectedAbove nextProps) &&
  bool_decide (hasSelectedBelow prevProps = hasSelectedBelow nextProps) &&
  bool_decide (dateGroup prevProps = dateGroup nextProps) &&
  bool_decide (onClick prevProps = onClick nextProps) &&
  bool_decide (formattedDate prevProps = formattedDate nextProps) &&
  bool_decide (parentFolder prevProps = parentFolder nextProps).

Definition rerenders (prevProps nextProps : FileItemProps) : bool :=
  negb (propsAreEqual prevProps nextProps).

End FileItem.

(** ** modals/IconPickerModal.ts *)

Module IconPickerModal.

Inductive Tab : Type := IconsTab | EmojisTab.

#[global] Instance Tab_eq_dec : EqDecision Tab.
Proof. solve_decision. Defined.

(** [strings.modals.iconPicker]. *)
Record IconPickerStrings : Type := {
  searchPlaceholder : jsstring;
  recentlyUsedHeader : jsstring;
  emptyStateSearch : jsstring;
  emptyStateNoResults : jsstring;
  showingResultsInfo : jsstring
}.

(** i18n/locales/fr.ts *)
Definition fr : IconPickerStrings := {|
  searchPlaceholder :=
    u16 "Rechercher des ic" ++ [0x00F4] ++ u16 "nes...";
  recentlyUsedHeader :=
    u16 "R" ++ [0x00E9] ++ u16 "cemment utilis" ++ [0x00E9] ++ u16 "es";
  emptyStateSearch :=
    u16 "Commencez " ++ [0x00E0] ++ u16 " taper pour rechercher des ic"
      ++ [0x00F4] ++ u16 "nes";
  emptyStateNoResults :=
    u16 "Aucune ic" ++ [0x00F4] ++ u16 "ne trouv" ++ [0x00E9] ++ u16 "e";
  showingResultsInfo :=
    u16 "Affichage de 50 r" ++ [0x00E9]
      ++ u16 "sultats sur {count}. Tapez plus pour affiner."
|}.

(** i18n/locales/zh.ts *)
Definition zh : IconPickerStrings := {|
  searchPlaceholder :=
    [0x641C; 0x7D22; 0x56FE; 0x6807] ++ u16 "...";
  recentlyUsedHeader :=
    [0x6700; 0x8FD1; 0x4F7F; 0x7528];
  emptyStateSearch :=
    [0x5F00; 0x59CB; 0x8F93; 0x5165; 0x4EE5; 0x641C; 0x7D22; 0x56FE; 0x6807];
  emptyStateNoResults :=
    [0x672A; 0x627E; 0x5230; 0x56FE; 0x6807];
  showingResultsInfo :=
    [0x663E; 0x793A] ++ u16 " {count} "
      ++ [0x4E2A; 0x7ED3; 0x679C; 0x4E2D; 0x7684] ++ u16 " 50 "
      ++ [0x4E2A; 0x3002; 0x8F93; 0x5165; 0x66F4; 0x591A; 0x5185; 0x5BB9;
          0x4EE5; 0x7F29; 0x5C0F; 0x8303; 0x56F4; 0x3002]
|}.

(** What [createIconItem] adds to a grid. *)
Record IconItem : Type := { dataIconId : jsstring; itemName : jsstring }.

(** The children of the results container. *)
Inductive Node : Type :=
| SectionHeader (text : jsstring)
| IconGrid (items : list IconItem)
| EmptyMessage (text : jsstring)
| MoreMessage (text : jsstring)
| EmojiPickerContainer (recentEmojis : list jsstring).

Record Modal : Type := {
  itemPath : jsstring;
  itemType : ItemType;
  allIcons : list jsstring;
  recentlyUsedIcons : list jsstring;
  recentlyUsedEmojis : list jsstring;
  focusedIndex : Z;
  gridColumns : Z;
  activeTab : Tab;
  (** [searchInput.value] *)
  searchValue : jsstring;
  (** [None] until [onOpen] creates the container *)
  resultsContainer : option (list Node);
  (** whether the owner has set [onChooseIcon] *)
  hasOnChooseIcon : bool
}.

(** The constructor; [getIconIds] is the host's icon catalog, an argument
    left out ([None]) takes its default. *)
Definition constructor (getIconIds : list jsstring) (itemPath : jsstring)
    (recentlyUsedIcons : option (list jsstring)) (itemType : option ItemType) : Modal :=
  let recentlyUsedIcons := default [] recentlyUsedIcons in
  let allIcons := getIconIds in
  {| itemPath := itemPath;
     itemType := default FOLDER itemType;
     allIcons := allIcons;
     recentlyUsedIcons :=
       filter (λ item, negb (isEmoji (JString item)) && bool_decide (item ∈ allIcons) = true)
              recentlyUsedIcons;
     recentlyUsedEmojis :=
       filter (λ item, isEmoji (JString item) = true) recentlyUsedIcons;
     focusedIndex := -1;
     gridColumns := 5;
     activeTab := IconsTab;
     searchValue := [];
     resultsContainer := None;
     hasOnChooseIcon := false |}.

(** [String.prototype.trim]: white space and line terminators. *)
Definition isWhiteSpace (u : Z) : bool :=
  bool_decide (u ∈ [0x09; 0x0A; 0x0B; 0x0C; 0x0D; 0x20; 0xA0; 0x1680; 0x2028;
                    0x2029; 0x202F; 0x205F; 0x3000; 0xFEFF])
  || ((0x2000 <=? u) && (u <=? 0x200A)).

Fixpoint trimStart (s : jsstring) : jsstring :=
  match s with
  | u :: s' => if isWhiteSpace u then trimStart s' else s
  | [] => []
  end.

Definition trim (s : jsstring) : jsstring :=
  reverse (trimStart (reverse (trimStart s))).

(** [s.split('-')] for a one-unit separator: never empty. *)
Fixpoint splitOn (sep : Z) (s : jsstring) : list jsstring :=
  match s with
  | [] => [[]]
  | u :: s' =>
      if u =? sep then [] :: splitOn sep s'
      else match splitOn sep s' with
           | w :: ws => (u :: w) :: ws
           | [] => [[u]]
           end
  end.

(** [words.join(sep)]. *)
Fixpoint joinWith (sep : jsstring) (words : list jsstring) : jsstring :=
  match words with
  | [] => []
  | [w] => w
  | w :: ws => w ++ sep ++ joinWith sep ws
  end.

(** [word.charAt(0)]. *)
Definition charAt0 (word : jsstring) : jsstring := take 1 word.

Definition hyphen : Z := 0x2D.

(** The search and the display names go through the host's Unicode case
    mappings. *)
Section Search.
Variable toLowerCase : jsstring → jsstring.
Variable toUpperCase : jsstring → jsstring.
Variable strings : IconPickerStrings.

Definition getIconDisplayName (iconId : jsstring) : jsstring :=
  let name :=
    if startsWith iconId (u16 "lucide-")
    then drop (length (u16 "lucide-")) iconId
    else iconId in
  joinWith (u16 " ")
    ((λ word, toUpperCase (charAt0 word) ++ jsSliceFrom word 1)
       <$> splitOn hyphen name).

Definition createIconItem (iconId : jsstring) : IconItem :=
  {| dataIconId := iconId; itemName := getIconDisplayName iconId |}.

(** The filter predicate of the search. *)
Definition iconMatches (searchTerm iconId : jsstring) : bool :=
  let iconName := getIconDisplayName iconId in
  includes (toLowerCase iconName) searchTerm
  || includes (toLowerCase iconId) searchTerm.

Definition withResults (m : Modal) (nodes : list Node) : Modal :=
  {| itemPath := itemPath m;
     itemType := itemType m;
     allIcons := allIcons m;
     recentlyUsedIcons := recentlyUsedIcons m;
     recentlyUsedEmojis := recentlyUsedEmojis m;
     focusedIndex := -1;
     gridColumns := gridColumns m;
     activeTab := activeTab m;
     searchValue := searchValue m;
     resultsContainer := Some nodes;
     hasOnChooseIcon := hasOnChooseIcon m |}.

(** The children [updateResults] leaves in the container on the icons
    tab. *)
Definition iconResults (m : Modal) : list Node :=
  let searchTerm := trim (toLowerCase (searchValue m)) in
  if bool_decide (searchTerm = []) then
    if (0 <? length (recentlyUsedIcons m))%nat then
      [SectionHeader (recentlyUsedHeader strings);
       IconGrid (createIconItem <$> recentlyUsedIcons m)]
    else [EmptyMessage (emptyStateSearch strings)]
  else
    let matchingIcons :=
      filter (λ iconId, iconMatches searchTerm iconId = true) (allIcons m) in
    if (0 <? length matchingIcons)%nat then
      IconGrid (createIconItem <$> take 50 matchingIcons)
      :: (if (50 <? length matchingIcons)%nat then
            [MoreMessage
               (replaceFirst (showingResultsInfo strings) (u16 "{count}")
                  (numberToString (length matchingIcons)))]
          else [])
    else [EmptyMessage (emptyStateNoResults strings)].

Definition updateResults (m : Modal) : Modal :=
  match resultsContainer m with
  | None => m
  | Some _ =>
      if bool_decide (activeTab m = EmojisTab)
      then withResults m [EmojiPickerContainer (recentlyUsedEmojis m)]
      else withResults m (iconResults m)
  end.
End Search.

(** The [.nn-icon-item] elements of the container, in document order. *)
Definition iconItems (nodes : list Node) : list IconItem :=
  nodes ≫= λ n, match n with IconGrid items => items | _ => [] end.

Definition moreMessages (nodes : list Node) : list jsstring :=
  nodes ≫= λ n, match n with MoreMessage text => [text] | _ => [] end.

(** The identifiers on display. *)
Definition displayedIcons (m : Modal) : list jsstring :=
  dataIconId <$> iconItems (default [] (resultsContainer m)).

(** *** Keyboard navigation *)

Inductive Key : Type :=
| KeyTab (shiftKey : bool)
| ArrowLeft | ArrowRight | ArrowUp | ArrowDown
| KeyEnter | KeySpace
| KeyOther.

(** [document.activeElement]: the search input, the grid item with the
    given [indexOf] in the list of items, or something else. *)
Inductive Focus : Type :=
| OnSearchInput
| OnIconItem (index : Z)
| Elsewhere.

(** The [switch] on an arrow key: the index the key asks for. [%] is the
    remainder of the truncated division. *)
Definition arrowTarget (gridColumns len currentIndex : Z) (key : Key) : Z :=
  match key with
  | ArrowLeft =>
      if Z.rem currentIndex gridColumns >? 0 then currentIndex - 1 else currentIndex
  | ArrowRight =>
      if (Z.rem currentIndex gridColumns <? gridColumns - 1) && (currentIndex <? len - 1)
      then currentIndex + 1 else currentIndex
  | ArrowUp =>
      if currentIndex >=? gridColumns then currentIndex - gridColumns else currentIndex
  | ArrowDown =>
      if currentIndex + gridColumns <? len then currentIndex + gridColumns else currentIndex
  | _ => currentIndex
  end.

(** The index that has the focus after the key: the guard after the
    [switch] moves it only to an existing item. *)
Definition gridStep (gridColumns len currentIndex : Z) (key : Key) : Z :=
  let newIndex := arrowTarget gridColumns len currentIndex key in
  if negb (newIndex =? currentIndex) && (newIndex >=? 0) && (newIndex <? len)
  then newIndex else currentIndex.

Definition withFocusedIndex (m : Modal) (i : Z) : Modal :=
  {| itemPath := itemPath m;
     itemType := itemType m;
     allIcons := allIcons m;
     recentlyUsedIcons := recentlyUsedIcons m;
     recentlyUsedEmojis := recentlyUsedEmojis m;
     focusedIndex := i;
     gridColumns := gridColumns m;
     activeTab := activeTab m;
     searchValue := searchValue m;
     resultsContainer := resultsContainer m;
     hasOnChooseIcon := hasOnChooseIcon m |}.

(** [contentElKeydownHandler]: the modal, the focus and the icon handed
    to [selectIcon], if any. *)
Definition contentElKeydownHandler (m : Modal) (focus : Focus) (key : Key)
    : Modal * Focus * option jsstring :=
  let items := iconItems (default [] (resultsContainer m)) in
  let len := Z.of_nat (length items) in
  if len =? 0 then (m, focus, None)
  else
    match focus with
    | OnIconItem currentIndex =>
        match key with
        | KeyTab shiftKey =>
            if shiftKey then (withFocusedIndex m (-1), OnSearchInput, None)
            else (m, focus, None)
        | KeyEnter | KeySpace =>
            let iconId :=
              if currentIndex <? 0 then None
              else dataIconId <$> items !! Z.to_nat currentIndex in
            (m, focus,
             match iconId with
             | Some i => if truthy (JString i) then Some i else None
             | None => None
             end)
        | _ =>
            let newIndex := gridStep (gridColumns m) len currentIndex key in
            if newIndex =? currentIndex then (m, focus, None)
            else (withFocusedIndex m newIndex, OnIconItem newIndex, None)
        end
    | _ => (m, focus, None)
    end.

(** *** Selection *)

(** The calls [selectIcon] makes. *)
Inductive Effect : Type :=
| SetTagIcon (tagPath iconId : jsstring)
| SetFolderIcon (folderPath iconId : jsstring)
| OnChooseIcon (iconId : jsstring)
| Close.

Inductive Outcome : Type := Fulfilled | Rejected.

(** The body of an [async] function: synchronous calls, and calls whose
    promise is awaited, the rest running once it has settled. *)
Inductive Async : Type :=
| Return
| Rethrow
| Call (e : Effect) (k : Async)
| AwaitCall (e : Effect) (k : Outcome → Async).

Definition selectIcon (m : Modal) (iconId : jsstring) : Async :=
  AwaitCall
    (if bool_decide (itemType m = TAG)
     then SetTagIcon (itemPath m) iconId
     else SetFolderIcon (itemPath m) iconId)
    (λ settled,
       match settled with
       | Fulfilled =>
           if hasOnChooseIcon m
           then Call (OnChooseIcon iconId) (Call Close Return)
           else Call Close Return
       | Rejected => Rethrow
       end).

(** What an observer sees, in order. *)
Inductive Observation : Type :=
| Invoked (e : Effect)
| Settled (e : Effect) (o : Outcome).

(** A run, the metadata service deciding how each assignment settles. *)
Fixpoint observe (service : Effect → Outcome) (p : Async) : list Observation :=
  match p with
  | Return | Rethrow => []
  | Call e k => Invoked e :: observe service k
  | AwaitCall e k =>
      Invoked e :: Settled e (service e) :: observe service (k (service e))
  end.

(** ASCII case mappings: what [toLowerCase] and [toUpperCase] do on
    ASCII text. *)
Definition asciiLower (s : jsstring) : jsstring :=
  (λ u, if (0x41 <=? u) && (u <=? 0x5A) then u + 32 else u) <$> s.

Definition asciiUpper (s : jsstring) : jsstring :=
  (λ u, if (0x61 <=? u) && (u <=? 0x7A) then u - 32 else u) <$> s.

End IconPickerModal.

(** ** The sort resolver as the specification words it *)

(** An override exists for the key: the map holds one for it. *)
Definition storedOverride (overrides : option (gmap jsstring SortOption))
    (key : jsstring) (v : SortValue) : Prop :=
  ∃ m o, overrides = Some m ∧ m !! key = Some o ∧ v = IsOption o.


(** A folder override for the selected folder. *)
Definition isFolderOverride (settings : NotebookNavigatorSettings)
    (selectionType : ItemType) (selectedFolder : option TFolder)
    (v : SortValue) : Prop :=
  selectionType = FOLDER ∧
  ∃ f, selectedFolder = Some f
       ∧ storedOverride (folderSortOverrides settings) (folderPath f) v.

(** A tag override for the selected tag, whatever its name. *)
Definition isTagOverride (settings : NotebookNavigatorSettings)
    (selectionType : ItemType) (selectedTag : option jsstring)
    (v : SortValue) : Prop :=
  selectionType = TAG ∧
  ∃ t, selectedTag = Some t ∧ storedOverride (tagSortOverrides settings) t v.



(** Folder override, else tag override, else global default;
    [folderRule] and [tagRule] say what counts as an override. *)
Inductive ResolvesTo
    (folderRule : NotebookNavigatorSettings → ItemType → option TFolder → SortValue → Prop)
    (tagRule : NotebookNavigatorSettings → ItemType → option jsstring → SortValue → Prop)
    (settings : NotebookNavigatorSettings) (selectionType : ItemType)
    (selectedFolder : option TFolder) (selectedTag : option jsstring)
    : SortValue → Prop :=
| ResolvesFolder v :
    folderRule settings selectionType selectedFolder v →
    ResolvesTo folderRule tagRule settings selectionType selectedFolder selectedTag v
| ResolvesTag v :
    (∀ v', ¬ folderRule settings selectionType selectedFolder v') →
    tagRule settings selectionType selectedTag v →
    ResolvesTo folderRule tagRule settings selectionType selectedFolder selectedTag v
| ResolvesDefault :
    (∀ v', ¬ folderRule settings selectionType selectedFolder v') →
    (∀ v', ¬ tagRule settings selectionType selectedTag v') →
    ResolvesTo folderRule tagRule settings selectionType selectedFolder selectedTag
      (IsOption (defaultFolderSort settings)).

(** ** The memo comparator as the specification words it *)

(** A change of one of: file path, file name, modification time, the
    three selection flags, date-group key, click handler, formatted
    date. *)
Definition listedChange (prevProps nextProps : FileItem.FileItemProps) : Prop :=
  path (FileItem.file prevProps) ≠ path (FileItem.file nextProps)
  ∨ name (FileItem.file prevProps) ≠ name (FileItem.file nextProps)
  ∨ mtime (stat (FileItem.file prevProps)) ≠ mtime (stat (FileItem.file nextProps))
  ∨ FileItem.isSelected prevProps ≠ FileItem.isSelected nextProps
  ∨ FileItem.hasSelectedAbove prevProps ≠ FileItem.hasSelectedAbove nextProps
  ∨ FileItem.hasSelectedBelow prevProps ≠ FileItem.hasSelectedBelow nextProps
  ∨ FileItem.dateGroup prevProps ≠ FileItem.dateGroup nextProps
  ∨ FileItem.onClick prevProps ≠ FileItem.onClick nextProps
  ∨ FileItem.formattedDate prevProps ≠ FileItem.formattedDate nextProps.

(** Sample data: a note and two sets of props for it that differ in the
    parent folder only. *)
Definition sampleNote : TFile :=
  {| path := u16 "Projects/plan.md"; name := u16 "plan.md";
     basename := u16 "plan"; extension := u16 "md";
     stat := {| ctime := 1000; mtime := 2000; size := 10 |};
     parent := Some {| folderPath := u16 "Projects"; folderName := u16 "Projects" |} |}.

Definition propsIn (parentFolder : Nullable jsstring) : FileItem.FileItemProps :=
  {| FileItem.file := sampleNote;
     FileItem.isSelected := false;
     FileItem.hasSelectedAbove := None;
     FileItem.hasSelectedBelow := None;
     FileItem.onClick := 0%nat;
     FileItem.dateGroup := IsNull;
     FileItem.formattedDate := None;
     FileItem.parentFolder := parentFolder |}.


(** A folder and a tag that bear the name of a member of
    [Object.prototype]. *)
Definition folderConstructor : TFolder :=
  {| folderPath := u16 "constructor"; folderName := u16 "constructor" |}.

Definition tagToString : jsstring := u16 "toString".

(** Settings with an override for the folder [Projects] and one for the
    tag [todo]. *)
Definition settingsOverrides : NotebookNavigatorSettings :=
  {| defaultFolderSort := ModifiedDesc;
     folderSortOverrides := Some {[ u16 "Projects" := CreatedAsc ]};
     tagSortOverrides := Some {[ u16 "todo" := TitleAsc ]};
     showFeatureImage := true;
     featureImageProperties := [] |}.

(** ** The declared order of a sort option *)

Section SortOrder.
Variable getFileTimestamp :
  TFile → DateField → NotebookNavigatorSettings → MetadataCache → Z.
Variable localeCompare : jsstring → jsstring → Z.
Variable settings : NotebookNavigatorSettings.
Variable metadataCache : MetadataCache.

(** [a] is not after [b] in the ascending order of the field. *)
Definition fieldLe (f : SortField) (a b : TFile) : Prop :=
  match f with
  | ByModified =>
      getFileTimestamp a Modified settings metadataCache
      ≤ getFileTimestamp b Modified settings metadataCache
  | ByCreated =>
      getFileTimestamp a Created settings metadataCache
      ≤ getFileTimestamp b Created settings metadataCache
  | ByTitle => localeCompare (basename a) (basename b) ≤ 0
  end.

(** [a] may stand before [b] under the (field, direction) pair of [o]. *)
Definition inDeclaredOrder (o : SortOption) (a b : TFile) : Prop :=
  match sortDirection o with
  | Ascending => fieldLe (sortField o) a b
  | Descending => fieldLe (sortField o) b a
  end.

(** No two positions of the list hold files that tie on the field. *)
Definition noTies (f : SortField) (files : list TFile) : Prop :=
  ∀ i j a b, files !! i = Some a → files !! j = Some b → i ≠ j →
             ¬ (fieldLe f a b ∧ fieldLe f b a).

(** The comparator each case of [sortFiles] hands to [sort]. *)
Definition comparefn (o : SortOption) (a b : TFile) : Z :=
  match o with
  | ModifiedDesc =>
      getFileTimestamp b Modified settings metadataCache
      - getFileTimestamp a Modified settings metadataCache
  | ModifiedAsc =>
      getFileTimestamp a Modified settings metadataCache
      - getFileTimestamp b Modified settings metadataCache
  | CreatedDesc =>
      getFileTimestamp b Created settings metadataCache
      - getFileTimestamp a Created settings metadataCache
  | CreatedAsc =>
      getFileTimestamp a Created settings metadataCache
      - getFileTimestamp b Created settings metadataCache
  | TitleAsc => localeCompare (basename a) (basename b)
  | TitleDesc => localeCompare (basename b) (basename a)
  end.
End SortOrder.

(** What a collation has to satisfy to be a consistent comparator. *)
Definition consistentCompare (localeCompare : jsstring → jsstring → Z) : Prop :=
  (∀ a b, 0 < localeCompare a b → localeCompare b a ≤ 0)
  ∧ (∀ a b c, localeCompare a b ≤ 0 → localeCompare b c ≤ 0 → localeCompare a c ≤ 0).

(** Sample data: a cache that knows nothing, and files by name and
    modification time. *)
Definition emptyCache : MetadataCache :=
  {| getFileCache := λ _, None; getFirstLinkpathDest := λ _ _, None |}.

Definition noteAt (title : string) (modified : Z) : TFile :=
  {| path := u16 title ++ u16 ".md"; name := u16 title ++ u16 ".md";
     basename := u16 title; extension := u16 "md";
     stat := {| ctime := 0; mtime := modified; size := 0 |};
     parent := None |}.

(** ** Selection in the words of the specification *)

(** The metadata-assignment call of a selection: the tag entry point for
    a tag, the folder entry point otherwise. *)
Definition assignmentCall (m : IconPickerModal.Modal) (iconId : jsstring)
    : IconPickerModal.Effect :=
  match IconPickerModal.itemType m with
  | TAG => IconPickerModal.SetTagIcon (IconPickerModal.itemPath m) iconId
  | _ => IconPickerModal.SetFolderIcon (IconPickerModal.itemPath m) iconId
  end.

(** The modal is closed after the assignment has settled, whichever way
    it settled: the run has the settlement of the call, and a close
    later on. *)
Definition closesAfterSettlement (call : IconPickerModal.Effect)
    (run : list IconPickerModal.Observation) : Prop :=
  ∃ (i j : nat) outcome,
    run !! i = Some (IconPickerModal.Settled call outcome)
    ∧ run !! j = Some (IconPickerModal.Invoked IconPickerModal.Close)
    ∧ (i < j)%nat.

(** A metadata service whose assignments fail. *)
Definition rejectingService (e : IconPickerModal.Effect) : IconPickerModal.Outcome :=
  IconPickerModal.Rejected.

(** ** The feature image in the words of the specification *)

Section FeatureImagePriority.
Variable isImageFile : TFile → bool.
Variable settings : NotebookNavigatorSettings.
Variable metadataCache : MetadataCache.
Variable vault : Vault.
Variable file : TFile.

(** The resource path of a file, if the vault gives one. *)
Definition resourceOf (f : TFile) : option jsstring :=
  match getResourcePath vault f with
  | Normal url => Some url
  | Throw _ => None
  end.

(** The candidate of the first element that has one. *)
Fixpoint firstCandidate {A : Type} (candidate : A → option jsstring)
    (l : list A) : option jsstring :=
  match l with
  | [] => None
  | x :: rest =>
      match candidate x with
      | Some url => Some url
      | None => firstCandidate candidate rest
      end
  end.

(** A frontmatter property is a candidate when its value is a non-empty
    string that, unwrapped from a wikilink, resolves to a file with a
    resource path. *)
Definition propertyCandidate (property : jsstring) : option jsstring :=
  match FileItem.frontmatterAt (getFileCache metadataCache file) property with
  | JString (u :: s) =>
      f ← getFirstLinkpathDest metadataCache (FileItem.unwrapWikilink (u :: s)) (path file);
      resourceOf f
  | _ => None
  end.

(** An embedded reference is a candidate when it resolves to an image
    file with a resource path. *)
Definition embedCandidate (embed : EmbedCache) : option jsstring :=
  f ← getFirstLinkpathDest metadataCache (link embed) (path file);
  if isImageFile f then resourceOf f else None.

Definition featureImagePriority : option jsstring :=
  if isImageFile file then resourceOf file
  else if bool_decide (extension file = u16 "md") then
    match firstCandidate propertyCandidate (featureImageProperties settings) with
    | Some url => Some url
    | None => firstCandidate embedCandidate (FileItem.embedList metadataCache file)
    end
  else None.

(** The configured properties read as strings or as falsy values: what
    the lookup of each of them gives, an own value of the frontmatter or
    a member inherited from [Object.prototype], is a string or is
    falsy. A property that bears the name of an inherited member
    qualifies only when the frontmatter has a string or a falsy value
    of its own under that name. *)
Definition stringProperties : Prop :=
  ∀ property, property ∈ featureImageProperties settings →
    match FileItem.frontmatterAt (getFileCache metadataCache file) property with
    | JString _ => True
    | v => truthy v = false
    end.
End FeatureImagePriority.

(** Sample data: a note whose frontmatter has a number under [cover] and
    a wikilink to a photo under [image]. *)
Definition imageByExtension (f : TFile) : bool :=
  bool_decide (extension f ∈ [u16 "png"; u16 "jpg"; u16 "jpeg"; u16 "gif"; u16 "webp"]).

Definition photo : TFile :=
  {| path := u16 "assets/photo.png"; name := u16 "photo.png";
     basename := u16 "photo"; extension := u16 "png";
     stat := {| ctime := 1; mtime := 2; size := 3 |};
     parent := None |}.

Definition readyVault : Vault :=
  {| getResourcePath := λ f, Normal (u16 "app://local/" ++ path f) |}.

Definition settingsCover : NotebookNavigatorSettings :=
  {| defaultFolderSort := ModifiedDesc;
     folderSortOverrides := None;
     tagSortOverrides := None;
     showFeatureImage := true;
     featureImageProperties := [u16 "cover"; u16 "image"] |}.

Definition photoLinks (linkpath sourcePath : jsstring) : option TFile :=
  if bool_decide (linkpath = u16 "photo.png") then Some photo else None.

Definition cacheWith (fm : gmap jsstring JSValue) (es : list EmbedCache) : MetadataCache :=
  {| getFileCache := λ _, Some {| frontmatter := Some fm; embeds := Some es |};
     getFirstLinkpathDest := photoLinks |}.

Definition numberCover : gmap jsstring JSValue :=
  {[ u16 "cover" := JNumber 2024; u16 "image" := JString (u16 "[[photo.png]]") ]}.

(** ** The icon search in the words of the specification *)

(** [pat] occurs in [s]. *)
Definition occursIn (pat s : jsstring) : Prop :=
  ∃ pre post, s = pre ++ pat ++ post.

(** The identifier without its namespace prefix [lucide-]; an identifier
    that does not begin with the prefix is taken as it is. *)
Inductive StripsNamespace (iconId : jsstring) : jsstring → Prop :=
| StripsPrefix body :
    iconId = u16 "lucide-" ++ body → StripsNamespace iconId body
| StripsNothing :
    (∀ body, iconId ≠ u16 "lucide-" ++ body) → StripsNamespace iconId iconId.

(** The kebab-case tokens of a name: the hyphen-free pieces between its
    hyphens, in order. *)
Inductive KebabTokens : jsstring → list jsstring → Prop :=
| KebabLast token :
    IconPickerModal.hyphen ∉ token → KebabTokens token [token]
| KebabCons token rest tokens :
    IconPickerModal.hyphen ∉ token →
    KebabTokens rest tokens →
    KebabTokens (token ++ IconPickerModal.hyphen :: rest) (token :: tokens).

(** Words in a row, one space between neighbours. *)
Definition spaced (words : list jsstring) : jsstring :=
  match words with
  | [] => []
  | word :: others => word ++ mjoin ((λ w, 0x20 :: w) <$> others)
  end.

Section SearchWords.
Variable toLowerCase : jsstring → jsstring.
Variable toUpperCase : jsstring → jsstring.

(** The search term of the modal: what was typed, lower-cased and
    trimmed. *)
Definition searchTermOf (m : IconPickerModal.Modal) : jsstring :=
  IconPickerModal.trim (toLowerCase (IconPickerModal.searchValue m)).

(** A token in title case: its first code unit upper-cased, the others
    as they are. *)
Definition titleCased (token : jsstring) : jsstring :=
  toUpperCase (take 1 token) ++ drop 1 token.

(** The derived display name of an identifier: namespace prefix
    stripped, the kebab-case tokens title-cased and set apart by
    spaces. *)
Definition DisplayName (iconId name : jsstring) : Prop :=
  ∃ body tokens,
    StripsNamespace iconId body
    ∧ KebabTokens body tokens
    ∧ name = spaced (titleCased <$> tokens).

(** The raw identifier or the derived display name contains the term,
    case ignored. *)
Definition matchesTerm (term iconId : jsstring) : Prop :=
  occursIn term (toLowerCase iconId)
  ∨ ∃ name, DisplayName iconId name ∧ occursIn term (toLowerCase name).
End SearchWords.

(** Sample data: a modal that is open on the icons tab with [Fold]
    typed, over a small catalog. *)
Definition sampleCatalog : list jsstring :=
  [u16 "lucide-folder-open"; u16 "lucide-star"; u16 "lucide-scaffold";
   u16 "lucide-file"].

Definition sampleSearch : IconPickerModal.Modal :=
  {| IconPickerModal.itemPath := u16 "Projects";
     IconPickerModal.itemType := FOLDER;
     IconPickerModal.allIcons := sampleCatalog;
     IconPickerModal.recentlyUsedIcons := [];
     IconPickerModal.recentlyUsedEmojis := [];
     IconPickerModal.focusedIndex := -1;
     IconPickerModal.gridColumns := 5;
     IconPickerModal.activeTab := IconPickerModal.IconsTab;
     IconPickerModal.searchValue := u16 " Fold";
     IconPickerModal.resultsContainer := Some [];
     IconPickerModal.hasOnChooseIcon := true |}.

(** ** Further properties: words used below *)

(** A wikilink around a link path. *)
Definition wikilink (linkpath : jsstring) : jsstring :=
  u16 "[[" ++ linkpath ++ u16 "]]".

(** The emoji a call of [onSelectEmoji] carries. *)
Definition selectedEmoji (call : EmojiPicker.Selection) : jsstring :=
  match call with
  | EmojiPicker.Submitted e => e
  | EmojiPicker.Recent e => e
  end.

(** Settings that differ from [settingsOverrides] in the tag overrides
    only. *)
Definition settingsOtherTags : NotebookNavigatorSettings :=
  {| defaultFolderSort := ModifiedDesc;
     folderSortOverrides := Some {[ u16 "Projects" := CreatedAsc ]};
     tagSortOverrides := Some {[ u16 "todo" := CreatedDesc; u16 "later" := TitleDesc ]};
     showFeatureImage := false;
     featureImageProperties := [] |}.

(** A modal as the constructor leaves it, opened on the icons tab with
    nothing typed. *)
Definition sampleOpened : IconPickerModal.Modal :=
  {| IconPickerModal.itemPath := u16 "Projects";
     IconPickerModal.itemType := FOLDER;
     IconPickerModal.allIcons := sampleCatalog;
     IconPickerModal.recentlyUsedIcons := [u16 "lucide-star"];
     IconPickerModal.recentlyUsedEmojis := [[0x2600]];
     IconPickerModal.focusedIndex := -1;
     IconPickerModal.gridColumns := 5;
     IconPickerModal.activeTab := IconPickerModal.IconsTab;
     IconPickerModal.searchValue := [];
     IconPickerModal.resultsContainer := Some [];
     IconPickerModal.hasOnChooseIcon := true |}.

(** Frontmatter with string values only. *)
Definition stringCover : gmap jsstring JSValue :=
  {[ u16 "cover" := JString (u16 "missing.png");
     u16 "image" := JString (u16 "[[photo.png]]") ]}.

(** ** Sort options as the strings they are at run time *)

Definition sortOptionValue (o : SortOption) : jsstring :=
  match o with
  | ModifiedDesc => u16 "modified-desc"
  | ModifiedAsc => u16 "modified-asc"
  | CreatedDesc => u16 "created-desc"
  | CreatedAsc => u16 "created-asc"
  | TitleAsc => u16 "title-asc"
  | TitleDesc => u16 "title-desc"
  end.

(** The three helpers of [utils/sortUtils.ts] as they are written, on the
    string. *)
Module OnStrings.

Definition getSortIcon (sortOption : jsstring) : jsstring :=
  if endsWith sortOption (u16 "-desc") then u16 "sort-desc" else u16 "sort-asc".

Definition shouldShowDateGrouping (sortOption : jsstring) : bool :=
  negb (startsWith sortOption (u16 "title")).

Definition getDateField (sortOption : jsstring) : DateField :=
  if startsWith sortOption (u16 "created") then Created else Modified.

End OnStrings.

#[global] Instance inDeclaredOrder_dec
    (getFileTimestamp : TFile → DateField → NotebookNavigatorSettings → MetadataCache → Z)
    (localeCompare : jsstring → jsstring → Z)
    (settings : NotebookNavigatorSettings) (metadataCache : MetadataCache)
    (o : SortOption) (a b : TFile) :
  Decision (inDeclaredOrder getFileTimestamp localeCompare settings metadataCache o a b).
Proof. destruct o; unfold inDeclaredOrder, fieldLe; simpl; apply _. Defined.

(** ** The modal in use: events, timers and focus *)

Module PickerSession.

(** The modal with what lives outside its fields: whether it is open,
    [document.activeElement], the host's pending timeouts and mounted
    React roots, and whether its key handlers are attached. Timer ids are
    the host's, never zero. *)
Record Session : Type := {
  modal : IconPickerModal.Modal;
  isOpen : bool;
  focus : IconPickerModal.Focus;
  searchDebounceTimer : option nat;
  pendingTimers : list nat;
  nextTimerId : nat;
  keyHandlers : bool;
  reactRoot : bool;
  mountedRoots : nat
}.

Definition start (m : IconPickerModal.Modal) : Session :=
  {| modal := m; isOpen := false; focus := IconPickerModal.Elsewhere;
     searchDebounceTimer := None; pendingTimers := []; nextTimerId := 1;
     keyHandlers := false; reactRoot := false; mountedRoots := 0 |}.

Definition withModal (s : Session) (m : IconPickerModal.Modal)
    (f : IconPickerModal.Focus) : Session :=
  {| modal := m; isOpen := isOpen s; focus := f;
     searchDebounceTimer := searchDebounceTimer s;
     pendingTimers := pendingTimers s; nextTimerId := nextTimerId s;
     keyHandlers := keyHandlers s; reactRoot := reactRoot s;
     mountedRoots := mountedRoots s |}.

(** The modal with another tab, search text and container. *)
Definition withView (m : IconPickerModal.Modal) (tab : IconPickerModal.Tab)
    (value : jsstring) (container : option (list IconPickerModal.Node))
    : IconPickerModal.Modal :=
  {| IconPickerModal.itemPath := IconPickerModal.itemPath m;
     IconPickerModal.itemType := IconPickerModal.itemType m;
     IconPickerModal.allIcons := IconPickerModal.allIcons m;
     IconPickerModal.recentlyUsedIcons := IconPickerModal.recentlyUsedIcons m;
     IconPickerModal.recentlyUsedEmojis := IconPickerModal.recentlyUsedEmojis m;
     IconPickerModal.focusedIndex := IconPickerModal.focusedIndex m;
     IconPickerModal.gridColumns := IconPickerModal.gridColumns m;
     IconPickerModal.activeTab := tab;
     IconPickerModal.searchValue := value;
     IconPickerModal.resultsContainer := container;
     IconPickerModal.hasOnChooseIcon := IconPickerModal.hasOnChooseIcon m |}.

Inductive UIEvent : Type :=
| OpenModal
| CloseModal
| SearchInput (value : jsstring)
| TimerFires (id : nat)
| TabClick (tab : IconPickerModal.Tab)
| Keydown (key : IconPickerModal.Key)
| ItemClick (index : nat).

Section Handlers.
Variable toLowerCase : jsstring → jsstring.
Variable toUpperCase : jsstring → jsstring.
Variable strings : IconPickerModal.IconPickerStrings.

(** [updateResults] with its React root: an existing root is unmounted,
    the emojis tab mounts a new one, whose input takes the focus; the
    items that were in the container are gone, and the focus with them. *)
Definition updateResults (s : Session) : Session :=
  match IconPickerModal.resultsContainer (modal s) with
  | None => s
  | Some _ =>
      let roots := if reactRoot s then (mountedRoots s - 1)%nat else mountedRoots s in
      let onEmojis :=
        bool_decide (IconPickerModal.activeTab (modal s) = IconPickerModal.EmojisTab) in
      {| modal := IconPickerModal.updateResults toLowerCase toUpperCase strings (modal s);
         isOpen := isOpen s;
         focus := (if onEmojis then IconPickerModal.Elsewhere
                   else match focus s with
                        | IconPickerModal.OnIconItem _ => IconPickerModal.Elsewhere
                        | f => f
                        end);
         searchDebounceTimer := searchDebounceTimer s;
         pendingTimers := pendingTimers s;
         nextTimerId := nextTimerId s;
         keyHandlers := keyHandlers s;
         reactRoot := onEmojis;
         mountedRoots := if onEmojis then S roots else roots |}
  end.

(** [onOpen]: the tabs, the search field (empty, focused) and the
    container are created, the handlers attached, the results shown. *)
Definition onOpen (s : Session) : Session :=
  updateResults
    {| modal := withView (modal s) (IconPickerModal.activeTab (modal s)) [] (Some []);
       isOpen := true; focus := IconPickerModal.OnSearchInput;
       searchDebounceTimer := searchDebounceTimer s;
       pendingTimers := pendingTimers s; nextTimerId := nextTimerId s;
       keyHandlers := true; reactRoot := reactRoot s;
       mountedRoots := mountedRoots s |}.

(** [onClose]. *)
Definition onClose (s : Session) : Session :=
  {| modal := modal s; isOpen := false; focus := IconPickerModal.Elsewhere;
     searchDebounceTimer := None;
     pendingTimers :=
       match searchDebounceTimer s with
       | Some t => filter (λ id, id ≠ t) (pendingTimers s)
       | None => pendingTimers s
       end;
     nextTimerId := nextTimerId s;
     keyHandlers := false;
     reactRoot := false;
     mountedRoots := if reactRoot s then (mountedRoots s - 1)%nat else mountedRoots s |}.

(** The [input] listener of the search field: the pending timeout is
    cleared and a new one set. *)
Definition onSearchInput (s : Session) (value : jsstring) : Session :=
  {| modal := withView (modal s) (IconPickerModal.activeTab (modal s)) value
                (IconPickerModal.resultsContainer (modal s));
     isOpen := isOpen s; focus := focus s;
     searchDebounceTimer := Some (nextTimerId s);
     pendingTimers :=
       nextTimerId s ::
       match searchDebounceTimer s with
       | Some t => filter (λ id, id ≠ t) (pendingTimers s)
       | None => pendingTimers s
       end;
     nextTimerId := S (nextTimerId s);
     keyHandlers := keyHandlers s; reactRoot := reactRoot s;
     mountedRoots := mountedRoots s |}.

(** The callback of the timeout. *)
Definition onTimer (s : Session) (id : nat) : Session :=
  if bool_decide (id ∈ pendingTimers s) then
    updateResults
      {| modal := modal s; isOpen := isOpen s; focus := focus s;
         searchDebounceTimer := searchDebounceTimer s;
         pendingTimers := filter (λ t, t ≠ id) (pendingTimers s);
         nextTimerId := nextTimerId s;
         keyHandlers := keyHandlers s; reactRoot := reactRoot s;
         mountedRoots := mountedRoots s |}
  else s.

Definition switchTab (s : Session) (tab : IconPickerModal.Tab) : Session :=
  let s' :=
    updateResults
      (withModal s
         (withView (modal s) tab [] (IconPickerModal.resultsContainer (modal s)))
         (focus s)) in
  match tab with
  | IconPickerModal.IconsTab => withModal s' (modal s') IconPickerModal.OnSearchInput
  | IconPickerModal.EmojisTab => s'
  end.

Definition focusFirstIcon (s : Session) : Session :=
  match IconPickerModal.iconItems
          (default [] (IconPickerModal.resultsContainer (modal s))) with
  | _ :: _ =>
      withModal s (IconPickerModal.withFocusedIndex (modal s) 0)
        (IconPickerModal.OnIconItem 0)
  | [] => s
  end.

Definition searchInputKeydownHandler (s : Session) (key : IconPickerModal.Key) : Session :=
  match key with
  | IconPickerModal.KeyTab false => focusFirstIcon s
  | _ => s
  end.

Definition contentKeydown (s : Session) (key : IconPickerModal.Key)
    : Session * option jsstring :=
  let '(m, f, selected) := IconPickerModal.contentElKeydownHandler (modal s) (focus s) key in
  (withModal s m f, selected).

(** A keydown goes to the focused element and bubbles to the content
    element. *)
Definition keydown (s : Session) (key : IconPickerModal.Key) : Session * option jsstring :=
  match focus s with
  | IconPickerModal.OnSearchInput => contentKeydown (searchInputKeydownHandler s key) key
  | _ => contentKeydown s key
  end.

(** A click on the item at [index]: it takes the focus and is selected. *)
Definition itemClick (s : Session) (index : nat) : Session * option jsstring :=
  match IconPickerModal.iconItems
          (default [] (IconPickerModal.resultsContainer (modal s))) !! index with
  | Some item =>
      (withModal s (modal s) (IconPickerModal.OnIconItem (Z.of_nat index)),
       Some (IconPickerModal.dataIconId item))
  | None => (s, None)
  end.

(** One event: the session after it and the icon handed to
    [selectIcon], if any. Only an open modal has elements to act on; a
    timeout fires whenever it is pending. *)
Definition step (s : Session) (e : UIEvent) : Session * option jsstring :=
  match e with
  | OpenModal => if isOpen s then (s, None) else (onOpen s, None)
  | CloseModal => if isOpen s then (onClose s, None) else (s, None)
  | SearchInput value => if isOpen s then (onSearchInput s value, None) else (s, None)
  | TimerFires id => (onTimer s id, None)
  | TabClick tab => if isOpen s then (switchTab s tab, None) else (s, None)
  | Keydown key => if isOpen s && keyHandlers s then keydown s key else (s, None)
  | ItemClick index => if isOpen s then itemClick s index else (s, None)
  end.

Fixpoint run (s : Session) (es : list UIEvent) : Session * list jsstring :=
  match es with
  | [] => (s, [])
  | e :: es' =>
      let '(s1, selected) := step s e in
      let '(s2, more) := run s1 es' in
      (s2, match selected with Some i => i :: more | None => more end)
  end.
End Handlers.

(** What holds of a session at all times. *)
Record Invariant (s : Session) : Prop := {
  timers_recorded : ∀ id, id ∈ pendingTimers s → searchDebounceTimer s = Some id;
  timers_once : NoDup (pendingTimers s);
  roots_counted : mountedRoots s = if reactRoot s then 1%nat else 0%nat;
  closed_clean :
    isOpen s = false →
    pendingTimers s = [] ∧ reactRoot s = false ∧ keyHandlers s = false;
  open_container :
    isOpen s = true → is_Some (IconPickerModal.resultsContainer (modal s));
  focus_exists :
    ∀ i, focus s = IconPickerModal.OnIconItem i →
         0 ≤ i < Z.of_nat (length (IconPickerModal.iconItems
                                     (default [] (IconPickerModal.resultsContainer (modal s)))));
  tracked_exists :
    IconPickerModal.focusedIndex (modal s) = -1
    ∨ 0 ≤ IconPickerModal.focusedIndex (modal s)
      < Z.of_nat (length (IconPickerModal.iconItems
                            (default [] (IconPickerModal.resultsContainer (modal s)))));
  recent_in_catalog :
    IconPickerModal.recentlyUsedIcons (modal s) ⊆ IconPickerModal.allIcons (modal s);
  shown_in_catalog :
    IconPickerModal.displayedIcons (modal s) ⊆ IconPickerModal.allIcons (modal s)
}.

End PickerSession.

(** ** components/FileItem.tsx: what is rendered *)

Module FileItemView.

(** The settings the layout reads besides those of the sort resolver and
    the feature image. *)
Record DisplaySettings : Type := {
  core : NotebookNavigatorSettings;
  showDate : bool;
  showFilePreview : bool
}.

Definition isSlimMode (settings : DisplaySettings) : bool :=
  negb (showDate settings) && negb (showFilePreview settings)
  && negb (showFeatureImage (core settings)).

(** [featureImageUrl] as a condition: [null] and the empty string are
    falsy. *)
Definition hasUrl (featureImageUrl : option jsstring) : bool :=
  match featureImageUrl with
  | Some url => truthy (JString url)
  | None => false
  end.

Definition shouldShowFeatureImageArea (isImageFile : TFile → bool)
    (settings : DisplaySettings) (featureImageUrl : option jsstring) (file : TFile) : bool :=
  showFeatureImage (core settings)
  && (hasUrl featureImageUrl
      || (negb (bool_decide (extension file = u16 "md")) && negb (isImageFile file))).

(** The feature image area of the rendered item. *)
Inductive FeatureArea : Type :=
| NoArea
| ImageArea (src : jsstring)
| ExtensionBadge (text : jsstring).

Definition featureArea (isImageFile : TFile → bool) (settings : DisplaySettings)
    (featureImageUrl : option jsstring) (file : TFile) : FeatureArea :=
  if isSlimMode settings then NoArea
  else if shouldShowFeatureImageArea isImageFile settings featureImageUrl file then
    match featureImageUrl with
    | Some url => if truthy (JString url) then ImageArea url
                  else ExtensionBadge (u16 "." ++ extension file)
    | None => ExtensionBadge (u16 "." ++ extension file)
    end
  else NoArea.

(** The [className] template. *)
Definition className (props : FileItem.FileItemProps) (isSlim : bool) : jsstring :=
  u16 "nn-file-item "
  ++ (if FileItem.isSelected props then u16 "nn-selected" else [])
  ++ u16 " "
  ++ (if isSlim then u16 "nn-slim" else [])
  ++ u16 " "
  ++ (if FileItem.isSelected props
         && bool_decide (FileItem.hasSelectedAbove props = Some true)
      then u16 "nn-has-selected-above" else [])
  ++ u16 " "
  ++ (if FileItem.isSelected props
         && bool_decide (FileItem.hasSelectedBelow props = Some true)
      then u16 "nn-has-selected-below" else []).

(** The classes of a class attribute: its words. *)
Definition classList (attribute : jsstring) : list jsstring :=
  filter (λ word, word ≠ []) (IconPickerModal.splitOn 0x20 attribute).

End FileItemView.

(** Sample data: a PDF and settings with everything on. *)
Definition samplePdf : TFile :=
  {| path := u16 "Papers/thesis.pdf"; name := u16 "thesis.pdf";
     basename := u16 "thesis"; extension := u16 "pdf";
     stat := {| ctime := 1; mtime := 2; size := 3 |};
     parent := None |}.

Definition displayAll : FileItemView.DisplaySettings :=
  {| FileItemView.core := settingsCover;
     FileItemView.showDate := true;
     FileItemView.showFilePreview := true |}.

(** ** components/EmojiPicker.tsx: what is rendered *)

Module EmojiPickerView.

(** The [disabled] attribute of the submit button. *)
Definition submitDisabled (inputValue : jsstring) : bool :=
  negb (truthy (JString inputValue)) || negb (isEmoji (JString inputValue)).

(** Whether the validation message is rendered. *)
Definition errorShown (inputValue : jsstring) : bool :=
  truthy (JString inputValue) && negb (isEmoji (JString inputValue)).

(** The recently-used section is rendered for a non-empty list, one
    button per entry. *)
Definition recentButtons (recentlyUsedEmojis : list jsstring) : option (list jsstring) :=
  if (0 <? length recentlyUsedEmojis)%nat then Some recentlyUsedEmojis else None.

End EmojiPickerView.

(** Settings that read the feature image from the properties
    [constructor] and [image]. *)
Definition settingsInherited : NotebookNavigatorSettings :=
  {| defaultFolderSort := ModifiedDesc;
     folderSortOverrides := None;
     tagSortOverrides := None;
     showFeatureImage := true;
     featureImageProperties := [u16 "constructor"; u16 "image"] |}.

(** Case analysis on the integer comparisons of a goal, then on its
    decisions. *)
Ltac zbool :=
  rewrite ?Z.gtb_ltb, ?Z.geb_leb;
  repeat match goal with
         | |- context [?a <? ?b] => destruct (Z.ltb_spec a b)
         | |- context [?a <=? ?b] => destruct (Z.leb_spec a b)
         | |- context [?a =? ?b] => destruct (Z.eqb_spec a b)
         end;
  cbn [andb orb negb];
  repeat match goal with
         | |- context [decide ?P] => destruct (decide P)
         end;
  try lia; try reflexivity.

(** ** Properties *)

(** *** Strings *)

Lemma jsSlice_prefix (s : jsstring) (k : nat) :
  (k ≤ length s)%nat → jsSlice s 0 (Z.of_nat k) = take k s.
Proof.
  intros Hk. unfold jsSlice, sliceIndex.
  replace (0 <? 0) with false by reflexivity.
  destruct (Z.of_nat k <? 0) eqn:Hneg; [lia|].
  rewrite Z.min_l by lia. rewrite Z.min_l by lia.
  rewrite Z.sub_0_r, Nat2Z.id. reflexivity.
Qed.

(** Every element the string iterator yields is one code point. *)
Inductive OneCodePoint : jsstring → Prop :=
| OneUnit u : OneCodePoint [u]
| OnePair hi lo :
    isHighSurrogate hi && isLowSurrogate lo = true → OneCodePoint [hi; lo].

Lemma stringIterator_ind (P : jsstring → Prop) :
  P [] →
  (∀ u, P [u]) →
  (∀ hi lo rest, isHighSurrogate hi && isLowSurrogate lo = true →
     P rest → P (hi :: lo :: rest)) →
  (∀ u v rest, isHighSurrogate u && isLowSurrogate v = false →
     P (v :: rest) → P (u :: v :: rest)) →
  ∀ s, P s.
Proof.
  intros Hnil Hone Hpair Hunit s.
  remember (length s) as n eqn:Hn.
  assert (Hle : (length s ≤ n)%nat) by lia. clear Hn.
  revert s Hle. induction n as [|n IH]; intros s Hle.
  - destruct s; [apply Hnil | simpl in Hle; lia].
  - destruct s as [|u [|v rest]]; [apply Hnil | apply Hone |].
    simpl in Hle.
    destruct (isHighSurrogate u && isLowSurrogate v) eqn:E.
    + apply Hpair; [done|]. apply IH. lia.
    + apply Hunit; [done|]. apply IH. simpl. lia.
Qed.

Lemma stringIterator_elements (s c : jsstring) :
  c ∈ stringIterator s → OneCodePoint c.
Proof.
  revert c. induction s as [|u|hi lo rest E IH|u v rest E IH]
    using stringIterator_ind; intros c Hc; simpl in Hc.
  - by apply elem_of_nil in Hc.
  - apply list_elem_of_singleton in Hc as ->. constructor.
  - rewrite E in Hc. apply elem_of_cons in Hc as [->|Hc]; [by constructor|auto].
  - rewrite E in Hc. apply elem_of_cons in Hc as [->|Hc]; [constructor|auto].
Qed.

Lemma stringIterator_one (c : jsstring) :
  OneCodePoint c → stringIterator c = [c].
Proof. intros [u|hi lo E]; simpl; [done|by rewrite E]. Qed.

Lemma stringIterator_nonempty (s : jsstring) :
  s ≠ [] → stringIterator s ≠ [].
Proof.
  destruct s as [|u [|v rest]]; [done|done|]. intros _. simpl.
  by destruct (isHighSurrogate u && isLowSurrogate v).
Qed.

(** *** The emoji classifier *)

Lemma emojiClassMatch_ranges (cp : Z) :
  emojiClassMatch cp = true ↔ ∃ r, r ∈ emojiRanges ∧ r.1 ≤ cp ≤ r.2.
Proof.
  unfold emojiClassMatch. rewrite existsb_exists. split.
  - intros (r & Hin & Hr). exists r. rewrite list_elem_of_In. split; [done|].
    unfold inRange in Hr. lia.
  - intros (r & Hin & Hr). exists r. rewrite <- list_elem_of_In. split; [done|].
    unfold inRange. lia.
Qed.

(** The scan of the regular expression finds a match exactly when one of
    the code points of the string is in a class. *)
Lemma emojiRegexTest_code_points (s : jsstring) :
  emojiRegexTest s = true ↔
  ∃ c, c ∈ stringIterator s ∧ emojiClassMatch (codePointAt0 c) = true.
Proof.
  induction s as [|u|hi lo rest E IH|u v rest E IH] using stringIterator_ind.
  - simpl. split; [done|]. intros (c & Hc & _). by apply elem_of_nil in Hc.
  - simpl. split.
    + intros H. exists [u]. split; [apply list_elem_of_singleton; done|done].
    + intros (c & Hc & H). apply list_elem_of_singleton in Hc as ->. done.
  - change (emojiRegexTest (hi :: lo :: rest)) with
      (if isHighSurrogate hi && isLowSurrogate lo
       then emojiClassMatch (pairCodePoint hi lo) || emojiRegexTest rest
       else emojiClassMatch hi || emojiRegexTest (lo :: rest)).
    change (stringIterator (hi :: lo :: rest)) with
      (if isHighSurrogate hi && isLowSurrogate lo
       then [hi; lo] :: stringIterator rest
       else [hi] :: stringIterator (lo :: rest)).
    rewrite E, orb_true_iff, IH. split.
    + intros [H|(c & Hc & H)].
      * exists [hi; lo]. split; [left|done].
      * exists c. split; [by right|done].
    + intros (c & Hc & H). apply elem_of_cons in Hc as [->|Hc]; [by left|].
      right. by exists c.
  - change (emojiRegexTest (u :: v :: rest)) with
      (if isHighSurrogate u && isLowSurrogate v
       then emojiClassMatch (pairCodePoint u v) || emojiRegexTest rest
       else emojiClassMatch u || emojiRegexTest (v :: rest)).
    change (stringIterator (u :: v :: rest)) with
      (if isHighSurrogate u && isLowSurrogate v
       then [u; v] :: stringIterator rest
       else [u] :: stringIterator (v :: rest)).
    rewrite E, orb_true_iff, IH. split.
    + intros [H|(c & Hc & H)].
      * exists [u]. split; [left|done].
      * exists c. split; [by right|done].
    + intros (c & Hc & H). apply elem_of_cons in Hc as [->|Hc]; [by left|].
      right. by exists c.
Qed.

(** C7. The emoji classifier: [true] on the artist palette U+1F3A8
    (a surrogate pair), [false] on the letter [a], on the empty string
    and on every value that is not a string; and a string classifies as
    emoji exactly when one of its code points lies in one of the fixed
    code-point ranges. *)
Theorem isEmoji_classifier :
  isEmoji (JString [0xD83C; 0xDFA8]) = true
  ∧ isEmoji (JString (u16 "a")) = false
  ∧ isEmoji (JString []) = false
  ∧ (∀ v, match v with JString _ => True | _ => isEmoji v = false end)
  ∧ (∀ s, isEmoji (JString s) = true ↔
          ∃ c r, c ∈ stringIterator s ∧ r ∈ emojiRanges
                 ∧ r.1 ≤ codePointAt0 c ≤ r.2).
Proof.
  split; [reflexivity|]. split; [reflexivity|]. split; [reflexivity|].
  split; [by intros []|].
  intros s. destruct s as [|u s'].
  - simpl. split; [done|]. intros (c & r & Hc & _). by apply elem_of_nil in Hc.
  - change (isEmoji (JString (u :: s'))) with (emojiRegexTest (u :: s')).
    rewrite emojiRegexTest_code_points. split.
    + intros (c & Hc & H). apply emojiClassMatch_ranges in H as (r & Hr & Hb).
      by exists c, r.
    + intros (c & r & Hc & Hr & Hb). exists c. split; [done|].
      apply emojiClassMatch_ranges. by exists r.
Qed.

(** *** The emoji text field *)

Lemma handleInputChange_hd (value : jsstring) :
  EmojiPicker.handleInputChange value = hd [] (stringIterator value).
Proof.
  unfold EmojiPicker.handleInputChange.
  destruct value as [|u [|v rest]].
  - reflexivity.
  - reflexivity.
  - change (stringIterator (u :: v :: rest)) with
      (if isHighSurrogate u && isLowSurrogate v
       then [u; v] :: stringIterator rest
       else [u] :: stringIterator (v :: rest)).
    destruct (isHighSurrogate u && isLowSurrogate v); cbn [hd].
    + rewrite (jsSlice_prefix _ 2) by (simpl; lia). reflexivity.
    + rewrite (jsSlice_prefix _ 1) by (simpl; lia). reflexivity.
Qed.

Lemma handleInputChange_shape (value : jsstring) :
  EmojiPicker.handleInputChange value = [] ∨
  OneCodePoint (EmojiPicker.handleInputChange value).
Proof.
  rewrite handleInputChange_hd.
  destruct (stringIterator value) as [|c cs] eqn:E; [by left|right].
  simpl. apply (stringIterator_elements value). rewrite E. left.
Qed.

Lemma run_invariant (inputValue : jsstring) (es : list EmojiPicker.Event) :
  inputValue = [] ∨ OneCodePoint inputValue →
  Forall (λ call, match call with
                  | EmojiPicker.Submitted e =>
                      OneCodePoint e ∧ isEmoji (JString e) = true
                  | EmojiPicker.Recent _ => True
                  end) (EmojiPicker.run inputValue es).2.
Proof.
  revert inputValue. induction es as [|e es IH]; intros inputValue Hinv; simpl.
  - constructor.
  - assert (Hsubmit : Forall (λ call, match call with
                  | EmojiPicker.Submitted e =>
                      OneCodePoint e ∧ isEmoji (JString e) = true
                  | EmojiPicker.Recent _ => True
                  end) (EmojiPicker.handleSubmit inputValue)).
    { unfold EmojiPicker.handleSubmit.
      destruct (truthy (JString inputValue) && isEmoji (JString inputValue)) eqn:E;
        [|constructor].
      apply andb_true_iff in E as [Ht He]. repeat constructor; [|done].
      destruct Hinv as [->|H]; [done|done]. }
    destruct e as [value| |key|emoji]; simpl.
    + specialize (IH (EmojiPicker.handleInputChange value)
                     (handleInputChange_shape value)).
      destruct (EmojiPicker.run _ es). done.
    + specialize (IH inputValue Hinv).
      destruct (EmojiPicker.run _ es). simpl in *. by apply Forall_app.
    + specialize (IH inputValue Hinv).
      destruct (EmojiPicker.run _ es). simpl in *. apply Forall_app. split; [|done].
      case_bool_decide; [done|constructor].
    + specialize (IH inputValue Hinv).
      destruct (EmojiPicker.run _ es). simpl in *. by constructor.
Qed.

(** C10. The input handler keeps the first code point of what was typed
    or pasted and nothing after it (so at most one code point, of a flag
    sequence only its first regional indicator); hence in every run of
    the component from its initial state an emoji submitted through the
    text field is exactly one code point, and [handleSubmit] calls the
    selection callback exactly when the retained value is non-empty and
    classifies as emoji. *)
Theorem emoji_input_one_code_point :
  (∀ value, EmojiPicker.handleInputChange value = hd [] (stringIterator value))
  ∧ (∀ value, (length (stringIterator (EmojiPicker.handleInputChange value)) ≤ 1)%nat)
  ∧ EmojiPicker.handleInputChange [0xD83C; 0xDDFA; 0xD83C; 0xDDF8] = [0xD83C; 0xDDFA]
  ∧ (∀ es, Forall (λ call, match call with
                           | EmojiPicker.Submitted e =>
                               stringIterator e = [e]
                               ∧ isEmoji (JString e) = true
                           | EmojiPicker.Recent _ => True
                           end)
                  (EmojiPicker.run EmojiPicker.initialInputValue es).2)
  ∧ (∀ inputValue,
       EmojiPicker.handleSubmit inputValue =
       if bool_decide (inputValue ≠ [] ∧ isEmoji (JString inputValue) = true)
       then [EmojiPicker.Submitted inputValue] else []).
Proof.
  split; [apply handleInputChange_hd|].
  split.
  { intros value. destruct (handleInputChange_shape value) as [->|H]; [simpl; lia|].
    rewrite (stringIterator_one _ H). simpl. lia. }
  split; [reflexivity|].
  split.
  { intros es. eapply Forall_impl; [apply run_invariant; by left|].
    intros [e|e]; [|done]. intros [H1 H2]. split; [|done].
    by apply stringIterator_one. }
  intros inputValue. unfold EmojiPicker.handleSubmit.
  destruct inputValue as [|u s]; [reflexivity|].
  change (truthy (JString (u :: s))) with true. rewrite andb_true_l.
  destruct (isEmoji (JString (u :: s))) eqn:E.
  - rewrite bool_decide_eq_true_2; [done|]. by split.
  - rewrite bool_decide_eq_false_2; [done|]. intros [_ H]. done.
Qed.

(** A run that calls the callback: paste the palette followed by text,
    press Enter. *)
Example emoji_input_run :
  EmojiPicker.run EmojiPicker.initialInputValue
    [EmojiPicker.InputChange ([0xD83C; 0xDFA8] ++ u16 "xyz");
     EmojiPicker.KeyPress EmojiPicker.keyEnter]
  = ([0xD83C; 0xDFA8], [EmojiPicker.Submitted [0xD83C; 0xDFA8]]).
Proof. reflexivity. Qed.

(** *** The recently-used lists of the modal *)

(** C6. The constructor splits the recently-used list in two: the emoji
    list holds exactly the entries that classify as emoji, the icon list
    exactly the other entries that the icon catalog still has; both keep
    the order of the list, no entry is in both, and an entry that is
    neither an emoji nor in the catalog is in neither list (construction
    itself cannot fail). A list left out counts as empty. *)
Theorem constructor_splits_recent (getIconIds : list jsstring)
    (itemPath : jsstring) (recent : list jsstring) (itemType : option ItemType) :
  let m := IconPickerModal.constructor getIconIds itemPath (Some recent) itemType in
  (∀ x, x ∈ IconPickerModal.recentlyUsedEmojis m ↔
        x ∈ recent ∧ isEmoji (JString x) = true)
  ∧ (∀ x, x ∈ IconPickerModal.recentlyUsedIcons m ↔
          x ∈ recent ∧ isEmoji (JString x) = false ∧ x ∈ getIconIds)
  ∧ IconPickerModal.recentlyUsedEmojis m `sublist_of` recent
  ∧ IconPickerModal.recentlyUsedIcons m `sublist_of` recent
  ∧ (∀ x, ¬ (x ∈ IconPickerModal.recentlyUsedIcons m
             ∧ x ∈ IconPickerModal.recentlyUsedEmojis m))
  ∧ (∀ x, isEmoji (JString x) = false → x ∉ getIconIds →
          (x ∉ IconPickerModal.recentlyUsedIcons m)
          ∧ (x ∉ IconPickerModal.recentlyUsedEmojis m))
  ∧ IconPickerModal.allIcons m = getIconIds
  ∧ IconPickerModal.recentlyUsedIcons
      (IconPickerModal.constructor getIconIds itemPath None itemType) = []
  ∧ IconPickerModal.recentlyUsedEmojis
      (IconPickerModal.constructor getIconIds itemPath None itemType) = [].
Proof.
  cbn -[isEmoji].
  assert (Hemo : ∀ x, x ∈ filter (λ item, isEmoji (JString item) = true) recent ↔
                      x ∈ recent ∧ isEmoji (JString x) = true).
  { intros x. rewrite list_elem_of_filter. tauto. }
  assert (Hico : ∀ x,
    x ∈ filter (λ item, negb (isEmoji (JString item))
                        && bool_decide (item ∈ getIconIds) = true) recent ↔
    x ∈ recent ∧ isEmoji (JString x) = false ∧ x ∈ getIconIds).
  { intros x. rewrite list_elem_of_filter, andb_true_iff, negb_true_iff,
      bool_decide_eq_true. tauto. }
  split; [exact Hemo|]. split; [exact Hico|].
  split; [apply sublist_filter|]. split; [apply sublist_filter|].
  split.
  { intros x [H1 H2]. apply Hico in H1 as (_ & H1 & _).
    apply Hemo in H2 as (_ & H2). rewrite H1 in H2. discriminate. }
  split.
  { intros x Hx Hnot. split.
    - intros H. apply Hico in H as (_ & _ & H). done.
    - intros H. apply Hemo in H as (_ & H). rewrite Hx in H. discriminate. }
  done.
Qed.

(** Two emojis, a catalog icon and an icon the catalog no longer has. *)
Example constructor_splits_recent_example :
  let m := IconPickerModal.constructor [u16 "lucide-star"; u16 "lucide-folder"]
             (u16 "Projects")
             (Some [[0xD83C; 0xDFA8]; u16 "lucide-folder"; u16 "lucide-gone"; [0x2600]])
             None in
  IconPickerModal.recentlyUsedIcons m = [u16 "lucide-folder"]
  ∧ IconPickerModal.recentlyUsedEmojis m = [[0xD83C; 0xDFA8]; [0x2600]].
Proof. split; reflexivity. Qed.

(** *** Grid navigation *)

Lemma gridStep_guard (cols n i : Z) (key : IconPickerModal.Key) :
  IconPickerModal.gridStep cols n i key =
  if decide (0 ≤ IconPickerModal.arrowTarget cols n i key < n)
  then IconPickerModal.arrowTarget cols n i key else i.
Proof.
  unfold IconPickerModal.gridStep.
  generalize (IconPickerModal.arrowTarget cols n i key). intros j. zbool.
Qed.

Lemma gridStep_bounds (cols n i : Z) (key : IconPickerModal.Key) :
  0 ≤ i < n → 0 ≤ IconPickerModal.gridStep cols n i key < n.
Proof. intros Hi. rewrite gridStep_guard. by case_decide. Qed.

(** C5. In a grid of [n] items in [cols] columns, from a focus index
    within [0, n), every key leaves the focus within [0, n); left and
    right move by one cell inside the row, up and down by one full row in
    the same column, without wrap-around; a step whose target is outside
    the items leaves the focus where it is. With 5 columns and 12 items:
    down from 0 is 5, down from 5 is 10, down from 10 stays at 10. *)
Theorem grid_navigation (cols n i : Z) (key : IconPickerModal.Key) :
  0 < cols → 0 ≤ i < n →
  let step := IconPickerModal.gridStep cols n in
  0 ≤ step i key < n
  ∧ step i IconPickerModal.ArrowLeft = (if decide (0 < i mod cols) then i - 1 else i)
  ∧ step i IconPickerModal.ArrowRight =
      (if decide (i mod cols < cols - 1 ∧ i + 1 < n) then i + 1 else i)
  ∧ step i IconPickerModal.ArrowUp = (if decide (0 ≤ i - cols) then i - cols else i)
  ∧ step i IconPickerModal.ArrowDown = (if decide (i + cols < n) then i + cols else i)
  ∧ step i IconPickerModal.ArrowLeft / cols = i / cols
  ∧ step i IconPickerModal.ArrowRight / cols = i / cols
  ∧ step i IconPickerModal.ArrowUp mod cols = i mod cols
  ∧ step i IconPickerModal.ArrowDown mod cols = i mod cols
  ∧ (¬ 0 ≤ i - 1 < n → step i IconPickerModal.ArrowLeft = i)
  ∧ (¬ 0 ≤ i + 1 < n → step i IconPickerModal.ArrowRight = i)
  ∧ (¬ 0 ≤ i - cols < n → step i IconPickerModal.ArrowUp = i)
  ∧ (¬ 0 ≤ i + cols < n → step i IconPickerModal.ArrowDown = i)
  ∧ IconPickerModal.gridStep 5 12 0 IconPickerModal.ArrowDown = 5
  ∧ IconPickerModal.gridStep 5 12 5 IconPickerModal.ArrowDown = 10
  ∧ IconPickerModal.gridStep 5 12 10 IconPickerModal.ArrowDown = 10.
Proof.
  intros Hcols Hi step. subst step.
  split; [by apply gridStep_bounds|].
  assert (Hrem : Z.rem i cols = i mod cols) by (apply Z.rem_mod_nonneg; lia).
  assert (Hmod : 0 ≤ i mod cols < cols) by (apply Z.mod_pos_bound; lia).
  assert (Hdiv : i = cols * (i / cols) + i mod cols) by (apply Z.div_mod; lia).
  assert (Hmodle : i mod cols ≤ i) by (apply Z.mod_le; lia).
  assert (Hleft : IconPickerModal.gridStep cols n i IconPickerModal.ArrowLeft =
                  (if decide (0 < i mod cols) then i - 1 else i)).
  { rewrite gridStep_guard. unfold IconPickerModal.arrowTarget. rewrite Hrem. zbool. }
  assert (Hright : IconPickerModal.gridStep cols n i IconPickerModal.ArrowRight =
                   (if decide (i mod cols < cols - 1 ∧ i + 1 < n) then i + 1 else i)).
  { rewrite gridStep_guard. unfold IconPickerModal.arrowTarget. rewrite Hrem. zbool. }
  assert (Hup : IconPickerModal.gridStep cols n i IconPickerModal.ArrowUp =
                (if decide (0 ≤ i - cols) then i - cols else i)).
  { rewrite gridStep_guard. unfold IconPickerModal.arrowTarget. zbool. }
  assert (Hdown : IconPickerModal.gridStep cols n i IconPickerModal.ArrowDown =
                  (if decide (i + cols < n) then i + cols else i)).
  { rewrite gridStep_guard. unfold IconPickerModal.arrowTarget. zbool. }
  rewrite Hleft, Hright, Hup, Hdown. clear Hleft Hright Hup Hdown.
  repeat split; try reflexivity.
  - destruct (decide _) as [Hd|Hd]; [|done].
    symmetry. apply (Z.div_unique_pos (i - 1) cols (i / cols) (i mod cols - 1)); lia.
  - destruct (decide _) as [Hd|Hd]; [|done].
    symmetry. apply (Z.div_unique_pos (i + 1) cols (i / cols) (i mod cols + 1)); lia.
  - destruct (decide _) as [Hd|Hd]; [|done].
    replace (i - cols) with (i + (-1) * cols) by lia. apply Z.mod_add. lia.
  - destruct (decide _) as [Hd|Hd]; [|done].
    replace (i + cols) with (i + 1 * cols) by lia. apply Z.mod_add. lia.
  - intros H. destruct (decide _) as [Hd|Hd]; [lia|done].
  - intros H. destruct (decide _) as [Hd|Hd]; [lia|done].
  - intros H. destruct (decide _) as [Hd|Hd]; [lia|done].
  - intros H. destruct (decide _) as [Hd|Hd]; [lia|done].
Qed.

(** The grid of the modal: 5 columns, 12 items, down from index 5. *)
Lemma grid_navigation_witness :
  0 < 5 ∧ 0 ≤ 5 < 12
  ∧ 0 ≤ IconPickerModal.gridStep 5 12 5 IconPickerModal.ArrowDown < 12.
Proof.
  split; [lia|]. split; [lia|].
  exact (proj1 (grid_navigation 5 12 5 IconPickerModal.ArrowDown
                  ltac:(lia) ltac:(lia))).
Defined.

(** *** The memo comparator *)

Lemma rerenders_iff (prevProps nextProps : FileItem.FileItemProps) :
  FileItem.rerenders prevProps nextProps = true ↔
  listedChange prevProps nextProps
  ∨ FileItem.parentFolder prevProps ≠ FileItem.parentFolder nextProps.
Proof.
  unfold FileItem.rerenders, FileItem.propsAreEqual, listedChange.
  rewrite negb_true_iff, !andb_false_iff, !bool_decide_eq_false. tauto.
Qed.

(** C8 as stated fails: props that differ in the parent folder only,
    which is none of the listed inputs, make the item re-render. *)
Lemma memo_parentFolder_counterexample :
  ¬ (∀ prevProps nextProps,
       FileItem.rerenders prevProps nextProps = true ↔
       listedChange prevProps nextProps).
Proof.
  intros H.
  destruct (H (propsIn (IsValue (u16 "Projects"))) (propsIn (IsValue (u16 "Archive"))))
    as [Hchange _].
  specialize (Hchange eq_refl). unfold listedChange in Hchange. simpl in Hchange.
  destruct Hchange as [?|[?|[?|[?|[?|[?|[?|[?|?]]]]]]]]; done.
Qed.

(** C8, amended. The memoized item re-renders exactly when one of these
    differs between the previous and the next props: file path, file
    name, file modification time, a selection flag, the date-group key,
    the click handler, the formatted date, or the parent folder; a change
    of anything else (creation time, size, extension, ...) is ignored. *)
Theorem memo_rerender_iff (prevProps nextProps : FileItem.FileItemProps) :
  FileItem.rerenders prevProps nextProps = true ↔
  path (FileItem.file prevProps) ≠ path (FileItem.file nextProps)
  ∨ name (FileItem.file prevProps) ≠ name (FileItem.file nextProps)
  ∨ mtime (stat (FileItem.file prevProps)) ≠ mtime (stat (FileItem.file nextProps))
  ∨ FileItem.isSelected prevProps ≠ FileItem.isSelected nextProps
  ∨ FileItem.hasSelectedAbove prevProps ≠ FileItem.hasSelectedAbove nextProps
  ∨ FileItem.hasSelectedBelow prevProps ≠ FileItem.hasSelectedBelow nextProps
  ∨ FileItem.dateGroup prevProps ≠ FileItem.dateGroup nextProps
  ∨ FileItem.onClick prevProps ≠ FileItem.onClick nextProps
  ∨ FileItem.formattedDate prevProps ≠ FileItem.formattedDate nextProps
  ∨ FileItem.parentFolder prevProps ≠ FileItem.parentFolder nextProps.
Proof. rewrite rerenders_iff. unfold listedChange. tauto. Qed.

(** *** The sort resolver *)









(** It fails as well for a folder or a tag that bears the name of a
    member of [Object.prototype] and has no override: the specification
    asks for the global default, the resolver returns the inherited
    member, which is no sort option at all. *)
Example effective_sort_inherited_member :
  getEffectiveSortOption settingsOverrides FOLDER (Some folderConstructor) None
  = InheritedMember (u16 "constructor")
  ∧ getEffectiveSortOption settingsOverrides TAG None (Some tagToString)
    = InheritedMember (u16 "toString")
  ∧ ResolvesTo isFolderOverride isTagOverride settingsOverrides FOLDER
      (Some folderConstructor) None (IsOption ModifiedDesc)
  ∧ ResolvesTo isFolderOverride isTagOverride settingsOverrides TAG
      None (Some tagToString) (IsOption ModifiedDesc).
Proof.
  split; [by vm_compute|]. split; [by vm_compute|].
  split.
  - apply (ResolvesDefault isFolderOverride isTagOverride settingsOverrides).
    + intros v' (_ & f & [= <-] & m & o & [= <-] & Hm & _).
      by vm_compute in Hm.
    + intros v' (Hty & _). done.
  - apply (ResolvesDefault isFolderOverride isTagOverride settingsOverrides).
    + intros v' (Hty & _). done.
    + intros v' (_ & t & [= <-] & m & o & [= <-] & Hm & _).
      by vm_compute in Hm.
Qed.



(** Folder override over the default, tag override over the default, and
    the default when neither is there. *)
Example effective_sort_examples :
  let projects := {| folderPath := u16 "Projects"; folderName := u16 "Projects" |} in
  let inbox := {| folderPath := u16 "Inbox"; folderName := u16 "Inbox" |} in
  getEffectiveSortOption settingsOverrides FOLDER (Some projects) None = CreatedAsc
  ∧ getEffectiveSortOption settingsOverrides TAG (Some projects) (Some (u16 "todo")) = TitleAsc
  ∧ getEffectiveSortOption settingsOverrides FOLDER (Some inbox) (Some (u16 "todo")) = ModifiedDesc
  ∧ getEffectiveSortOption settingsOverrides TAG None (Some (u16 "later")) = ModifiedDesc.
Proof. repeat split; vm_compute; reflexivity. Qed.

(** *** Sorting *)

Section ArraySortFacts.
Context {A : Type} (cmp : A → A → Z).

Lemma sortInsert_Permutation (x : A) (l : list A) :
  sortInsert cmp x l ≡ₚ x :: l.
Proof.
  induction l as [|y l IH]; simpl; [done|].
  destruct (cmp x y <=? 0); [done|].
  rewrite IH. apply Permutation_swap.
Qed.

Lemma arraySort_Permutation (l : list A) : arraySort cmp l ≡ₚ l.
Proof.
  induction l as [|x l IH]; simpl; [done|].
  rewrite sortInsert_Permutation. by rewrite IH.
Qed.

Hypothesis cmp_total : ∀ a b, 0 < cmp a b → cmp b a ≤ 0.
Hypothesis cmp_trans : ∀ a b c, cmp a b ≤ 0 → cmp b c ≤ 0 → cmp a c ≤ 0.

Lemma sortInsert_StronglySorted (x : A) (l : list A) :
  StronglySorted (λ a b, cmp a b ≤ 0) l →
  StronglySorted (λ a b, cmp a b ≤ 0) (sortInsert cmp x l).
Proof.
  induction 1 as [|y l Hl IH Hy]; simpl.
  - repeat constructor.
  - destruct (Z.leb_spec (cmp x y) 0) as [Hxy|Hxy].
    + constructor; [by constructor|].
      constructor; [done|].
      eapply Forall_impl; [exact Hy|]. intros z Hz. by eapply cmp_trans.
    + constructor; [done|].
      rewrite sortInsert_Permutation. constructor; [|done].
      by apply cmp_total.
Qed.

Lemma arraySort_StronglySorted (l : list A) :
  StronglySorted (λ a b, cmp a b ≤ 0) (arraySort cmp l).
Proof.
  induction l as [|x l IH]; simpl; [constructor|].
  by apply sortInsert_StronglySorted.
Qed.
End ArraySortFacts.

Lemma StronglySorted_impl {A : Type} (R1 R2 : relation A) (l : list A) :
  (∀ a b, R1 a b → R2 a b) → StronglySorted R1 l → StronglySorted R2 l.
Proof.
  intros HR. induction 1 as [|x l Hl IH Hx]; constructor; [done|].
  eapply Forall_impl; [exact Hx|]. intros y. apply HR.
Qed.

Lemma StronglySorted_reverse {A : Type} (R : relation A) (l : list A) :
  StronglySorted R l → StronglySorted (flip R) (reverse l).
Proof.
  induction 1 as [|x l Hl IH Hx]; [constructor|].
  rewrite reverse_cons. apply StronglySorted_app.
  split; [|split; [done|repeat constructor]].
  intros y z Hy Hz. apply list_elem_of_singleton in Hz as ->.
  rewrite elem_of_reverse in Hy. unfold flip.
  eapply Forall_forall in Hx; [exact Hx|done].
Qed.

Lemma codeUnitCompare_consistent : consistentCompare codeUnitCompare.
Proof.
  split.
  - intros a. induction a as [|x a IH]; intros [|y b]; simpl; try lia.
    specialize (IH b). zbool.
  - intros a. induction a as [|x a IH]; intros [|y b] [|z c]; simpl; try lia.
    specialize (IH b c). zbool.
Qed.

Section SortFilesFacts.
Variable getFileTimestamp :
  TFile → DateField → NotebookNavigatorSettings → MetadataCache → Z.
Variable localeCompare : jsstring → jsstring → Z.
Variable settings : NotebookNavigatorSettings.
Variable metadataCache : MetadataCache.
Hypothesis localeCompare_consistent : consistentCompare localeCompare.

Local Abbreviation sorted := (sortFiles getFileTimestamp localeCompare).
Local Abbreviation before := (inDeclaredOrder getFileTimestamp localeCompare settings metadataCache).
Local Abbreviation cmpOf := (comparefn getFileTimestamp localeCompare settings metadataCache).

Lemma sortFiles_comparefn (files : list TFile) (o : SortOption) :
  sorted files o settings metadataCache = arraySort (cmpOf o) files.
Proof. by destruct o. Qed.

Lemma comparefn_declared (o : SortOption) (a b : TFile) :
  cmpOf o a b ≤ 0 ↔ before o a b.
Proof. destruct o; unfold inDeclaredOrder; simpl; lia. Qed.

Lemma comparefn_total (o : SortOption) (a b : TFile) :
  0 < cmpOf o a b → cmpOf o b a ≤ 0.
Proof.
  destruct localeCompare_consistent as [Htot _].
  destruct o; simpl; try lia; apply Htot.
Qed.

Lemma comparefn_trans (o : SortOption) (a b c : TFile) :
  cmpOf o a b ≤ 0 → cmpOf o b c ≤ 0 → cmpOf o a c ≤ 0.
Proof.
  destruct localeCompare_consistent as [_ Htr].
  destruct o; simpl; try lia.
  - apply Htr.
  - intros H1 H2. by eapply Htr.
Qed.

Lemma inDeclaredOrder_trans (o : SortOption) : Transitive (before o).
Proof.
  intros a b c. rewrite <- !comparefn_declared. apply comparefn_trans.
Qed.

Lemma sortFiles_Permutation (files : list TFile) (o : SortOption) :
  sorted files o settings metadataCache ≡ₚ files.
Proof. rewrite sortFiles_comparefn. apply arraySort_Permutation. Qed.

Lemma sortFiles_StronglySorted (files : list TFile) (o : SortOption) :
  StronglySorted (before o) (sorted files o settings metadataCache).
Proof.
  rewrite sortFiles_comparefn.
  apply (StronglySorted_impl (λ a b, cmpOf o a b ≤ 0)).
  - intros a b. apply comparefn_declared.
  - apply arraySort_StronglySorted; [apply comparefn_total|apply comparefn_trans].
Qed.

Lemma descending_flip (f : SortField) (a b : TFile) :
  before (sortOptionOf f Descending) a b ↔ before (sortOptionOf f Ascending) b a.
Proof. by destruct f. Qed.

Lemma ascending_fieldLe (f : SortField) (a b : TFile) :
  before (sortOptionOf f Ascending) a b
  ↔ fieldLe getFileTimestamp localeCompare settings metadataCache f a b.
Proof. by destruct f. Qed.

Lemma sortFiles_reverse (f : SortField) (files : list TFile) :
  noTies getFileTimestamp localeCompare settings metadataCache f files →
  sorted files (sortOptionOf f Descending) settings metadataCache
  = reverse (sorted files (sortOptionOf f Ascending) settings metadataCache).
Proof.
  intros Hties.
  apply (StronglySorted_unique_strong (before (sortOptionOf f Descending))).
  - intros x1 x2 Hx1 Hx2 H12 H21.
    rewrite sortFiles_Permutation in Hx1.
    rewrite reverse_Permutation, sortFiles_Permutation in Hx2.
    apply list_elem_of_lookup in Hx1 as [i Hi].
    apply list_elem_of_lookup in Hx2 as [j Hj].
    destruct (decide (i = j)) as [->|Hne]; [congruence|].
    exfalso. apply (Hties i j x1 x2 Hi Hj Hne).
    rewrite descending_flip, ascending_fieldLe in H12, H21. done.
  - apply sortFiles_StronglySorted.
  - apply (StronglySorted_impl (flip (before (sortOptionOf f Ascending)))).
    + intros a b. unfold flip. by rewrite descending_flip.
    + apply StronglySorted_reverse, sortFiles_StronglySorted.
  - by rewrite reverse_Permutation, !sortFiles_Permutation.
Qed.
End SortFilesFacts.

(** C2 as stated fails: two notes with the same modification time come
    out in the same order under [modified-asc] and [modified-desc], not
    in reversed orders. *)
Lemma sort_reversal_ties_counterexample :
  ¬ (∀ (f : SortField) (files : list TFile),
       sortFiles statTimestamp codeUnitCompare files (sortOptionOf f Descending)
         settingsOverrides emptyCache
       = reverse (sortFiles statTimestamp codeUnitCompare files
                    (sortOptionOf f Ascending) settingsOverrides emptyCache)).
Proof.
  intros H. specialize (H ByModified [noteAt "a" 7; noteAt "b" 7]).
  vm_compute in H. discriminate H.
Qed.

(** C2, amended. For a consistent collation and every file list, each of
    the six options leaves the same files, ordered by its declared
    (field, direction) pair; and for each of the three fields, on a list
    in which no two files tie on that field, the descending output is
    exactly the ascending output reversed. *)
Theorem sort_files_order
    (getFileTimestamp : TFile → DateField → NotebookNavigatorSettings → MetadataCache → Z)
    (localeCompare : jsstring → jsstring → Z)
    (settings : NotebookNavigatorSettings) (metadataCache : MetadataCache)
    (files : list TFile) :
  consistentCompare localeCompare →
  (∀ o, sortFiles getFileTimestamp localeCompare files o settings metadataCache ≡ₚ files
        ∧ StronglySorted
            (inDeclaredOrder getFileTimestamp localeCompare settings metadataCache o)
            (sortFiles getFileTimestamp localeCompare files o settings metadataCache))
  ∧ (∀ f, noTies getFileTimestamp localeCompare settings metadataCache f files →
          sortFiles getFileTimestamp localeCompare files (sortOptionOf f Descending)
            settings metadataCache
          = reverse (sortFiles getFileTimestamp localeCompare files
                       (sortOptionOf f Ascending) settings metadataCache)).
Proof.
  intros Hlc. split.
  - intros o. split; [apply sortFiles_Permutation|by apply sortFiles_StronglySorted].
  - intros f. by apply sortFiles_reverse.
Qed.

(** Modification times 3, 1, 2: ascending gives 1, 2, 3 and descending
    3, 2, 1; and titles in both directions. *)
Example sort_files_example :
  let files := [noteAt "c" 3; noteAt "a" 1; noteAt "b" 2] in
  let run o := sortFiles statTimestamp codeUnitCompare files o settingsOverrides emptyCache in
  run ModifiedAsc = [noteAt "a" 1; noteAt "b" 2; noteAt "c" 3]
  ∧ run ModifiedDesc = [noteAt "c" 3; noteAt "b" 2; noteAt "a" 1]
  ∧ run TitleAsc = [noteAt "a" 1; noteAt "b" 2; noteAt "c" 3]
  ∧ run TitleDesc = [noteAt "c" 3; noteAt "b" 2; noteAt "a" 1].
Proof. repeat split; vm_compute; reflexivity. Qed.

Lemma sort_files_order_witness :
  let files := [noteAt "c" 3; noteAt "a" 1; noteAt "b" 2] in
  consistentCompare codeUnitCompare
  ∧ noTies statTimestamp codeUnitCompare settingsOverrides emptyCache ByModified files
  ∧ sortFiles statTimestamp codeUnitCompare files ModifiedDesc settingsOverrides emptyCache
    = reverse (sortFiles statTimestamp codeUnitCompare files ModifiedAsc
                 settingsOverrides emptyCache).
Proof.
  intros files.
  assert (Hties : noTies statTimestamp codeUnitCompare settingsOverrides emptyCache
                    ByModified files).
  { intros i j a b Hi Hj Hne [H1 H2].
    destruct i as [|[|[|i]]]; destruct j as [|[|[|j]]];
      simpl in Hi, Hj; try done; simplify_eq; simpl in *; lia. }
  split; [exact codeUnitCompare_consistent|]. split; [exact Hties|].
  exact (proj2 (sort_files_order statTimestamp codeUnitCompare settingsOverrides
                  emptyCache files codeUnitCompare_consistent) ByModified Hties).
Defined.

(** *** Selecting an icon *)

Lemma selectIcon_run (m : IconPickerModal.Modal) (iconId : jsstring)
    (service : IconPickerModal.Effect → IconPickerModal.Outcome) :
  IconPickerModal.observe service (IconPickerModal.selectIcon m iconId) =
  IconPickerModal.Invoked (assignmentCall m iconId)
  :: IconPickerModal.Settled (assignmentCall m iconId) (service (assignmentCall m iconId))
  :: match service (assignmentCall m iconId) with
     | IconPickerModal.Fulfilled =>
         (if IconPickerModal.hasOnChooseIcon m
          then [IconPickerModal.Invoked (IconPickerModal.OnChooseIcon iconId)]
          else [])
         ++ [IconPickerModal.Invoked IconPickerModal.Close]
     | IconPickerModal.Rejected => []
     end.
Proof.
  unfold IconPickerModal.selectIcon, assignmentCall. simpl.
  assert (Hcall : (if bool_decide (IconPickerModal.itemType m = TAG)
                   then IconPickerModal.SetTagIcon (IconPickerModal.itemPath m) iconId
                   else IconPickerModal.SetFolderIcon (IconPickerModal.itemPath m) iconId)
                  = match IconPickerModal.itemType m with
                    | TAG => IconPickerModal.SetTagIcon (IconPickerModal.itemPath m) iconId
                    | _ => IconPickerModal.SetFolderIcon (IconPickerModal.itemPath m) iconId
                    end).
  { by destruct (IconPickerModal.itemType m). }
  rewrite Hcall.
  destruct (service _); [|done].
  by destruct (IconPickerModal.hasOnChooseIcon m).
Qed.

(** C9 as stated fails: the specification has the modal closed after
    the assignment resolves or rejects. When the assignment of a tag
    icon is rejected, the awaiting [selectIcon] rethrows and the run ends
    with the settlement: the modal is not closed at all. *)
Lemma select_icon_rejected_counterexample :
  let m := IconPickerModal.constructor [] (u16 "todo") None (Some TAG) in
  let run := IconPickerModal.observe rejectingService
               (IconPickerModal.selectIcon m [0x2600]) in
  run = [IconPickerModal.Invoked (assignmentCall m [0x2600]);
         IconPickerModal.Settled (assignmentCall m [0x2600]) IconPickerModal.Rejected]
  ∧ ¬ closesAfterSettlement (assignmentCall m [0x2600]) run.
Proof.
  intros m run. split; [reflexivity|].
  intros (i & j & outcome & _ & Hclose & _).
  destruct j as [|[|j]]; discriminate Hclose.
Qed.

(** C9, amended. Whatever is selected (an icon or an emoji, so from
    either tab), [selectIcon] first calls the metadata assignment
    ([setTagIcon] for a tag, [setFolderIcon] otherwise) and awaits it:
    the next thing that happens is that call settling. The modal is
    closed only after that: every close in a run has the settlement of
    the assignment before it. When the assignment is fulfilled the run
    ends with the close; when it is rejected the run ends with the
    settlement and the modal is not closed. So the close comes after
    the settlement exactly in the runs where the assignment is
    fulfilled. *)
Theorem select_icon_closes_after_assignment (m : IconPickerModal.Modal)
    (iconId : jsstring) (service : IconPickerModal.Effect → IconPickerModal.Outcome) :
  let run := IconPickerModal.observe service (IconPickerModal.selectIcon m iconId) in
  let call := assignmentCall m iconId in
  (call = if bool_decide (IconPickerModal.itemType m = TAG)
          then IconPickerModal.SetTagIcon (IconPickerModal.itemPath m) iconId
          else IconPickerModal.SetFolderIcon (IconPickerModal.itemPath m) iconId)
  ∧ take 2 run = [IconPickerModal.Invoked call;
                  IconPickerModal.Settled call (service call)]
  ∧ (∀ i, run !! i = Some (IconPickerModal.Invoked IconPickerModal.Close) →
          (1 < i)%nat
          ∧ run !! 1%nat = Some (IconPickerModal.Settled call (service call)))
  ∧ (∀ i e, run !! i = Some (IconPickerModal.Invoked e) →
            e ≠ call → (1 < i)%nat)
  ∧ match service call with
    | IconPickerModal.Fulfilled =>
        last run = Some (IconPickerModal.Invoked IconPickerModal.Close)
    | IconPickerModal.Rejected =>
        run = [IconPickerModal.Invoked call;
               IconPickerModal.Settled call IconPickerModal.Rejected]
    end
  ∧ (closesAfterSettlement call run ↔ service call = IconPickerModal.Fulfilled).
Proof.
  intros run call. subst run call. rewrite selectIcon_run.
  split.
  { unfold assignmentCall. by destruct (IconPickerModal.itemType m). }
  split; [done|].
  split.
  { intros [|[|i]] Hi; simpl in Hi.
    - injection Hi as Hi. exfalso. revert Hi. unfold assignmentCall.
      by destruct (IconPickerModal.itemType m).
    - done.
    - split; [lia|done]. }
  split.
  { intros [|[|i]] e Hi Hne; simpl in Hi; [congruence|done|lia]. }
  split.
  { destruct (service _); [|done].
    by destruct (IconPickerModal.hasOnChooseIcon m). }
  destruct (service (assignmentCall m iconId)) eqn:Es.
  - split; [done|]. intros _.
    destruct (IconPickerModal.hasOnChooseIcon m).
    + exists 1%nat, 3%nat, IconPickerModal.Fulfilled.
      split; [done|split; [done|lia]].
    + exists 1%nat, 2%nat, IconPickerModal.Fulfilled.
      split; [done|split; [done|lia]].
  - split; [|done]. intros (i & j & outcome & _ & Hclose & _).
    destruct j as [|[|j]]; simpl in Hclose; [|done..].
    injection Hclose as Hclose. revert Hclose. unfold assignmentCall.
    by destruct (IconPickerModal.itemType m).
Qed.

Lemma select_icon_closes_after_assignment_witness :
  let m := IconPickerModal.constructor [] (u16 "todo") None (Some TAG) in
  let service := λ _ : IconPickerModal.Effect, IconPickerModal.Fulfilled in
  let run := IconPickerModal.observe service (IconPickerModal.selectIcon m [0x2600]) in
  run !! 2%nat = Some (IconPickerModal.Invoked IconPickerModal.Close)
  ∧ (1 < 2)%nat
  ∧ run !! 1%nat = Some (IconPickerModal.Settled
                           (IconPickerModal.SetTagIcon (u16 "todo") [0x2600])
                           IconPickerModal.Fulfilled).
Proof.
  intros m service run. split; [reflexivity|].
  exact (proj1 (proj2 (proj2 (select_icon_closes_after_assignment m [0x2600] service)))
           2%nat eq_refl).
Defined.

(** *** The feature image *)

Section FeatureImageFacts.
Variable isImageFile : TFile → bool.
Variable settings : NotebookNavigatorSettings.
Variable metadataCache : MetadataCache.
Variable vault : Vault.
Variable file : TFile.

Lemma frontmatterLoop_firstCandidate (properties : list jsstring) :
  (∀ property, property ∈ properties →
     match FileItem.frontmatterAt (getFileCache metadataCache file) property with
     | JString _ => True
     | v => truthy v = false
     end) →
  FileItem.frontmatterLoop metadataCache vault file properties
  = Normal (firstCandidate (propertyCandidate metadataCache vault file) properties).
Proof.
  induction properties as [|property rest IH]; intros Hstr; [done|].
  assert (Hrest : FileItem.frontmatterLoop metadataCache vault file rest
            = Normal (firstCandidate (propertyCandidate metadataCache vault file) rest)).
  { apply IH. intros q Hq. apply Hstr. by right. }
  specialize (Hstr property ltac:(by left)).
  cbn [FileItem.frontmatterLoop firstCandidate]. unfold propertyCandidate, FileItem.metadata.
  destruct (FileItem.frontmatterAt _ property) as [| |b|n|[|u s]|] eqn:Ev;
    simpl in Hstr |- *; try (rewrite ?Hstr; simpl; exact Hrest); try done.
  destruct (getFirstLinkpathDest _ _ _) as [imageFile|]; simpl; [|exact Hrest].
  unfold resourceOf. by destruct (getResourcePath vault imageFile).
Qed.

Lemma embedLoop_firstCandidate (es : list EmbedCache) :
  FileItem.embedLoop isImageFile metadataCache vault file es
  = firstCandidate (embedCandidate isImageFile metadataCache vault file) es.
Proof.
  induction es as [|embed rest IH]; [done|].
  cbn [FileItem.embedLoop firstCandidate]. unfold embedCandidate.
  destruct (getFirstLinkpathDest _ _ _) as [embedFile|]; simpl; [|done].
  destruct (isImageFile embedFile); [|done].
  unfold resourceOf. by destruct (getResourcePath vault embedFile).
Qed.

(** With the feature image enabled and configured properties that read
    as strings or falsy values (inherited members of [Object.prototype]
    counted among what is read), the URL follows the priority: the file's own resource path for an image
    file; else, for a markdown document, the first configured property
    that resolves to a file with a resource path; else the first
    embedded reference that resolves to an image file with a resource
    path; else none. A resource path that cannot be had makes the
    candidate absent, nothing is thrown. *)
Lemma featureImageUrl_priority :
  showFeatureImage settings = true →
  stringProperties settings metadataCache file →
  FileItem.featureImageUrl isImageFile settings metadataCache vault file
  = Normal (featureImagePriority isImageFile settings metadataCache vault file).
Proof.
  intros Hshow Hstr. unfold FileItem.featureImageUrl, featureImagePriority.
  rewrite Hshow. simpl.
  destruct (isImageFile file).
  { unfold resourceOf. by destruct (getResourcePath vault file). }
  case_bool_decide; [|done].
  rewrite frontmatterLoop_firstCandidate by exact Hstr.
  destruct (firstCandidate _ (featureImageProperties settings)); [done|].
  by rewrite embedLoop_firstCandidate.
Qed.
End FeatureImageFacts.

(** C3 fails on the code for frontmatter values that are not strings: a
    note with [cover: 2024] and [image: "[[photo.png]]"], both properties
    configured. The priority of the specification gives the photo's
    resource path; the computation stops at [cover] with a [TypeError]. *)
Theorem feature_image_number_property_throws :
  let cache := cacheWith numberCover [] in
  showFeatureImage settingsCover = true
  ∧ featureImagePriority imageByExtension settingsCover cache readyVault sampleNote
    = Some (u16 "app://local/assets/photo.png")
  ∧ FileItem.featureImageUrl imageByExtension settingsCover cache readyVault sampleNote
    = Throw TypeError.
Proof. repeat split; vm_compute; reflexivity. Qed.

(** The same note with string values only, and a note with an embedded
    photo and no frontmatter image; an image file shows itself. *)
Example feature_image_examples :
  FileItem.featureImageUrl imageByExtension settingsCover
    (cacheWith {[ u16 "image" := JString (u16 "[[photo.png]]") ]} [])
    readyVault sampleNote
  = Normal (Some (u16 "app://local/assets/photo.png"))
  ∧ FileItem.featureImageUrl imageByExtension settingsCover
      (cacheWith ∅ [ {| link := u16 "missing.png" |}; {| link := u16 "photo.png" |} ])
      readyVault sampleNote
    = Normal (Some (u16 "app://local/assets/photo.png"))
  ∧ FileItem.featureImageUrl imageByExtension settingsCover
      (cacheWith numberCover []) readyVault photo
    = Normal (Some (u16 "app://local/assets/photo.png"))
  ∧ FileItem.featureImageUrl imageByExtension settingsCover
      (cacheWith ∅ []) readyVault sampleNote
    = Normal None.
Proof. repeat split; vm_compute; reflexivity. Qed.

(** *** The icon search *)

Lemma startsWith_prefix (s pat : jsstring) :
  startsWith s pat = true ↔ ∃ post, s = pat ++ post.
Proof.
  unfold startsWith. rewrite bool_decide_eq_true. split.
  - intros H. exists (drop (length pat) s). rewrite <- H at 1. by rewrite take_drop.
  - intros [post ->]. by rewrite take_app_length.
Qed.

Lemma includes_cons (u : Z) (s pat : jsstring) :
  includes (u :: s) pat = startsWith (u :: s) pat || includes s pat.
Proof. reflexivity. Qed.

Lemma includes_occursIn (s pat : jsstring) :
  includes s pat = true ↔ occursIn pat s.
Proof.
  unfold occursIn. induction s as [|u s IH].
  - simpl. rewrite orb_false_r, startsWith_prefix. split.
    + intros [post H]. by exists [], post.
    + intros (pre & post & H). symmetry in H.
      apply app_eq_nil in H as [-> H]. apply app_eq_nil in H as [-> ->]. by exists [].
  - rewrite includes_cons, orb_true_iff, startsWith_prefix, IH. split.
    + intros [[post H]|(pre & post & H)].
      * by exists [], post.
      * exists (u :: pre), post. by rewrite H.
    + intros ([|v pre] & post & H).
      * left. by exists post.
      * right. injection H as -> H. by exists pre, post.
Qed.

Lemma replaceFirst_cons (u : Z) (s pat by_ : jsstring) :
  replaceFirst (u :: s) pat by_ =
  if startsWith (u :: s) pat then by_ ++ drop (length pat) (u :: s)
  else u :: replaceFirst s pat by_.
Proof. reflexivity. Qed.

(** Replacing fills the first place where the pattern stands. *)
Lemma replaceFirst_occurrence (pre pat post by_ : jsstring) :
  (∀ k, (k < length pre)%nat → startsWith (drop k (pre ++ pat ++ post)) pat = false) →
  replaceFirst (pre ++ pat ++ post) pat by_ = pre ++ by_ ++ post.
Proof.
  induction pre as [|u pre IH]; intros Hfirst.
  - simpl. assert (Hs : startsWith (pat ++ post) pat = true).
    { apply startsWith_prefix. by exists post. }
    destruct (pat ++ post) as [|v rest] eqn:E.
    + simpl in *. rewrite Hs. apply app_eq_nil in E as [-> ->]. done.
    + rewrite replaceFirst_cons, Hs, <- E. by rewrite drop_app_length.
  - rewrite <- !app_comm_cons, replaceFirst_cons.
    pose proof (Hfirst 0%nat ltac:(simpl; lia)) as H0. simpl in H0. rewrite H0.
    f_equal. apply IH. intros k Hk. apply (Hfirst (S k)). simpl. lia.
Qed.

Lemma u16_inj : Inj (=) (=) u16.
Proof.
  assert (Hunit : Inj (=) (=) (λ a, Z.of_N (Ascii.N_of_ascii a))).
  { intros x y Hxy. apply (inj Z.of_N) in Hxy.
    rewrite <- (Ascii.ascii_N_embedding x), <- (Ascii.ascii_N_embedding y).
    by rewrite Hxy. }
  intros a b H. unfold u16 in H.
  apply (list_fmap_eq_inj _ Hunit) in H.
  rewrite <- (String.string_of_list_ascii_of_string a),
    <- (String.string_of_list_ascii_of_string b). by rewrite H.
Qed.

(** Different totals read differently. *)
Lemma numberToString_inj : Inj (=) (=) numberToString.
Proof. intros a b H. apply u16_inj in H. by apply (inj pretty) in H. Qed.

Lemma displayed_createIconItem (toUpperCase : jsstring → jsstring) (ids : list jsstring) :
  IconPickerModal.dataIconId <$> (IconPickerModal.createIconItem toUpperCase <$> ids) = ids.
Proof.
  induction ids as [|id ids IH]; [done|].
  rewrite !fmap_cons. f_equal. exact IH.
Qed.

(** The display name of the code is the derived display name of the
    specification. *)
Lemma splitOn_no_hyphen (token : jsstring) :
  IconPickerModal.hyphen ∉ token →
  IconPickerModal.splitOn IconPickerModal.hyphen token = [token].
Proof.
  induction token as [|u token IH]; intros Hno; [done|].
  apply not_elem_of_cons in Hno as [Hu Hno].
  simpl. destruct (Z.eqb_spec u IconPickerModal.hyphen) as [->|_]; [done|].
  by rewrite (IH Hno).
Qed.

Lemma splitOn_hyphen_after (token rest : jsstring) :
  IconPickerModal.hyphen ∉ token →
  IconPickerModal.splitOn IconPickerModal.hyphen (token ++ IconPickerModal.hyphen :: rest)
  = token :: IconPickerModal.splitOn IconPickerModal.hyphen rest.
Proof.
  induction token as [|u token IH]; intros Hno.
  - done.
  - apply not_elem_of_cons in Hno as [Hu Hno].
    rewrite <- app_comm_cons. simpl.
    destruct (Z.eqb_spec u IconPickerModal.hyphen) as [->|_]; [done|].
    by rewrite (IH Hno).
Qed.

Lemma splitOn_KebabTokens (s : jsstring) :
  KebabTokens s (IconPickerModal.splitOn IconPickerModal.hyphen s).
Proof.
  induction s as [|u s IH].
  - apply KebabLast. apply not_elem_of_nil.
  - simpl. destruct (Z.eqb_spec u IconPickerModal.hyphen) as [->|Hu].
    + apply (KebabCons [] s); [apply not_elem_of_nil|exact IH].
    + inversion IH as [token Hno Htoken Hsplit|token rest tokens Hno Hrest Htoken Hsplit].
      * apply KebabLast. by apply not_elem_of_cons.
      * apply (KebabCons (u :: token) rest tokens); [by apply not_elem_of_cons|done].
Qed.

Lemma KebabTokens_splitOn (s : jsstring) (tokens : list jsstring) :
  KebabTokens s tokens ↔ tokens = IconPickerModal.splitOn IconPickerModal.hyphen s.
Proof.
  split; [|intros ->; apply splitOn_KebabTokens].
  induction 1 as [token Hno|token rest tokens Hno _ IH].
  - by rewrite splitOn_no_hyphen.
  - by rewrite splitOn_hyphen_after, IH.
Qed.

Lemma StripsNamespace_replace (iconId body : jsstring) :
  StripsNamespace iconId body
  ↔ body = if startsWith iconId (u16 "lucide-")
           then drop (length (u16 "lucide-")) iconId
           else iconId.
Proof.
  destruct (startsWith iconId (u16 "lucide-")) eqn:E.
  - apply startsWith_prefix in E as [post ->].
    rewrite drop_app_length. split.
    + intros [body' Hbody|Hnone].
      * by apply app_inv_head in Hbody.
      * by destruct (Hnone post).
    + intros ->. by apply StripsPrefix.
  - split.
    + intros [body' Hbody|Hnone]; [|done].
      assert (startsWith iconId (u16 "lucide-") = true) as Hs; [|congruence].
      apply startsWith_prefix. by exists body'.
    + intros ->. apply StripsNothing. intros body' Hbody.
      assert (startsWith iconId (u16 "lucide-") = true) as Hs; [|congruence].
      apply startsWith_prefix. by exists body'.
Qed.

Lemma joinWith_spaced (words : list jsstring) :
  IconPickerModal.joinWith (u16 " ") words = spaced words.
Proof.
  destruct words as [|word others]; [done|].
  revert word. induction others as [|w others IH]; intros word.
  - simpl. by rewrite app_nil_r.
  - change (IconPickerModal.joinWith (u16 " ") (word :: w :: others))
      with (word ++ u16 " " ++ IconPickerModal.joinWith (u16 " ") (w :: others)).
    rewrite IH. unfold spaced. rewrite !fmap_cons.
    change (mjoin ((0x20 :: w) :: ((λ w0, 0x20 :: w0) <$> others)))
      with ((0x20 :: w) ++ mjoin ((λ w0, 0x20 :: w0) <$> others)).
    done.
Qed.

Lemma jsSliceFrom_1 (word : jsstring) : jsSliceFrom word 1 = drop 1 word.
Proof.
  unfold jsSliceFrom, jsSlice, sliceIndex.
  destruct word as [|u word]; [done|].
  replace (1 <? 0) with false by reflexivity.
  replace (Z.of_nat (length (u :: word)) <? 0) with false
    by (symmetry; apply Z.ltb_ge; lia).
  rewrite Z.min_id.
  replace (Z.min 1 (Z.of_nat (length (u :: word)))) with 1 by (simpl length; lia).
  change (Z.to_nat 1) with 1%nat.
  apply take_ge. rewrite length_drop. simpl length. lia.
Qed.

Lemma getIconDisplayName_DisplayName (toUpperCase : jsstring → jsstring)
    (iconId name : jsstring) :
  DisplayName toUpperCase iconId name
  ↔ name = IconPickerModal.getIconDisplayName toUpperCase iconId.
Proof.
  assert (Hname : ∀ body,
            IconPickerModal.joinWith (u16 " ")
              ((λ word, toUpperCase (IconPickerModal.charAt0 word) ++ jsSliceFrom word 1)
                 <$> IconPickerModal.splitOn IconPickerModal.hyphen body)
            = spaced (titleCased toUpperCase
                        <$> IconPickerModal.splitOn IconPickerModal.hyphen body)).
  { intros body. rewrite joinWith_spaced. f_equal.
    apply list_fmap_ext. intros i word _. unfold titleCased, IconPickerModal.charAt0.
    by rewrite jsSliceFrom_1. }
  unfold DisplayName, IconPickerModal.getIconDisplayName. rewrite Hname. split.
  - intros (body & tokens & Hbody & Htokens & ->).
    apply StripsNamespace_replace in Hbody. apply KebabTokens_splitOn in Htokens.
    by subst.
  - intros ->. eexists _, _. split; [by apply StripsNamespace_replace|].
    split; [apply splitOn_KebabTokens|done].
Qed.

Lemma iconMatches_matchesTerm (toLowerCase toUpperCase : jsstring → jsstring)
    (term iconId : jsstring) :
  IconPickerModal.iconMatches toLowerCase toUpperCase term iconId = true
  ↔ matchesTerm toLowerCase toUpperCase term iconId.
Proof.
  unfold IconPickerModal.iconMatches, matchesTerm.
  rewrite orb_true_iff, !includes_occursIn. split.
  - intros [H|H]; [right|by left].
    eexists. split; [by apply getIconDisplayName_DisplayName|done].
  - intros [H|(name & Hname & H)]; [by right|left].
    apply getIconDisplayName_DisplayName in Hname. by subst.
Qed.

Lemma iconResults_search (toLowerCase toUpperCase : jsstring → jsstring)
    (strings : IconPickerModal.IconPickerStrings) (m : IconPickerModal.Modal) :
  searchTermOf toLowerCase m ≠ [] →
  let matching :=
    filter (λ id, IconPickerModal.iconMatches toLowerCase toUpperCase
                    (searchTermOf toLowerCase m) id = true)
           (IconPickerModal.allIcons m) in
  IconPickerModal.iconItems (IconPickerModal.iconResults toLowerCase toUpperCase strings m)
  = (IconPickerModal.createIconItem toUpperCase <$> take 50 matching)
  ∧ IconPickerModal.moreMessages
      (IconPickerModal.iconResults toLowerCase toUpperCase strings m)
    = if decide (50 < length matching)%nat
      then [replaceFirst (IconPickerModal.showingResultsInfo strings) (u16 "{count}")
              (numberToString (length matching))]
      else [].
Proof.
  intros Hterm matching. unfold IconPickerModal.iconResults.
  fold (searchTermOf toLowerCase m).
  rewrite bool_decide_eq_false_2 by done. fold matching.
  destruct (Nat.ltb_spec 0 (length matching)) as [Hpos|Hzero].
  - destruct (Nat.ltb_spec 50 (length matching)) as [Hmore|Hfew].
    + rewrite decide_True by done. split; [|done].
      simpl. by rewrite app_nil_r.
    + rewrite decide_False by lia. split; [|done].
      simpl. by rewrite app_nil_r.
  - rewrite decide_False by lia.
    assert (matching = []) as -> by (apply length_zero_iff_nil; lia). done.
Qed.

(** C4. With a non-empty search term (the text of the search field,
    lower-cased and trimmed) on the icons tab, the icons that match are
    exactly those of the catalog whose raw identifier or whose derived
    display name contains the term, case ignored, the derived display
    name being the identifier with the namespace prefix [lucide-]
    stripped and its kebab-case tokens title-cased and set apart by
    spaces: that is the name the code computes and shows under each
    icon. The grid shows the first 50 matches in catalog order, never
    more than 50; and exactly when more than 50 match there is an
    overflow message, the configured text with [{count}] replaced by the
    number of all matches: where the text has [{count}], that number
    stands in its place. *)
Theorem icon_search_results (toLowerCase toUpperCase : jsstring → jsstring)
    (strings : IconPickerModal.IconPickerStrings) (m : IconPickerModal.Modal) :
  IconPickerModal.activeTab m = IconPickerModal.IconsTab →
  is_Some (IconPickerModal.resultsContainer m) →
  searchTermOf toLowerCase m ≠ [] →
  let term := searchTermOf toLowerCase m in
  let m' := IconPickerModal.updateResults toLowerCase toUpperCase strings m in
  let shown := default [] (IconPickerModal.resultsContainer m') in
  let matching :=
    filter (λ id, IconPickerModal.iconMatches toLowerCase toUpperCase term id = true)
           (IconPickerModal.allIcons m) in
  (∀ id, id ∈ matching ↔
         id ∈ IconPickerModal.allIcons m ∧ matchesTerm toLowerCase toUpperCase term id)
  ∧ (∀ id name, DisplayName toUpperCase id name
                ↔ name = IconPickerModal.getIconDisplayName toUpperCase id)
  ∧ (∀ item, item ∈ IconPickerModal.iconItems shown →
             DisplayName toUpperCase (IconPickerModal.dataIconId item)
               (IconPickerModal.itemName item))
  ∧ matching `sublist_of` IconPickerModal.allIcons m
  ∧ IconPickerModal.displayedIcons m' = take 50 matching
  ∧ (length (IconPickerModal.displayedIcons m') ≤ 50)%nat
  ∧ ((length matching ≤ 50)%nat → IconPickerModal.moreMessages shown = [])
  ∧ ((50 < length matching)%nat →
       IconPickerModal.moreMessages shown =
       [replaceFirst (IconPickerModal.showingResultsInfo strings) (u16 "{count}")
          (numberToString (length matching))])
  ∧ (∀ pre post,
       IconPickerModal.showingResultsInfo strings = pre ++ u16 "{count}" ++ post →
       (∀ k, (k < length pre)%nat →
             startsWith (drop k (pre ++ u16 "{count}" ++ post)) (u16 "{count}") = false) →
       (50 < length matching)%nat →
       IconPickerModal.moreMessages shown =
       [pre ++ numberToString (length matching) ++ post]).
Proof.
  intros Htab [nodes Hnodes] Hterm term m' shown matching.
  assert (Hm' : IconPickerModal.resultsContainer m'
                = Some (IconPickerModal.iconResults toLowerCase toUpperCase strings m)).
  { subst m'. unfold IconPickerModal.updateResults. rewrite Hnodes, Htab. done. }
  destruct (iconResults_search toLowerCase toUpperCase strings m Hterm)
    as [Hitems Hmore].
  fold term in Hitems, Hmore. fold matching in Hitems, Hmore.
  assert (Hshown : shown = IconPickerModal.iconResults toLowerCase toUpperCase strings m).
  { subst shown. by rewrite Hm'. }
  assert (Hdisp : IconPickerModal.displayedIcons m' = take 50 matching).
  { unfold IconPickerModal.displayedIcons. rewrite Hm'. simpl.
    rewrite Hitems. apply displayed_createIconItem. }
  split.
  { intros id. subst matching. rewrite list_elem_of_filter, iconMatches_matchesTerm. tauto. }
  split; [intros id name; apply getIconDisplayName_DisplayName|].
  split.
  { intros item Hitem. rewrite Hshown, Hitems in Hitem.
    apply list_elem_of_fmap in Hitem as (id & -> & _).
    by apply getIconDisplayName_DisplayName. }
  split; [apply sublist_filter|].
  split; [exact Hdisp|].
  split; [rewrite Hdisp, length_take; lia|].
  rewrite Hshown, Hmore.
  split; [intros Hle; by rewrite decide_False by lia|].
  split; [intros Hgt; by rewrite decide_True by lia|].
  intros pre post Htemplate Hfirst Hgt.
  rewrite decide_True by lia. rewrite Htemplate.
  by rewrite replaceFirst_occurrence.
Qed.

(** [Fold] typed after a space finds [lucide-folder-open] by its name
    and [lucide-scaffold] by its identifier. *)
Lemma icon_search_results_witness :
  IconPickerModal.activeTab sampleSearch = IconPickerModal.IconsTab
  ∧ is_Some (IconPickerModal.resultsContainer sampleSearch)
  ∧ searchTermOf IconPickerModal.asciiLower sampleSearch ≠ []
  ∧ IconPickerModal.displayedIcons
      (IconPickerModal.updateResults IconPickerModal.asciiLower
         IconPickerModal.asciiUpper IconPickerModal.fr sampleSearch)
    = take 50
        (filter (λ id, IconPickerModal.iconMatches IconPickerModal.asciiLower
                         IconPickerModal.asciiUpper
                         (searchTermOf IconPickerModal.asciiLower sampleSearch) id = true)
                (IconPickerModal.allIcons sampleSearch)).
Proof.
  assert (H1 : IconPickerModal.activeTab sampleSearch = IconPickerModal.IconsTab)
    by reflexivity.
  assert (H2 : is_Some (IconPickerModal.resultsContainer sampleSearch))
    by (eexists; reflexivity).
  assert (H3 : searchTermOf IconPickerModal.asciiLower sampleSearch ≠ [])
    by (vm_compute; discriminate).
  split; [exact H1|]. split; [exact H2|]. split; [exact H3|].
  exact (proj1 (proj2 (proj2 (proj2 (proj2
    (icon_search_results IconPickerModal.asciiLower IconPickerModal.asciiUpper
       IconPickerModal.fr sampleSearch H1 H2 H3)))))).
Defined.

(** The search of the specification, and the display names. *)
Example icon_search_example :
  IconPickerModal.displayedIcons
    (IconPickerModal.updateResults IconPickerModal.asciiLower
       IconPickerModal.asciiUpper IconPickerModal.fr sampleSearch)
  = [u16 "lucide-folder-open"; u16 "lucide-scaffold"]
  ∧ IconPickerModal.getIconDisplayName IconPickerModal.asciiUpper (u16 "lucide-folder-open")
    = u16 "Folder Open"
  ∧ IconPickerModal.getIconDisplayName IconPickerModal.asciiUpper (u16 "folder-open")
    = u16 "Folder Open"
  ∧ IconPickerModal.iconMatches IconPickerModal.asciiLower IconPickerModal.asciiUpper
      (u16 "fold") (u16 "folder-open") = true
  ∧ IconPickerModal.iconMatches IconPickerModal.asciiLower IconPickerModal.asciiUpper
      (u16 "folder open") (u16 "folder-open") = true.
Proof. repeat split; vm_compute; reflexivity. Qed.

(** The derived display name of the specification's example, and a
    term that is found in the display name only. *)
Example display_name_example :
  DisplayName IconPickerModal.asciiUpper (u16 "lucide-folder-open") (u16 "Folder Open")
  ∧ DisplayName IconPickerModal.asciiUpper (u16 "folder-open") (u16 "Folder Open")
  ∧ matchesTerm IconPickerModal.asciiLower IconPickerModal.asciiUpper
      (u16 "folder open") (u16 "lucide-folder-open")
  ∧ ¬ occursIn (u16 "folder open") (IconPickerModal.asciiLower (u16 "lucide-folder-open")).
Proof.
  split; [by apply getIconDisplayName_DisplayName|].
  split; [by apply getIconDisplayName_DisplayName|].
  split; [by apply iconMatches_matchesTerm|].
  rewrite <- includes_occursIn. by vm_compute.
Qed.

(** The overflow text of the two locales at hand: the total stands where
    [{count}] stood. *)
Example overflow_text_locales (total : nat) :
  replaceFirst (IconPickerModal.showingResultsInfo IconPickerModal.fr) (u16 "{count}")
    (numberToString total)
  = u16 "Affichage de 50 r" ++ [0x00E9] ++ u16 "sultats sur "
    ++ numberToString total ++ u16 ". Tapez plus pour affiner."
  ∧ replaceFirst (IconPickerModal.showingResultsInfo IconPickerModal.zh) (u16 "{count}")
      (numberToString total)
    = [0x663E; 0x793A] ++ u16 " " ++ numberToString total ++ u16 " "
      ++ [0x4E2A; 0x7ED3; 0x679C; 0x4E2D; 0x7684] ++ u16 " 50 "
      ++ [0x4E2A; 0x3002; 0x8F93; 0x5165; 0x66F4; 0x591A; 0x5185; 0x5BB9;
          0x4EE5; 0x7F29; 0x5C0F; 0x8303; 0x56F4; 0x3002].
Proof. generalize (numberToString total). intros digits. split; vm_compute; reflexivity. Qed.

(** Sixty icons that all match: fifty shown, the message says 60. *)
Example overflow_example :
  let catalog := (λ i : nat, u16 "lucide-folder-" ++ numberToString i) <$> seq 0 60 in
  let m := IconPickerModal.updateResults IconPickerModal.asciiLower
             IconPickerModal.asciiUpper IconPickerModal.fr
             {| IconPickerModal.itemPath := u16 "Projects";
                IconPickerModal.itemType := FOLDER;
                IconPickerModal.allIcons := catalog;
                IconPickerModal.recentlyUsedIcons := [];
                IconPickerModal.recentlyUsedEmojis := [];
                IconPickerModal.focusedIndex := -1;
                IconPickerModal.gridColumns := 5;
                IconPickerModal.activeTab := IconPickerModal.IconsTab;
                IconPickerModal.searchValue := u16 "FOLDER";
                IconPickerModal.resultsContainer := Some [];
                IconPickerModal.hasOnChooseIcon := true |} in
  length (IconPickerModal.displayedIcons m) = 50%nat
  ∧ IconPickerModal.moreMessages (default [] (IconPickerModal.resultsContainer m))
    = [u16 "Affichage de 50 r" ++ [0x00E9]
       ++ u16 "sultats sur 60. Tapez plus pour affiner."].
Proof. split; vm_compute; reflexivity. Qed.

(** *** The keydown handler *)

(** On an arrow key with a grid item focused, the handler moves the
    focus to the index [gridStep] gives and tracks it, or leaves
    everything as it is; nothing is selected. *)
Lemma keydown_arrow (m : IconPickerModal.Modal) (i : Z) (key : IconPickerModal.Key) :
  key ∈ [IconPickerModal.ArrowLeft; IconPickerModal.ArrowRight;
         IconPickerModal.ArrowUp; IconPickerModal.ArrowDown] →
  let items := IconPickerModal.iconItems (default [] (IconPickerModal.resultsContainer m)) in
  let j := IconPickerModal.gridStep (IconPickerModal.gridColumns m)
             (Z.of_nat (length items)) i key in
  items ≠ [] →
  IconPickerModal.contentElKeydownHandler m (IconPickerModal.OnIconItem i) key
  = if decide (j = i) then (m, IconPickerModal.OnIconItem i, None)
    else (IconPickerModal.withFocusedIndex m j, IconPickerModal.OnIconItem j, None).
Proof.
  intros Hkey items j Hitems. unfold IconPickerModal.contentElKeydownHandler.
  fold items. destruct (Z.eqb_spec (Z.of_nat (length items)) 0) as [H0|_].
  { destruct items; [done|simpl in H0; lia]. }
  assert (Hstep : (if IconPickerModal.gridStep (IconPickerModal.gridColumns m)
                        (Z.of_nat (length items)) i key =? i
                   then (m, IconPickerModal.OnIconItem i, @None jsstring)
                   else (IconPickerModal.withFocusedIndex m j,
                         IconPickerModal.OnIconItem j, None))
                  = if decide (j = i) then (m, IconPickerModal.OnIconItem i, None)
                    else (IconPickerModal.withFocusedIndex m j,
                          IconPickerModal.OnIconItem j, None)).
  { fold j. destruct (Z.eqb_spec j i); by case_decide. }
  repeat (apply elem_of_cons in Hkey as [->|Hkey]; [exact Hstep|]).
  by apply elem_of_nil in Hkey.
Qed.

(** Enter on the focused item hands its identifier to [selectIcon];
    Shift+Tab goes back to the search field and clears the tracked
    index. *)
Example keydown_examples :
  let m := IconPickerModal.updateResults IconPickerModal.asciiLower
             IconPickerModal.asciiUpper IconPickerModal.fr sampleSearch in
  IconPickerModal.contentElKeydownHandler m (IconPickerModal.OnIconItem 1)
    IconPickerModal.KeyEnter
  = (m, IconPickerModal.OnIconItem 1, Some (u16 "lucide-scaffold"))
  ∧ IconPickerModal.contentElKeydownHandler m (IconPickerModal.OnIconItem 0)
      IconPickerModal.ArrowRight
    = (IconPickerModal.withFocusedIndex m 1, IconPickerModal.OnIconItem 1, None)
  ∧ IconPickerModal.contentElKeydownHandler m (IconPickerModal.OnIconItem 1)
      IconPickerModal.ArrowRight
    = (m, IconPickerModal.OnIconItem 1, None)
  ∧ (IconPickerModal.contentElKeydownHandler m (IconPickerModal.OnIconItem 1)
       (IconPickerModal.KeyTab true)).1.2
    = IconPickerModal.OnSearchInput.
Proof. repeat split; vm_compute; reflexivity. Qed.

(** ** Further properties of the code *)

(** *** Wikilinks in frontmatter values *)

Lemma startsWith_endsWith_wikilink (v : jsstring) :
  startsWith v (u16 "[[") && endsWith v (u16 "]]") = true ↔ ∃ s, v = wikilink s.
Proof.
  rewrite andb_true_iff, startsWith_prefix. unfold endsWith, wikilink.
  rewrite bool_decide_eq_true. split.
  - intros [[post ->] Hend].
    destruct (decide (length post < 2)%nat) as [Hshort|Hlong].
    + destruct post as [|x [|y post]]; simpl in *; try lia; discriminate Hend.
    + exists (take (length post - 2) post).
      rewrite length_app in Hend. change (length (u16 "[[")) with 2%nat in Hend.
      change (length (u16 "]]")) with 2%nat in Hend.
      replace (2 + length post - 2)%nat with (2 + (length post - 2))%nat in Hend by lia.
      rewrite drop_app_add' in Hend by done.
      rewrite <- Hend. by rewrite take_drop.
  - intros [s ->]. split; [by exists (s ++ u16 "]]")|].
    rewrite !length_app. change (length (u16 "[[")) with 2%nat.
    change (length (u16 "]]")) with 2%nat.
    replace (2 + (length s + 2) - 2)%nat with (2 + length s)%nat by lia.
    rewrite drop_app_add' by done. by rewrite drop_app_length.
Qed.

(** The value of a frontmatter property is unwrapped exactly when it is
    a wikilink, to the link path inside (once: inner brackets stay);
    every other value is used as it is. *)
Theorem unwrapWikilink_wikilink :
  (∀ s, FileItem.unwrapWikilink (wikilink s) = s)
  ∧ (∀ v, (∀ s, v ≠ wikilink s) → FileItem.unwrapWikilink v = v).
Proof.
  split.
  - intros s. unfold FileItem.unwrapWikilink.
    rewrite (proj2 (startsWith_endsWith_wikilink (wikilink s))) by by exists s.
    unfold wikilink, jsSlice, sliceIndex. rewrite !length_app.
    change (length (u16 "[[")) with 2%nat. change (length (u16 "]]")) with 2%nat.
    replace (2 <? 0) with false by reflexivity.
    replace (-2 <? 0) with true by reflexivity.
    rewrite Z.min_l by lia. rewrite Z.max_l by lia.
    change (Z.to_nat 2) with 2%nat.
    change (drop 2 (u16 "[[" ++ s ++ u16 "]]")) with (s ++ u16 "]]").
    replace (Z.to_nat (Z.of_nat (2 + (length s + 2)) + -2 - 2)) with (length s) by lia.
    by rewrite take_app_length.
  - intros v Hv. unfold FileItem.unwrapWikilink.
    destruct (startsWith v (u16 "[[") && endsWith v (u16 "]]")) eqn:E; [|done].
    apply startsWith_endsWith_wikilink in E as [s ->]. by destruct (Hv s).
Qed.

Lemma unwrapWikilink_wikilink_witness :
  (∀ s, u16 "cover.png" ≠ wikilink s)
  ∧ FileItem.unwrapWikilink (u16 "cover.png") = u16 "cover.png".
Proof.
  assert (H : ∀ s, u16 "cover.png" ≠ wikilink s) by (intros s; discriminate).
  split; [exact H|]. exact (proj2 unwrapWikilink_wikilink (u16 "cover.png") H).
Defined.

(** *** Moving back and forth in the grid *)

Lemma gridStep_arrows (cols n i : Z) :
  0 < cols → 0 ≤ i < n →
  IconPickerModal.gridStep cols n i IconPickerModal.ArrowLeft
    = (if decide (0 < i mod cols) then i - 1 else i)
  ∧ IconPickerModal.gridStep cols n i IconPickerModal.ArrowRight
    = (if decide (i mod cols < cols - 1 ∧ i + 1 < n) then i + 1 else i)
  ∧ IconPickerModal.gridStep cols n i IconPickerModal.ArrowUp
    = (if decide (0 ≤ i - cols) then i - cols else i)
  ∧ IconPickerModal.gridStep cols n i IconPickerModal.ArrowDown
    = (if decide (i + cols < n) then i + cols else i).
Proof.
  intros Hcols Hi.
  assert (Hrem : Z.rem i cols = i mod cols) by (apply Z.rem_mod_nonneg; lia).
  assert (Hmod : 0 ≤ i mod cols < cols) by (apply Z.mod_pos_bound; lia).
  assert (Hmodle : i mod cols ≤ i) by (apply Z.mod_le; lia).
  repeat split; rewrite gridStep_guard; unfold IconPickerModal.arrowTarget;
    rewrite ?Hrem; zbool.
Qed.

(** A move that took place is undone by the opposite key: right then
    left, left then right, down then up and up then down come back to
    the item they started from. *)
Theorem grid_step_back (cols n i : Z) :
  0 < cols → 0 ≤ i < n →
  let step := IconPickerModal.gridStep cols n in
  (step i IconPickerModal.ArrowRight ≠ i →
   step (step i IconPickerModal.ArrowRight) IconPickerModal.ArrowLeft = i)
  ∧ (step i IconPickerModal.ArrowLeft ≠ i →
     step (step i IconPickerModal.ArrowLeft) IconPickerModal.ArrowRight = i)
  ∧ (step i IconPickerModal.ArrowDown ≠ i →
     step (step i IconPickerModal.ArrowDown) IconPickerModal.ArrowUp = i)
  ∧ (step i IconPickerModal.ArrowUp ≠ i →
     step (step i IconPickerModal.ArrowUp) IconPickerModal.ArrowDown = i).
Proof.
  intros Hcols Hi step. subst step.
  assert (Hmod : 0 ≤ i mod cols < cols) by (apply Z.mod_pos_bound; lia).
  assert (Hdiv : i = cols * (i / cols) + i mod cols) by (apply Z.div_mod; lia).
  assert (Hmodle : i mod cols ≤ i) by (apply Z.mod_le; lia).
  destruct (gridStep_arrows cols n i Hcols Hi) as (Hl & Hr & Hu & Hd).
  rewrite Hl, Hr, Hu, Hd. clear Hl Hr Hu Hd.
  repeat split.
  - destruct (decide _) as [[H1 H2]|_]; [intros _|done].
    destruct (gridStep_arrows cols n (i + 1) Hcols ltac:(lia)) as (-> & _).
    assert ((i + 1) mod cols = i mod cols + 1) as ->.
    { symmetry. apply (Z.mod_unique_pos _ _ (i / cols)); lia. }
    destruct (decide _); lia.
  - destruct (decide _) as [H1|_]; [intros _|done].
    destruct (gridStep_arrows cols n (i - 1) Hcols ltac:(lia)) as (_ & -> & _).
    assert ((i - 1) mod cols = i mod cols - 1) as ->.
    { symmetry. apply (Z.mod_unique_pos _ _ (i / cols)); lia. }
    destruct (decide _); lia.
  - destruct (decide _) as [H1|_]; [intros _|done].
    destruct (gridStep_arrows cols n (i + cols) Hcols ltac:(lia)) as (_ & _ & -> & _).
    destruct (decide _); lia.
  - destruct (decide _) as [H1|_]; [intros _|done].
    destruct (gridStep_arrows cols n (i - cols) Hcols ltac:(lia)) as (_ & _ & _ & ->).
    destruct (decide _); lia.
Qed.

Lemma grid_step_back_witness :
  0 < 5 ∧ 0 ≤ 3 < 12
  ∧ IconPickerModal.gridStep 5 12 3 IconPickerModal.ArrowDown ≠ 3
  ∧ IconPickerModal.gridStep 5 12
      (IconPickerModal.gridStep 5 12 3 IconPickerModal.ArrowDown)
      IconPickerModal.ArrowUp = 3.
Proof.
  split; [lia|]. split; [lia|].
  assert (H : IconPickerModal.gridStep 5 12 3 IconPickerModal.ArrowDown ≠ 3)
    by (vm_compute; discriminate).
  split; [exact H|].
  exact (proj1 (proj2 (proj2 (grid_step_back 5 12 3 ltac:(lia) ltac:(lia)))) H).
Defined.

(** *** Narrowing a search *)

Lemma occursIn_trans (a b c : jsstring) : occursIn a b → occursIn b c → occursIn a c.
Proof.
  intros (p1 & q1 & ->) (p2 & q2 & ->). exists (p2 ++ p1), (q1 ++ q2).
  by rewrite <- !app_assoc.
Qed.

(** A longer search term never adds matches: when one term contains
    another, the icons that match the longer one are among those that
    match the shorter one, in the same order. *)
Theorem search_narrows (toLowerCase toUpperCase : jsstring → jsstring)
    (shorter longer : jsstring) (catalog : list jsstring) :
  occursIn shorter longer →
  filter (λ id, IconPickerModal.iconMatches toLowerCase toUpperCase longer id = true) catalog
  `sublist_of`
  filter (λ id, IconPickerModal.iconMatches toLowerCase toUpperCase shorter id = true) catalog.
Proof.
  intros Hin.
  rewrite <- (list_filter_filter_l
    (λ id, IconPickerModal.iconMatches toLowerCase toUpperCase longer id = true)
    (λ id, IconPickerModal.iconMatches toLowerCase toUpperCase shorter id = true)).
  - apply sublist_filter.
  - intros id. rewrite !iconMatches_matchesTerm.
    intros [H|(name & Hname & H)]; [left|right; exists name; split; [done|]];
      by eapply occursIn_trans.
Qed.

Lemma search_narrows_witness :
  occursIn (u16 "fold") (u16 "folder")
  ∧ filter (λ id, IconPickerModal.iconMatches IconPickerModal.asciiLower
                    IconPickerModal.asciiUpper (u16 "folder") id = true) sampleCatalog
    `sublist_of`
    filter (λ id, IconPickerModal.iconMatches IconPickerModal.asciiLower
                    IconPickerModal.asciiUpper (u16 "fold") id = true) sampleCatalog.
Proof.
  assert (H : occursIn (u16 "fold") (u16 "folder")) by (by exists [], (u16 "er")).
  split; [exact H|].
  exact (search_narrows IconPickerModal.asciiLower IconPickerModal.asciiUpper
           (u16 "fold") (u16 "folder") sampleCatalog H).
Defined.

(** *** What is never an emoji *)

Lemma stringIterator_join (s : jsstring) : mjoin (stringIterator s) = s.
Proof.
  induction s as [|u|hi lo rest E IH|u v rest E IH] using stringIterator_ind.
  - done.
  - done.
  - change (stringIterator (hi :: lo :: rest)) with
      (if isHighSurrogate hi && isLowSurrogate lo
       then [hi; lo] :: stringIterator rest
       else [hi] :: stringIterator (lo :: rest)).
    rewrite E.
    change (mjoin ([hi; lo] :: stringIterator rest))
      with ([hi; lo] ++ mjoin (stringIterator rest)).
    by rewrite IH.
  - change (stringIterator (u :: v :: rest)) with
      (if isHighSurrogate u && isLowSurrogate v
       then [u; v] :: stringIterator rest
       else [u] :: stringIterator (v :: rest)).
    rewrite E.
    change (mjoin ([u] :: stringIterator (v :: rest)))
      with ([u] ++ mjoin (stringIterator (v :: rest))).
    by rewrite IH.
Qed.

(** Text whose code units are all below U+20D0 (ASCII, Latin, Greek,
    Cyrillic, ...) never classifies as emoji; so such an entry of the
    recently-used list that the catalog has is always kept as an icon. *)
Theorem no_emoji_below_20D0 (s : jsstring) :
  Forall (λ u, u < 0x20D0) s →
  isEmoji (JString s) = false
  ∧ ∀ getIconIds itemPath recent itemType,
      s ∈ recent → s ∈ getIconIds →
      s ∈ IconPickerModal.recentlyUsedIcons
            (IconPickerModal.constructor getIconIds itemPath (Some recent) itemType).
Proof.
  intros Hlow.
  assert (Hno : isEmoji (JString s) = false).
  { destruct s as [|u s']; [done|].
    change (isEmoji (JString (u :: s'))) with (emojiRegexTest (u :: s')).
    apply not_true_is_false. intros H.
    apply emojiRegexTest_code_points in H as (c & Hc & Hm).
    assert (Hunits : Forall (λ u, u < 0x20D0) c).
    { rewrite Forall_forall in Hlow |- *. intros x Hx. apply Hlow.
      rewrite <- (stringIterator_join (u :: s')). apply list_elem_of_join. by exists c. }
    apply emojiClassMatch_ranges in Hm as (r & Hr & Hb).
    assert (Hmin : 0x20D0 ≤ r.1).
    { unfold emojiRanges in Hr.
      repeat (apply elem_of_cons in Hr as [->|Hr]; [simpl; lia|]).
      by apply elem_of_nil in Hr. }
    destruct (stringIterator_elements _ _ Hc) as [x|hi lo E].
    - apply Forall_cons in Hunits as [Hx _]. simpl in Hb. lia.
    - apply Forall_cons in Hunits as [Hhi _].
      apply andb_true_iff in E as [E _]. unfold isHighSurrogate in E. lia. }
  split; [exact Hno|].
  intros getIconIds itemPath recent itemType Hrecent Hcat.
  cbn -[isEmoji]. apply list_elem_of_filter. split; [|done].
  rewrite Hno. simpl. by apply bool_decide_eq_true.
Qed.

Lemma no_emoji_below_20D0_witness :
  Forall (λ u, u < 0x20D0) (u16 "lucide-star")
  ∧ isEmoji (JString (u16 "lucide-star")) = false.
Proof.
  assert (H : Forall (λ u, u < 0x20D0) (u16 "lucide-star"))
    by (repeat constructor).
  split; [exact H|]. exact (proj1 (no_emoji_below_20D0 (u16 "lucide-star") H)).
Defined.

(** *** The emoji text field, continued *)

Lemma handleInputChange_empty (value : jsstring) :
  EmojiPicker.handleInputChange value = [] ↔ value = [].
Proof.
  rewrite handleInputChange_hd. split; [|by intros ->].
  intros H. destruct (decide (value = [])) as [|Hne]; [done|].
  apply stringIterator_nonempty in Hne.
  destruct (stringIterator value) as [|c cs] eqn:E; [done|].
  simpl in H. subst c.
  assert (Hc : OneCodePoint []).
  { apply (stringIterator_elements value). rewrite E. left. }
  inversion Hc.
Qed.

(** What the input handler keeps is a prefix of what was typed, is not
    empty unless the typed text is, and is kept as it is when it goes
    through the handler again. *)
Theorem handleInputChange_idempotent (value : jsstring) :
  EmojiPicker.handleInputChange value `prefix_of` value
  ∧ (EmojiPicker.handleInputChange value = [] ↔ value = [])
  ∧ EmojiPicker.handleInputChange (EmojiPicker.handleInputChange value)
    = EmojiPicker.handleInputChange value.
Proof.
  split.
  { unfold EmojiPicker.handleInputChange, jsSlice.
    assert (sliceIndex (Z.of_nat (length value)) 0 = 0) as ->.
    { unfold sliceIndex. replace (0 <? 0) with false by reflexivity. lia. }
    change (Z.to_nat 0) with 0%nat. rewrite drop_0. apply prefix_take. }
  split; [apply handleInputChange_empty|].
  destruct (handleInputChange_shape value) as [->|H]; [done|].
  rewrite (handleInputChange_hd (EmojiPicker.handleInputChange value)).
  by rewrite (stringIterator_one _ H).
Qed.

(** *** The icons tab with nothing to search for *)

Lemma updateResults_empty_term (toLowerCase toUpperCase : jsstring → jsstring)
    (strings : IconPickerModal.IconPickerStrings) (m : IconPickerModal.Modal) :
  IconPickerModal.activeTab m = IconPickerModal.IconsTab →
  is_Some (IconPickerModal.resultsContainer m) →
  searchTermOf toLowerCase m = [] →
  IconPickerModal.updateResults toLowerCase toUpperCase strings m
  = IconPickerModal.withResults m
      (match IconPickerModal.recentlyUsedIcons m with
       | [] => [IconPickerModal.EmptyMessage (IconPickerModal.emptyStateSearch strings)]
       | _ => [IconPickerModal.SectionHeader (IconPickerModal.recentlyUsedHeader strings);
               IconPickerModal.IconGrid
                 (IconPickerModal.createIconItem toUpperCase
                    <$> IconPickerModal.recentlyUsedIcons m)]
       end).
Proof.
  intros Htab [nodes Hnodes] Hterm.
  unfold IconPickerModal.updateResults. rewrite Hnodes, Htab. f_equal.
  unfold IconPickerModal.iconResults.
  fold (searchTermOf toLowerCase m). rewrite Hterm.
  rewrite bool_decide_eq_true_2 by done.
  by destruct (IconPickerModal.recentlyUsedIcons m).
Qed.

(** With an empty search term the icons tab shows the recently used
    icons, all of them and in their order (the cap of 50 is for search
    results only), and no overflow message; without recently used icons
    it shows the start-typing message alone. The tracked focus index is
    reset. *)
Theorem empty_search_shows_recent (toLowerCase toUpperCase : jsstring → jsstring)
    (strings : IconPickerModal.IconPickerStrings) (m : IconPickerModal.Modal) :
  IconPickerModal.activeTab m = IconPickerModal.IconsTab →
  is_Some (IconPickerModal.resultsContainer m) →
  searchTermOf toLowerCase m = [] →
  let m' := IconPickerModal.updateResults toLowerCase toUpperCase strings m in
  IconPickerModal.displayedIcons m' = IconPickerModal.recentlyUsedIcons m
  ∧ IconPickerModal.moreMessages (default [] (IconPickerModal.resultsContainer m')) = []
  ∧ (IconPickerModal.recentlyUsedIcons m = [] →
     IconPickerModal.resultsContainer m'
     = Some [IconPickerModal.EmptyMessage (IconPickerModal.emptyStateSearch strings)])
  ∧ IconPickerModal.focusedIndex m' = -1.
Proof.
  intros Htab Hcont Hterm m'. subst m'.
  rewrite (updateResults_empty_term _ _ _ _ Htab Hcont Hterm).
  unfold IconPickerModal.displayedIcons.
  destruct (IconPickerModal.recentlyUsedIcons m) as [|icon recent] eqn:E.
  - done.
  - repeat split; try done. simpl.
    rewrite app_nil_r. f_equal. apply displayed_createIconItem.
Qed.

Lemma empty_search_shows_recent_witness :
  IconPickerModal.activeTab sampleOpened = IconPickerModal.IconsTab
  ∧ is_Some (IconPickerModal.resultsContainer sampleOpened)
  ∧ searchTermOf IconPickerModal.asciiLower sampleOpened = []
  ∧ IconPickerModal.displayedIcons
      (IconPickerModal.updateResults IconPickerModal.asciiLower
         IconPickerModal.asciiUpper IconPickerModal.zh sampleOpened)
    = IconPickerModal.recentlyUsedIcons sampleOpened.
Proof.
  assert (H1 : IconPickerModal.activeTab sampleOpened = IconPickerModal.IconsTab)
    by reflexivity.
  assert (H2 : is_Some (IconPickerModal.resultsContainer sampleOpened))
    by (eexists; reflexivity).
  assert (H3 : searchTermOf IconPickerModal.asciiLower sampleOpened = [])
    by reflexivity.
  split; [exact H1|]. split; [exact H2|]. split; [exact H3|].
  exact (proj1 (empty_search_shows_recent IconPickerModal.asciiLower
                  IconPickerModal.asciiUpper IconPickerModal.zh sampleOpened H1 H2 H3)).
Defined.

(** *** What the emoji tab hands to the selection *)

Lemma run_recent (inputValue : jsstring) (es : list EmojiPicker.Event) (e : jsstring) :
  EmojiPicker.Recent e ∈ (EmojiPicker.run inputValue es).2 →
  EmojiPicker.RecentEmojiClick e ∈ es.
Proof.
  revert inputValue. induction es as [|ev es IH]; intros inputValue; simpl.
  - intros H. by apply elem_of_nil in H.
  - assert (Hsub : EmojiPicker.Recent e ∉ EmojiPicker.handleSubmit inputValue).
    { unfold EmojiPicker.handleSubmit.
      destruct (truthy _ && isEmoji _).
      - intros H. apply list_elem_of_singleton in H. discriminate.
      - apply not_elem_of_nil. }
    destruct ev as [value| |key|emoji]; simpl.
    + specialize (IH (EmojiPicker.handleInputChange value)).
      destruct (EmojiPicker.run _ es). simpl in *. intros H. right. auto.
    + specialize (IH inputValue).
      destruct (EmojiPicker.run _ es). simpl in *. intros H.
      apply elem_of_app in H as [H|H]; [done|]. right. auto.
    + specialize (IH inputValue).
      destruct (EmojiPicker.run _ es). simpl in *. intros H.
      apply elem_of_app in H as [H|H]; [|right; auto].
      case_bool_decide; [done|]. by apply elem_of_nil in H.
    + specialize (IH inputValue).
      destruct (EmojiPicker.run _ es). simpl in *. intros H.
      apply elem_of_cons in H as [[= ->]|H]; [left|right; auto].
Qed.

(** Whatever the emoji tab of a constructed modal passes to the
    selection classifies as emoji: a submitted value was checked, and
    the recently-used buttons are those of the modal's emoji list, which
    the constructor filtered. *)
Theorem emoji_tab_selects_emoji (getIconIds : list jsstring) (itemPath : jsstring)
    (recent : option (list jsstring)) (itemType : option ItemType)
    (es : list EmojiPicker.Event) :
  let m := IconPickerModal.constructor getIconIds itemPath recent itemType in
  (∀ e, EmojiPicker.RecentEmojiClick e ∈ es → e ∈ IconPickerModal.recentlyUsedEmojis m) →
  Forall (λ call, isEmoji (JString (selectedEmoji call)) = true)
         (EmojiPicker.run EmojiPicker.initialInputValue es).2.
Proof.
  intros m Hbuttons. apply Forall_forall. intros [e|e] Hcall; simpl.
  - pose proof (run_invariant EmojiPicker.initialInputValue es (or_introl eq_refl)) as H.
    rewrite Forall_forall in H. by destruct (H _ Hcall).
  - apply run_recent, Hbuttons in Hcall. subst m.
    cbn -[isEmoji] in Hcall. apply list_elem_of_filter in Hcall as [H _]. exact H.
Qed.

Lemma emoji_tab_selects_emoji_witness :
  let m := IconPickerModal.constructor sampleCatalog (u16 "Projects")
             (Some [[0x2600]; u16 "lucide-star"]) None in
  let es := [EmojiPicker.RecentEmojiClick [0x2600];
             EmojiPicker.InputChange [0xD83C; 0xDFA8]; EmojiPicker.SubmitClick] in
  (∀ e, EmojiPicker.RecentEmojiClick e ∈ es → e ∈ IconPickerModal.recentlyUsedEmojis m)
  ∧ Forall (λ call, isEmoji (JString (selectedEmoji call)) = true)
           (EmojiPicker.run EmojiPicker.initialInputValue es).2.
Proof.
  intros m es.
  assert (H : ∀ e, EmojiPicker.RecentEmojiClick e ∈ es →
                   e ∈ IconPickerModal.recentlyUsedEmojis m).
  { intros e He. subst es.
    repeat (apply elem_of_cons in He as [He|He]; [try discriminate He|]).
    - injection He as ->. vm_compute. left.
    - by apply elem_of_nil in He. }
  split; [exact H|].
  exact (emoji_tab_selects_emoji sampleCatalog (u16 "Projects")
           (Some [[0x2600]; u16 "lucide-star"]) None es H).
Defined.

(** *** The sort resolver, continued *)

(** A folder selection is resolved from the folder overrides and the
    default alone: the tag overrides and the selected tag do not matter;
    likewise a tag selection does not depend on the folder overrides or
    the selected folder; and any other selection type gets the default. *)
Theorem effective_sort_independent (s1 s2 : NotebookNavigatorSettings) :
  defaultFolderSort s1 = defaultFolderSort s2 →
  (folderSortOverrides s1 = folderSortOverrides s2 →
   ∀ folder tag1 tag2,
     getEffectiveSortOption s1 FOLDER folder tag1
     = getEffectiveSortOption s2 FOLDER folder tag2)
  ∧ (tagSortOverrides s1 = tagSortOverrides s2 →
     ∀ folder1 folder2 tag,
       getEffectiveSortOption s1 TAG folder1 tag
       = getEffectiveSortOption s2 TAG folder2 tag)
  ∧ (∀ folder tag, getEffectiveSortOption s1 FILE folder tag = defaultFolderSort s1).
Proof.
  intros Hdef. unfold getEffectiveSortOption. repeat split.
  - intros Hf folder tag1 tag2. simpl. by rewrite Hf, Hdef.
  - intros Ht folder1 folder2 tag. simpl. by rewrite Ht, Hdef.
Qed.

Lemma effective_sort_independent_witness :
  let projects := {| folderPath := u16 "Projects"; folderName := u16 "Projects" |} in
  defaultFolderSort settingsOverrides = defaultFolderSort settingsOtherTags
  ∧ folderSortOverrides settingsOverrides = folderSortOverrides settingsOtherTags
  ∧ getEffectiveSortOption settingsOverrides FOLDER (Some projects) (Some (u16 "todo"))
    = getEffectiveSortOption settingsOtherTags FOLDER (Some projects) None.
Proof.
  intros projects. split; [reflexivity|]. split; [reflexivity|].
  exact (proj1 (effective_sort_independent settingsOverrides settingsOtherTags eq_refl)
           eq_refl (Some projects) (Some (u16 "todo")) None).
Defined.

(** *** The feature image, continued *)

Lemma featureImageUrl_priority_witness :
  let cache := cacheWith stringCover [] in
  showFeatureImage settingsCover = true
  ∧ stringProperties settingsCover cache sampleNote
  ∧ FileItem.featureImageUrl imageByExtension settingsCover cache readyVault sampleNote
    = Normal (featureImagePriority imageByExtension settingsCover cache readyVault sampleNote).
Proof.
  intros cache.
  assert (H : stringProperties settingsCover cache sampleNote).
  { intros property Hp. simpl in Hp.
    repeat (apply elem_of_cons in Hp as [->|Hp]; [vm_compute; exact I|]).
    by apply elem_of_nil in Hp. }
  split; [reflexivity|]. split; [exact H|].
  exact (featureImageUrl_priority imageByExtension settingsCover cache readyVault
           sampleNote eq_refl H).
Defined.

(** A configured property that bears the name of a member of
    [Object.prototype] does not hold a string in any note without a
    property of that name: the lookup finds the inherited function, and
    the computation stops there. *)
Example feature_image_inherited_property :
  let cache := cacheWith stringCover [] in
  FileItem.frontmatterAt (getFileCache cache sampleNote) (u16 "constructor") = JObject
  ∧ ¬ stringProperties settingsInherited cache sampleNote
  ∧ FileItem.featureImageUrl imageByExtension settingsInherited cache readyVault sampleNote
    = Throw TypeError.
Proof.
  intros cache. split; [by vm_compute|]. split; [|by vm_compute].
  intros H. specialize (H (u16 "constructor") ltac:(left)).
  by vm_compute in H.
Qed.

(** *** Sorting, continued *)

Section ArraySortStable.
Context {A : Type} (cmp : A → A → Z).
Hypothesis cmp_trans : ∀ a b c, cmp a b ≤ 0 → cmp b c ≤ 0 → cmp a c ≤ 0.

Lemma sortInsert_filter_other (P : A → Prop) `{!∀ x, Decision (P x)}
    (x : A) (s : list A) :
  ¬ P x → filter P (sortInsert cmp x s) = filter P s.
Proof.
  intros Hx. induction s as [|y s IH]; simpl.
  - by rewrite filter_cons_False.
  - destruct (cmp x y <=? 0).
    + by rewrite filter_cons_False.
    + rewrite !filter_cons. by rewrite IH.
Qed.

Lemma sortInsert_filter_tie (a x : A) (s : list A) :
  cmp a x ≤ 0 ∧ cmp x a ≤ 0 →
  filter (λ b, cmp a b ≤ 0 ∧ cmp b a ≤ 0) (sortInsert cmp x s)
  = x :: filter (λ b, cmp a b ≤ 0 ∧ cmp b a ≤ 0) s.
Proof.
  intros [Hax Hxa]. induction s as [|y s IH]; simpl.
  - by rewrite filter_cons_True.
  - destruct (Z.leb_spec (cmp x y) 0) as [Hxy|Hxy].
    + by rewrite filter_cons_True.
    + rewrite (filter_cons_False _ y).
      * rewrite IH. by rewrite filter_cons_False by (intros [Hay _]; pose proof (cmp_trans x a y); lia).
      * intros [Hay _]. pose proof (cmp_trans x a y). lia.
Qed.

Lemma arraySort_stable (a : A) (l : list A) :
  filter (λ b, cmp a b ≤ 0 ∧ cmp b a ≤ 0) (arraySort cmp l)
  = filter (λ b, cmp a b ≤ 0 ∧ cmp b a ≤ 0) l.
Proof.
  induction l as [|x l IH]; [done|]. simpl.
  destruct (decide (cmp a x ≤ 0 ∧ cmp x a ≤ 0)) as [Hx|Hx].
  - rewrite sortInsert_filter_tie by done. rewrite filter_cons_True by done.
    by rewrite IH.
  - rewrite sortInsert_filter_other by done. rewrite filter_cons_False by done.
    exact IH.
Qed.
End ArraySortStable.

(** Files that tie on the sort field keep the order they came in: for
    every file, the files that tie with it appear in the output in the
    same order as in the input, under each of the six options. *)
Theorem sortFiles_keeps_ties
    (getFileTimestamp : TFile → DateField → NotebookNavigatorSettings → MetadataCache → Z)
    (localeCompare : jsstring → jsstring → Z)
    (settings : NotebookNavigatorSettings) (metadataCache : MetadataCache)
    (files : list TFile) (o : SortOption) (a : TFile) :
  consistentCompare localeCompare →
  let ties b :=
    inDeclaredOrder getFileTimestamp localeCompare settings metadataCache o a b
    ∧ inDeclaredOrder getFileTimestamp localeCompare settings metadataCache o b a in
  filter ties (sortFiles getFileTimestamp localeCompare files o settings metadataCache)
  = filter ties files.
Proof.
  intros Hlc ties. rewrite sortFiles_comparefn.
  set (cmp := comparefn getFileTimestamp localeCompare settings metadataCache o).
  assert (Hties : ∀ l : list TFile,
            filter ties l = filter (λ b, cmp a b ≤ 0 ∧ cmp b a ≤ 0) l).
  { intros l. apply list_filter_iff. intros b. subst ties cmp.
    by rewrite !comparefn_declared. }
  rewrite !Hties. apply arraySort_stable.
  intros x y z. by apply comparefn_trans.
Qed.

Lemma sortFiles_keeps_ties_witness :
  let files := [noteAt "b" 7; noteAt "c" 3; noteAt "a" 7] in
  let ties b :=
    inDeclaredOrder statTimestamp codeUnitCompare settingsOverrides emptyCache
      ModifiedDesc (noteAt "a" 7) b
    ∧ inDeclaredOrder statTimestamp codeUnitCompare settingsOverrides emptyCache
        ModifiedDesc b (noteAt "a" 7) in
  consistentCompare codeUnitCompare
  ∧ filter ties (sortFiles statTimestamp codeUnitCompare files ModifiedDesc
                   settingsOverrides emptyCache)
    = filter ties files.
Proof.
  intros files ties. split; [exact codeUnitCompare_consistent|].
  exact (sortFiles_keeps_ties statTimestamp codeUnitCompare settingsOverrides emptyCache
           files ModifiedDesc (noteAt "a" 7) codeUnitCompare_consistent).
Defined.

(** *** The helpers on sort options *)

(** Read off the option's string as the source does, the helpers follow
    the declared pair: the icon is [sort-desc] exactly for the
    descending options, date grouping is off exactly for the title
    sorts, and the date field is the creation time exactly for the
    created sorts (so the modification time for title sorts too). The
    menu lists each of the six options once. *)
Theorem sort_option_helpers (o : SortOption) :
  OnStrings.getSortIcon (sortOptionValue o)
    = (match sortDirection o with
       | Descending => u16 "sort-desc"
       | Ascending => u16 "sort-asc"
       end)
  ∧ OnStrings.shouldShowDateGrouping (sortOptionValue o)
    = (match sortField o with ByTitle => false | _ => true end)
  ∧ OnStrings.getDateField (sortOptionValue o)
    = (match sortField o with ByCreated => Created | _ => Modified end)
  ∧ OnStrings.getSortIcon (sortOptionValue o) = getSortIcon o
  ∧ OnStrings.shouldShowDateGrouping (sortOptionValue o) = shouldShowDateGrouping o
  ∧ OnStrings.getDateField (sortOptionValue o) = getDateField o
  ∧ o ∈ SORT_OPTIONS
  ∧ NoDup SORT_OPTIONS
  ∧ sortOptionOf (sortField o) (sortDirection o) = o.
Proof.
  repeat split; try (by destruct o).
  - destruct o; by apply (bool_decide_unpack _).
  - by apply (bool_decide_unpack _).
Qed.

(** *** The modal in use *)

Section SessionFacts.
Variable toLowerCase : jsstring → jsstring.
Variable toUpperCase : jsstring → jsstring.
Variable strings : IconPickerModal.IconPickerStrings.

Local Abbreviation itemsOf m :=
  (IconPickerModal.iconItems (default [] (IconPickerModal.resultsContainer m))).

Lemma iconResults_ids (m : IconPickerModal.Modal) (id : jsstring) :
  id ∈ IconPickerModal.dataIconId <$>
       IconPickerModal.iconItems
         (IconPickerModal.iconResults toLowerCase toUpperCase strings m) →
  id ∈ IconPickerModal.recentlyUsedIcons m ∨ id ∈ IconPickerModal.allIcons m.
Proof.
  destruct (decide (searchTermOf toLowerCase m = [])) as [Hterm|Hterm].
  - unfold IconPickerModal.iconResults. fold (searchTermOf toLowerCase m).
    rewrite Hterm, bool_decide_eq_true_2 by done.
    destruct (IconPickerModal.recentlyUsedIcons m) as [|icon recent] eqn:E.
    + simpl. intros Hin. by apply elem_of_nil in Hin.
    + simpl. rewrite app_nil_r.
      change (IconPickerModal.createIconItem toUpperCase icon
              :: (IconPickerModal.createIconItem toUpperCase <$> recent))
        with (IconPickerModal.createIconItem toUpperCase <$> icon :: recent).
      rewrite displayed_createIconItem. by left.
  - destruct (iconResults_search toLowerCase toUpperCase strings m Hterm) as [-> _].
    rewrite displayed_createIconItem. intros Hin. right.
    apply (subseteq_take 50 _ id) in Hin. by apply list_elem_of_filter in Hin as [_ Hin].
Qed.

Lemma updateResults_modal (m : IconPickerModal.Modal) :
  is_Some (IconPickerModal.resultsContainer m) →
  IconPickerModal.recentlyUsedIcons m ⊆ IconPickerModal.allIcons m →
  let m' := IconPickerModal.updateResults toLowerCase toUpperCase strings m in
  IconPickerModal.allIcons m' = IconPickerModal.allIcons m
  ∧ IconPickerModal.recentlyUsedIcons m' = IconPickerModal.recentlyUsedIcons m
  ∧ IconPickerModal.focusedIndex m' = -1
  ∧ is_Some (IconPickerModal.resultsContainer m')
  ∧ IconPickerModal.displayedIcons m' ⊆ IconPickerModal.allIcons m.
Proof.
  intros [nodes Hnodes] Hrecent. unfold IconPickerModal.updateResults.
  rewrite Hnodes. case_bool_decide as Htab; simpl.
  - repeat split; [by eexists|]. intros id Hid. by apply elem_of_nil in Hid.
  - repeat split; [by eexists|]. intros id Hid.
    unfold IconPickerModal.displayedIcons in Hid. simpl in Hid.
    apply iconResults_ids in Hid as [Hid|Hid]; [by apply Hrecent|done].
Qed.

Lemma no_pending (s : PickerSession.Session) :
  (∀ id, id ∈ PickerSession.pendingTimers s →
         PickerSession.searchDebounceTimer s = Some id) →
  match PickerSession.searchDebounceTimer s with
  | Some t => filter (λ id, id ≠ t) (PickerSession.pendingTimers s)
  | None => PickerSession.pendingTimers s
  end = [].
Proof.
  intros Hrec. destruct (PickerSession.searchDebounceTimer s) as [t|] eqn:E.
  - apply elem_of_nil_inv. intros id Hid.
    apply list_elem_of_filter in Hid as [Hne Hid].
    apply Hrec in Hid. congruence.
  - apply elem_of_nil_inv. intros id Hid. apply Hrec in Hid. congruence.
Qed.

Lemma updateResults_Invariant (s : PickerSession.Session) :
  PickerSession.isOpen s = true →
  is_Some (IconPickerModal.resultsContainer (PickerSession.modal s)) →
  (∀ id, id ∈ PickerSession.pendingTimers s →
         PickerSession.searchDebounceTimer s = Some id) →
  NoDup (PickerSession.pendingTimers s) →
  PickerSession.mountedRoots s = (if PickerSession.reactRoot s then 1%nat else 0%nat) →
  IconPickerModal.recentlyUsedIcons (PickerSession.modal s)
    ⊆ IconPickerModal.allIcons (PickerSession.modal s) →
  PickerSession.Invariant
    (PickerSession.updateResults toLowerCase toUpperCase strings s).
Proof.
  intros Hopen Hcont Hrec Hdup Hroots Hrecent.
  destruct (updateResults_modal (PickerSession.modal s) Hcont Hrecent)
    as (Hall & Hrecents & Hidx & Hcont' & Hshown).
  unfold PickerSession.updateResults. destruct Hcont as [nodes Hnodes]. rewrite Hnodes.
  constructor; simpl; try done.
  - rewrite Hroots. by destruct (PickerSession.reactRoot s); case_bool_decide.
  - rewrite Hopen. done.
  - intros i. case_bool_decide; [done|]. by destruct (PickerSession.focus s).
  - by left.
  - by rewrite Hall, Hrecents.
  - by rewrite Hall.
Qed.

Lemma withModal_focus_Invariant (s : PickerSession.Session) (f : IconPickerModal.Focus) :
  PickerSession.Invariant s →
  (∀ i, f = IconPickerModal.OnIconItem i →
        0 ≤ i < Z.of_nat (length (itemsOf (PickerSession.modal s)))) →
  PickerSession.Invariant (PickerSession.withModal s (PickerSession.modal s) f).
Proof. intros [] Hf. by constructor. Qed.

Lemma withFocusedIndex_Invariant (s : PickerSession.Session) (j : Z)
    (f : IconPickerModal.Focus) :
  PickerSession.Invariant s →
  j = -1 ∨ 0 ≤ j < Z.of_nat (length (itemsOf (PickerSession.modal s))) →
  (∀ i, f = IconPickerModal.OnIconItem i →
        0 ≤ i < Z.of_nat (length (itemsOf (PickerSession.modal s)))) →
  PickerSession.Invariant
    (PickerSession.withModal s
       (IconPickerModal.withFocusedIndex (PickerSession.modal s) j) f).
Proof. intros [] Hj Hf. by constructor. Qed.

Lemma contentKeydown_Invariant (s : PickerSession.Session) (key : IconPickerModal.Key) :
  PickerSession.Invariant s →
  PickerSession.Invariant (PickerSession.contentKeydown s key).1.
Proof.
  intros Hinv. unfold PickerSession.contentKeydown, IconPickerModal.contentElKeydownHandler.
  set (items := itemsOf (PickerSession.modal s)).
  assert (Hsame : PickerSession.Invariant
            (PickerSession.withModal s (PickerSession.modal s) (PickerSession.focus s))).
  { apply withModal_focus_Invariant; [done|]. apply (PickerSession.focus_exists s Hinv). }
  destruct (Z.of_nat (length items) =? 0); [exact Hsame|].
  destruct (PickerSession.focus s) as [|cur|] eqn:Ef; try exact Hsame.
  pose proof (PickerSession.focus_exists s Hinv cur Ef) as Hcur. fold items in Hcur.
  assert (Hmove : ∀ k,
    PickerSession.Invariant
      (let '(m, f, selected) :=
         if IconPickerModal.gridStep (IconPickerModal.gridColumns (PickerSession.modal s))
              (Z.of_nat (length items)) cur k =? cur
         then (PickerSession.modal s, IconPickerModal.OnIconItem cur, @None jsstring)
         else (IconPickerModal.withFocusedIndex (PickerSession.modal s)
                 (IconPickerModal.gridStep
                    (IconPickerModal.gridColumns (PickerSession.modal s))
                    (Z.of_nat (length items)) cur k),
               IconPickerModal.OnIconItem
                 (IconPickerModal.gridStep
                    (IconPickerModal.gridColumns (PickerSession.modal s))
                    (Z.of_nat (length items)) cur k), None)
       in (PickerSession.withModal s m f, selected)).1).
  { intros k.
    pose proof (gridStep_bounds (IconPickerModal.gridColumns (PickerSession.modal s))
                  (Z.of_nat (length items)) cur k Hcur) as Hj.
    destruct (_ =? cur); simpl.
    - exact Hsame.
    - apply withFocusedIndex_Invariant; [done|by right|].
      intros i [= <-]. exact Hj. }
  destruct key as [shift| | | | | | |]; try apply Hmove.
  - destruct shift; simpl.
    + apply withFocusedIndex_Invariant; [done|by left|done].
    + exact Hsame.
  - simpl. exact Hsame.
  - simpl. exact Hsame.
Qed.

Lemma focusFirstIcon_Invariant (s : PickerSession.Session) :
  PickerSession.Invariant s → PickerSession.Invariant (PickerSession.focusFirstIcon s).
Proof.
  intros Hinv. unfold PickerSession.focusFirstIcon.
  destruct (itemsOf (PickerSession.modal s)) as [|item items] eqn:E; [done|].
  apply withFocusedIndex_Invariant; [done| |]; rewrite E; simpl.
  - right; lia.
  - intros i [= <-]. lia.
Qed.

Lemma step_Invariant (s : PickerSession.Session) (e : PickerSession.UIEvent) :
  PickerSession.Invariant s →
  PickerSession.Invariant (PickerSession.step toLowerCase toUpperCase strings s e).1.
Proof.
  intros Hinv.
  pose proof Hinv as [Hrec Hdup Hroots Hclosed Hopen Hfocus Htracked Hrecent Hshown].
  destruct e as [| |value|id|tab|key|index]; simpl.
  - destruct (PickerSession.isOpen s) eqn:Eo; [done|].
    destruct (Hclosed eq_refl) as (Hp & Hr & Hk).
    apply updateResults_Invariant; simpl; try done.
  - destruct (PickerSession.isOpen s) eqn:Eo; [|done]. simpl.
    constructor; simpl; rewrite ?(no_pending s Hrec); try done.
    + intros id Hid. by apply elem_of_nil in Hid.
    + constructor.
    + rewrite Hroots. by destruct (PickerSession.reactRoot s).
  - destruct (PickerSession.isOpen s) eqn:Eo; [|done]. simpl.
    constructor; simpl; rewrite ?(no_pending s Hrec), ?Eo; try done.
    + intros id Hid. apply list_elem_of_singleton in Hid. by subst.
    + apply NoDup_singleton.
  - unfold PickerSession.onTimer. case_bool_decide as Hid; [|done].
    destruct (PickerSession.isOpen s) eqn:Eo.
    + apply updateResults_Invariant; simpl; try done.
      * by apply Hopen.
      * intros t Ht. apply list_elem_of_filter in Ht as [_ Ht]. by apply Hrec.
      * by apply NoDup_filter.
    + destruct (Hclosed eq_refl) as (Hp & _). rewrite Hp in Hid.
      by apply elem_of_nil in Hid.
  - destruct (PickerSession.isOpen s) eqn:Eo; [|done]. simpl.
    assert (Hswitched : PickerSession.Invariant
              (PickerSession.updateResults toLowerCase toUpperCase strings
                 (PickerSession.withModal s
                    (PickerSession.withView (PickerSession.modal s) tab []
                       (IconPickerModal.resultsContainer (PickerSession.modal s)))
                    (PickerSession.focus s)))).
    { apply updateResults_Invariant; simpl; try done. by apply Hopen. }
    unfold PickerSession.switchTab. destruct tab; [|exact Hswitched].
    by apply withModal_focus_Invariant.
  - destruct (PickerSession.isOpen s && PickerSession.keyHandlers s); [|done].
    unfold PickerSession.keydown.
    destruct (PickerSession.focus s) eqn:Ef; try by apply contentKeydown_Invariant.
    apply contentKeydown_Invariant.
    unfold PickerSession.searchInputKeydownHandler.
    destruct key as [[|]| | | | | | |]; try done. by apply focusFirstIcon_Invariant.
  - destruct (PickerSession.isOpen s); [|done]. unfold PickerSession.itemClick.
    destruct (itemsOf (PickerSession.modal s) !! index) as [item|] eqn:E; [|done].
    simpl. apply withModal_focus_Invariant; [done|].
    intros i [= <-]. apply lookup_lt_Some in E. lia.
Qed.

Lemma run_Invariant (s : PickerSession.Session) (es : list PickerSession.UIEvent) :
  PickerSession.Invariant s →
  PickerSession.Invariant (PickerSession.run toLowerCase toUpperCase strings s es).1.
Proof.
  revert s. induction es as [|e es IH]; intros s Hinv; [done|]. simpl.
  pose proof (step_Invariant s e Hinv) as Hstep.
  destruct (PickerSession.step toLowerCase toUpperCase strings s e) as [s1 selected].
  specialize (IH s1 Hstep).
  by destruct (PickerSession.run toLowerCase toUpperCase strings s1 es).
Qed.

Lemma start_Invariant (getIconIds : list jsstring) (itemPath : jsstring)
    (recent : option (list jsstring)) (itemType : option ItemType) :
  PickerSession.Invariant
    (PickerSession.start (IconPickerModal.constructor getIconIds itemPath recent itemType)).
Proof.
  constructor; cbn -[isEmoji]; try done.
  - intros id Hid. by apply elem_of_nil in Hid.
  - constructor.
  - by left.
  - intros id Hid. apply list_elem_of_filter in Hid as [Hid _].
    apply andb_true_iff in Hid as [_ Hid]. by apply bool_decide_eq_true in Hid.
  - intros id Hid. by apply elem_of_nil in Hid.
Qed.
End SessionFacts.

Section SessionProperties.
Variable toLowerCase : jsstring → jsstring.
Variable toUpperCase : jsstring → jsstring.
Variable strings : IconPickerModal.IconPickerStrings.

Local Abbreviation runFrom s es :=
  (PickerSession.run toLowerCase toUpperCase strings s es).
Local Abbreviation stepFrom s e :=
  (PickerSession.step toLowerCase toUpperCase strings s e).

Lemma updateResults_allIcons (m : IconPickerModal.Modal) :
  IconPickerModal.allIcons
    (IconPickerModal.updateResults toLowerCase toUpperCase strings m)
  = IconPickerModal.allIcons m.
Proof.
  unfold IconPickerModal.updateResults.
  destruct (IconPickerModal.resultsContainer m); [|done]. by case_bool_decide.
Qed.

Lemma session_updateResults_allIcons (s : PickerSession.Session) :
  IconPickerModal.allIcons
    (PickerSession.modal (PickerSession.updateResults toLowerCase toUpperCase strings s))
  = IconPickerModal.allIcons (PickerSession.modal s).
Proof.
  unfold PickerSession.updateResults.
  destruct (IconPickerModal.resultsContainer (PickerSession.modal s)) eqn:E; [|done].
  simpl. apply updateResults_allIcons.
Qed.

Lemma contentKeydown_catalog (s : PickerSession.Session) (key : IconPickerModal.Key) :
  IconPickerModal.allIcons (PickerSession.modal (PickerSession.contentKeydown s key).1)
  = IconPickerModal.allIcons (PickerSession.modal s)
  ∧ ∀ id, (PickerSession.contentKeydown s key).2 = Some id →
          id ∈ IconPickerModal.displayedIcons (PickerSession.modal s).
Proof.
  unfold PickerSession.contentKeydown, IconPickerModal.contentElKeydownHandler,
    IconPickerModal.displayedIcons.
  set (items := IconPickerModal.iconItems
                  (default [] (IconPickerModal.resultsContainer (PickerSession.modal s)))).
  destruct (Z.of_nat (length items) =? 0); [done|].
  destruct (PickerSession.focus s) as [|cur|]; try done.
  assert (Hsel : ∀ id,
    match (if cur <? 0 then None
           else IconPickerModal.dataIconId <$> items !! Z.to_nat cur) with
    | Some i => if truthy (JString i) then Some i else None
    | None => None
    end = Some id → id ∈ IconPickerModal.dataIconId <$> items).
  { intros id. destruct (cur <? 0); [done|].
    destruct (items !! Z.to_nat cur) as [item|] eqn:E; [|done]. simpl.
    destruct (IconPickerModal.dataIconId item) as [|u rest] eqn:Eid; [done|].
    simpl. intros [= <-]. rewrite <- Eid.
    apply list_elem_of_fmap_2. by eapply list_elem_of_lookup_2. }
  destruct key as [[|]| | | | | | |]; simpl; try done;
    destruct (_ =? cur); done.
Qed.

Lemma step_catalog (s : PickerSession.Session) (e : PickerSession.UIEvent) :
  IconPickerModal.allIcons (PickerSession.modal (stepFrom s e).1)
  = IconPickerModal.allIcons (PickerSession.modal s)
  ∧ ∀ id, (stepFrom s e).2 = Some id →
          id ∈ IconPickerModal.displayedIcons (PickerSession.modal s).
Proof.
  destruct e as [| |value|id|tab|key|index]; unfold PickerSession.step.
  - destruct (PickerSession.isOpen s); [done|]. cbn [fst snd]. split; [|done].
    unfold PickerSession.onOpen. by rewrite session_updateResults_allIcons.
  - by destruct (PickerSession.isOpen s).
  - by destruct (PickerSession.isOpen s).
  - cbn [fst snd]. split; [|done]. unfold PickerSession.onTimer.
    case_bool_decide; [|done]. by rewrite session_updateResults_allIcons.
  - destruct (PickerSession.isOpen s); [|done]. cbn [fst snd]. split; [|done].
    unfold PickerSession.switchTab.
    set (s' := PickerSession.updateResults _ _ _ _).
    assert (Hs' : IconPickerModal.allIcons (PickerSession.modal s')
                  = IconPickerModal.allIcons (PickerSession.modal s)).
    { subst s'. by rewrite session_updateResults_allIcons. }
    by destruct tab.
  - destruct (PickerSession.isOpen s && PickerSession.keyHandlers s); [|done].
    unfold PickerSession.keydown.
    destruct (PickerSession.focus s) eqn:Ef; try apply contentKeydown_catalog.
    destruct (contentKeydown_catalog
                (PickerSession.searchInputKeydownHandler s key) key) as [Hall Hsel].
    assert (Hsame : IconPickerModal.allIcons
                      (PickerSession.modal (PickerSession.searchInputKeydownHandler s key))
                    = IconPickerModal.allIcons (PickerSession.modal s)
                    ∧ IconPickerModal.displayedIcons
                        (PickerSession.modal (PickerSession.searchInputKeydownHandler s key))
                      = IconPickerModal.displayedIcons (PickerSession.modal s)).
    { unfold PickerSession.searchInputKeydownHandler, PickerSession.focusFirstIcon.
      destruct key as [[|]| | | | | | |]; try done.
      by destruct (IconPickerModal.iconItems _). }
    destruct Hsame as [Ha Hd]. rewrite Hall, Ha. split; [done|].
    intros id Hid. rewrite <- Hd. by apply Hsel.
  - destruct (PickerSession.isOpen s); [|done]. unfold PickerSession.itemClick.
    unfold IconPickerModal.displayedIcons.
    destruct (IconPickerModal.iconItems _ !! index) as [item|] eqn:E; [|done].
    split; [done|]. cbn [fst snd]. intros id [= <-].
    apply list_elem_of_fmap_2. by eapply list_elem_of_lookup_2.
Qed.

Lemma run_catalog (s : PickerSession.Session) (es : list PickerSession.UIEvent) :
  PickerSession.Invariant s →
  IconPickerModal.allIcons (PickerSession.modal (runFrom s es).1)
  = IconPickerModal.allIcons (PickerSession.modal s)
  ∧ (runFrom s es).2 ⊆ IconPickerModal.allIcons (PickerSession.modal s).
Proof.
  revert s. induction es as [|e es IH]; intros s Hinv.
  - split; [done|]. intros id Hid. by apply elem_of_nil in Hid.
  - simpl. pose proof (step_Invariant toLowerCase toUpperCase strings s e Hinv) as Hstep.
    destruct (step_catalog s e) as [Hall Hsel].
    destruct (stepFrom s e) as [s1 selected]. simpl in *.
    destruct (IH s1 Hstep) as [Hall' Hsels].
    destruct (runFrom s1 es) as [s2 more]. simpl in *.
    split; [congruence|].
    intros id Hid. destruct selected as [i|].
    + apply elem_of_cons in Hid as [->|Hid].
      * by apply (PickerSession.shown_in_catalog s Hinv), Hsel.
      * rewrite <- Hall. by apply Hsels.
    + rewrite <- Hall. by apply Hsels.
Qed.

(** Whatever the user does with a modal after its construction (open,
    type, switch tabs, press keys, click, close, timers firing in
    between), an item that has the focus exists, and the tracked focus
    index is -1 or the index of an item on display. *)
Theorem session_focus_exists (getIconIds : list jsstring) (itemPath : jsstring)
    (recent : option (list jsstring)) (itemType : option ItemType)
    (es : list PickerSession.UIEvent) :
  let s := (runFrom (PickerSession.start
              (IconPickerModal.constructor getIconIds itemPath recent itemType)) es).1 in
  let shown := length (IconPickerModal.displayedIcons (PickerSession.modal s)) in
  (∀ i, PickerSession.focus s = IconPickerModal.OnIconItem i → 0 ≤ i < Z.of_nat shown)
  ∧ (IconPickerModal.focusedIndex (PickerSession.modal s) = -1
     ∨ 0 ≤ IconPickerModal.focusedIndex (PickerSession.modal s) < Z.of_nat shown).
Proof.
  intros s shown.
  assert (Hinv : PickerSession.Invariant s).
  { apply run_Invariant, start_Invariant. }
  subst shown. unfold IconPickerModal.displayedIcons. rewrite length_fmap.
  split; [apply (PickerSession.focus_exists s Hinv)|apply (PickerSession.tracked_exists s Hinv)].
Qed.

(** Whatever the user does, at most one debounce timeout is pending and
    it is the one the modal has recorded; at most one React root is
    mounted; and a closed modal has no timeout pending, no root mounted
    and no key handler attached, so that no event but opening it again
    changes anything. *)
Theorem session_releases_resources (getIconIds : list jsstring) (itemPath : jsstring)
    (recent : option (list jsstring)) (itemType : option ItemType)
    (es : list PickerSession.UIEvent) :
  let s := (runFrom (PickerSession.start
              (IconPickerModal.constructor getIconIds itemPath recent itemType)) es).1 in
  (length (PickerSession.pendingTimers s) ≤ 1)%nat
  ∧ (∀ id, id ∈ PickerSession.pendingTimers s →
           PickerSession.searchDebounceTimer s = Some id)
  ∧ (PickerSession.mountedRoots s ≤ 1)%nat
  ∧ (PickerSession.isOpen s = false →
     PickerSession.pendingTimers s = []
     ∧ PickerSession.mountedRoots s = 0%nat
     ∧ PickerSession.keyHandlers s = false
     ∧ ∀ e, e ≠ PickerSession.OpenModal → stepFrom s e = (s, None)).
Proof.
  intros s.
  assert (Hinv : PickerSession.Invariant s).
  { apply run_Invariant, start_Invariant. }
  destruct Hinv as [Hrec Hdup Hroots Hclosed _ _ _ _ _].
  split.
  { destruct (PickerSession.pendingTimers s) as [|a [|b rest]]; simpl; try lia.
    exfalso. pose proof (Hrec a ltac:(left)) as Ha.
    pose proof (Hrec b ltac:(right; left)) as Hb.
    apply NoDup_cons in Hdup as [Hnotin _]. apply Hnotin.
    rewrite Ha in Hb. injection Hb as ->. left. }
  split; [exact Hrec|].
  split; [rewrite Hroots; destruct (PickerSession.reactRoot s); lia|].
  intros Hc. destruct (Hclosed Hc) as (Hp & Hr & Hk).
  split; [done|]. split; [by rewrite Hroots, Hr|]. split; [done|].
  intros e He. destruct e; simpl; rewrite ?Hc; try done.
  unfold PickerSession.onTimer. rewrite Hp. by rewrite bool_decide_eq_false_2 by apply not_elem_of_nil.
Qed.

(** Whatever the user does, the icons on display are icons of the
    catalog, and so is every icon handed to the selection by a click or
    by Enter or Space on the focused item. *)
Theorem session_selects_catalog_icons (getIconIds : list jsstring) (itemPath : jsstring)
    (recent : option (list jsstring)) (itemType : option ItemType)
    (es : list PickerSession.UIEvent) :
  let result := runFrom (PickerSession.start
                  (IconPickerModal.constructor getIconIds itemPath recent itemType)) es in
  IconPickerModal.displayedIcons (PickerSession.modal result.1) ⊆ getIconIds
  ∧ result.2 ⊆ getIconIds.
Proof.
  intros result.
  pose proof (start_Invariant getIconIds itemPath recent itemType) as Hstart.
  destruct (run_catalog _ es Hstart) as [Hall Hsel].
  pose proof (run_Invariant toLowerCase toUpperCase strings _ es Hstart) as Hinv.
  split; [|exact Hsel].
  pose proof (PickerSession.shown_in_catalog _ Hinv) as Hshown.
  fold result in Hall, Hshown. rewrite Hall in Hshown. exact Hshown.
Qed.

(** Typing is debounced: while the modal is open, an edit of the search
    field leaves the results as they are and exactly one timeout
    pending, the previous one being cleared; when that timeout fires the
    results are those for the text typed last. *)
Theorem search_is_debounced (s : PickerSession.Session) (first last : jsstring) :
  PickerSession.Invariant s →
  PickerSession.isOpen s = true →
  let typed := (runFrom s [PickerSession.SearchInput first;
                           PickerSession.SearchInput last]).1 in
  IconPickerModal.resultsContainer (PickerSession.modal typed)
  = IconPickerModal.resultsContainer (PickerSession.modal s)
  ∧ ∃ t, PickerSession.pendingTimers typed = [t]
         ∧ PickerSession.modal (stepFrom typed (PickerSession.TimerFires t)).1
           = IconPickerModal.updateResults toLowerCase toUpperCase strings
               (PickerSession.withView (PickerSession.modal s)
                  (IconPickerModal.activeTab (PickerSession.modal s)) last
                  (IconPickerModal.resultsContainer (PickerSession.modal s)))
         ∧ PickerSession.pendingTimers
             (stepFrom typed (PickerSession.TimerFires t)).1 = [].
Proof.
  intros Hinv Hopen typed.
  set (s2 := PickerSession.onSearchInput (PickerSession.onSearchInput s first) last).
  assert (Htyped : typed = s2).
  { subst typed s2. simpl. rewrite Hopen. simpl. rewrite Hopen. reflexivity. }
  rewrite Htyped. clear Htyped typed.
  assert (Hm : PickerSession.modal s2
               = PickerSession.withView (PickerSession.modal s)
                   (IconPickerModal.activeTab (PickerSession.modal s)) last
                   (IconPickerModal.resultsContainer (PickerSession.modal s)))
    by reflexivity.
  assert (Hp : PickerSession.pendingTimers s2 = [S (PickerSession.nextTimerId s)]).
  { subst s2. cbn [PickerSession.onSearchInput PickerSession.pendingTimers
                   PickerSession.searchDebounceTimer PickerSession.nextTimerId].
    rewrite (no_pending s (PickerSession.timers_recorded s Hinv)).
    by rewrite filter_cons_False by (intros H; by apply H). }
  split; [by rewrite Hm|]. exists (S (PickerSession.nextTimerId s)).
  split; [exact Hp|].
  destruct (PickerSession.open_container s Hinv Hopen) as [nodes Hnodes].
  unfold PickerSession.step, PickerSession.onTimer. cbn [fst]. rewrite Hp.
  rewrite bool_decide_eq_true_2 by left.
  unfold PickerSession.updateResults. cbn [PickerSession.modal]. rewrite Hm.
  cbn [PickerSession.withView IconPickerModal.resultsContainer]. rewrite Hnodes.
  cbn [PickerSession.modal PickerSession.pendingTimers].
  split; [done|]. by rewrite filter_cons_False by (intros H; by apply H).
Qed.
End SessionProperties.

Lemma search_is_debounced_witness :
  let s := (PickerSession.run IconPickerModal.asciiLower IconPickerModal.asciiUpper
              IconPickerModal.fr
              (PickerSession.start
                 (IconPickerModal.constructor sampleCatalog (u16 "Projects") None None))
              [PickerSession.OpenModal]).1 in
  let typed := (PickerSession.run IconPickerModal.asciiLower IconPickerModal.asciiUpper
                  IconPickerModal.fr s
                  [PickerSession.SearchInput (u16 "s"); PickerSession.SearchInput (u16 "st")]).1 in
  PickerSession.Invariant s
  ∧ PickerSession.isOpen s = true
  ∧ IconPickerModal.resultsContainer (PickerSession.modal typed)
    = IconPickerModal.resultsContainer (PickerSession.modal s).
Proof.
  intros s typed.
  assert (Hinv : PickerSession.Invariant s).
  { apply run_Invariant, start_Invariant. }
  split; [exact Hinv|]. split; [reflexivity|].
  exact (proj1 (search_is_debounced IconPickerModal.asciiLower IconPickerModal.asciiUpper
                  IconPickerModal.fr s (u16 "s") (u16 "st") Hinv eq_refl)).
Defined.

(** Open, type, let the timer fire, move into the grid, select, close. *)
Example session_example :
  let result :=
    PickerSession.run IconPickerModal.asciiLower IconPickerModal.asciiUpper
      IconPickerModal.fr
      (PickerSession.start
         (IconPickerModal.constructor sampleCatalog (u16 "Projects")
            (Some [u16 "lucide-star"; [0x2600]]) None))
      [PickerSession.OpenModal; PickerSession.SearchInput (u16 "f");
       PickerSession.SearchInput (u16 "fold"); PickerSession.TimerFires 1;
       PickerSession.TimerFires 2;
       PickerSession.Keydown (IconPickerModal.KeyTab false);
       PickerSession.Keydown IconPickerModal.ArrowRight;
       PickerSession.Keydown IconPickerModal.KeyEnter;
       PickerSession.SearchInput (u16 "x"); PickerSession.CloseModal;
       PickerSession.TimerFires 3] in
  result.2 = [u16 "lucide-scaffold"]
  ∧ PickerSession.pendingTimers result.1 = []
  ∧ IconPickerModal.displayedIcons (PickerSession.modal result.1)
    = [u16 "lucide-folder-open"; u16 "lucide-scaffold"].
Proof. repeat split; vm_compute; reflexivity. Qed.

(** *** The feature image area *)

(** With the URL the item has computed, the feature image area shows the
    image exactly when there is a non-empty URL; it shows the extension
    badge exactly when feature images are on and the file is neither a
    markdown document nor an image; otherwise there is no area: none for
    a note without image, none for an image whose resource path cannot
    be had, none at all when feature images are off (slim mode
    included). *)
Theorem feature_area_cases (isImageFile : TFile → bool)
    (settings : FileItemView.DisplaySettings) (metadataCache : MetadataCache)
    (vault : Vault) (file : TFile) (url : option jsstring) :
  FileItem.featureImageUrl isImageFile (FileItemView.core settings) metadataCache vault file
  = Normal url →
  let area := FileItemView.featureArea isImageFile settings url file in
  (∀ src, area = FileItemView.ImageArea src ↔ url = Some src ∧ src ≠ [])
  ∧ (∀ text, area = FileItemView.ExtensionBadge text ↔
       text = u16 "." ++ extension file
       ∧ showFeatureImage (FileItemView.core settings) = true
       ∧ extension file ≠ u16 "md" ∧ isImageFile file = false)
  ∧ (showFeatureImage (FileItemView.core settings) = false → area = FileItemView.NoArea)
  ∧ (FileItemView.isSlimMode settings = true →
     FileItemView.shouldShowFeatureImageArea isImageFile settings url file = false).
Proof.
  intros Hurl area. subst area.
  assert (Hfacts : showFeatureImage (FileItemView.core settings) = false
                   ∨ (isImageFile file = false ∧ extension file ≠ u16 "md") →
                   url = None).
  { unfold FileItem.featureImageUrl in Hurl. intros [H|[H1 H2]].
    - rewrite H in Hurl. simpl in Hurl. congruence.
    - destruct (showFeatureImage _); simpl in Hurl; [|congruence].
      rewrite H1 in Hurl. rewrite bool_decide_eq_false_2 in Hurl by done. congruence. }
  clear Hurl.
  unfold FileItemView.featureArea, FileItemView.shouldShowFeatureImageArea,
    FileItemView.isSlimMode, FileItemView.hasUrl.
  destruct (FileItemView.showDate settings), (FileItemView.showFilePreview settings),
    (showFeatureImage (FileItemView.core settings)), (isImageFile file);
    case_bool_decide as Emd; destruct url as [[|c u]|];
    try (exfalso; assert (Hn : @Some jsstring [] = None)
           by (apply Hfacts; (by left) || (by right)); discriminate Hn);
    try (exfalso; assert (Hn : Some (c :: u) = None)
           by (apply Hfacts; (by left) || (by right)); discriminate Hn);
    cbn; repeat split; try done; intros; try (intuition congruence).
Qed.

Lemma feature_area_cases_witness :
  FileItem.featureImageUrl imageByExtension (FileItemView.core displayAll)
    (cacheWith ∅ []) readyVault samplePdf = Normal None
  ∧ FileItemView.featureArea imageByExtension displayAll None samplePdf
    = FileItemView.ExtensionBadge (u16 ".pdf").
Proof.
  assert (H : FileItem.featureImageUrl imageByExtension (FileItemView.core displayAll)
                (cacheWith ∅ []) readyVault samplePdf = Normal None)
    by (vm_compute; reflexivity).
  split; [exact H|].
  apply (proj1 (proj2 (feature_area_cases imageByExtension displayAll (cacheWith ∅ [])
                         readyVault samplePdf None H))).
  repeat split; try reflexivity. vm_compute. discriminate.
Defined.

(** *** The classes of a file item *)

(** The item always has the class [nn-file-item]; it has [nn-selected]
    exactly when it is selected, [nn-slim] exactly in slim mode, and the
    markers for a selected neighbour above or below exactly when it is
    itself selected and the flag is set to true. *)
Theorem file_item_classes (props : FileItem.FileItemProps) (isSlim : bool) :
  let classes := FileItemView.classList (FileItemView.className props isSlim) in
  u16 "nn-file-item" ∈ classes
  ∧ bool_decide (u16 "nn-selected" ∈ classes) = FileItem.isSelected props
  ∧ bool_decide (u16 "nn-slim" ∈ classes) = isSlim
  ∧ bool_decide (u16 "nn-has-selected-above" ∈ classes)
    = FileItem.isSelected props
      && bool_decide (FileItem.hasSelectedAbove props = Some true)
  ∧ bool_decide (u16 "nn-has-selected-below" ∈ classes)
    = FileItem.isSelected props
      && bool_decide (FileItem.hasSelectedBelow props = Some true)
  ∧ NoDup classes.
Proof.
  unfold FileItemView.className.
  destruct (FileItem.isSelected props), isSlim,
    (bool_decide (FileItem.hasSelectedAbove props = Some true)),
    (bool_decide (FileItem.hasSelectedBelow props = Some true));
    cbn [andb]; (split; [by apply (bool_decide_unpack _)|]);
    repeat (split; [vm_compute; reflexivity|]); by apply (bool_decide_unpack _).
Qed.

(** *** Reaching every item *)

Lemma grid_down_times (cols n t : Z) (k : nat) :
  0 < cols → 0 ≤ t < n → Z.of_nat k * cols ≤ t →
  Nat.iter k (λ i, IconPickerModal.gridStep cols n i IconPickerModal.ArrowDown) 0
  = Z.of_nat k * cols.
Proof.
  intros Hcols Ht. induction k as [|k IH]; intros Hk; [done|].
  rewrite Nat.iter_succ. rewrite IH by lia.
  destruct (gridStep_arrows cols n (Z.of_nat k * cols) Hcols ltac:(nia)) as (_ & _ & _ & ->).
  destruct (decide _); nia.
Qed.

Lemma grid_right_times (cols n t row : Z) (q : nat) :
  0 < cols → 0 ≤ row → row * cols + t mod cols = t → 0 ≤ t < n →
  Z.of_nat q ≤ t mod cols →
  Nat.iter q (λ i, IconPickerModal.gridStep cols n i IconPickerModal.ArrowRight)
    (row * cols)
  = row * cols + Z.of_nat q.
Proof.
  intros Hcols Hrow Hsplit Ht.
  assert (Hmod : 0 ≤ t mod cols < cols) by (apply Z.mod_pos_bound; lia).
  induction q as [|q IH]; intros Hq; [simpl; lia|].
  rewrite Nat.iter_succ. rewrite IH by lia.
  destruct (gridStep_arrows cols n (row * cols + Z.of_nat q) Hcols ltac:(nia))
    as (_ & -> & _).
  assert ((row * cols + Z.of_nat q) mod cols = Z.of_nat q) as ->.
  { symmetry. apply (Z.mod_unique_pos _ _ row); lia. }
  destruct (decide _); lia.
Qed.

(** Every item can be reached from the first one with the arrow keys:
    down once per row, then right once per column. *)
Theorem grid_reaches_every_item (cols n t : Z) :
  0 < cols → 0 ≤ t < n →
  Nat.iter (Z.to_nat (t mod cols))
    (λ i, IconPickerModal.gridStep cols n i IconPickerModal.ArrowRight)
    (Nat.iter (Z.to_nat (t / cols))
       (λ i, IconPickerModal.gridStep cols n i IconPickerModal.ArrowDown) 0)
  = t.
Proof.
  intros Hcols Ht.
  assert (Hmod : 0 ≤ t mod cols < cols) by (apply Z.mod_pos_bound; lia).
  assert (Hdiv : t = cols * (t / cols) + t mod cols) by (apply Z.div_mod; lia).
  assert (Hrow : 0 ≤ t / cols) by (apply Z.div_pos; lia).
  rewrite (grid_down_times cols n t) by lia.
  rewrite Z2Nat.id by lia.
  rewrite (grid_right_times cols n t) by lia.
  rewrite Z2Nat.id by lia. lia.
Qed.

Lemma grid_reaches_every_item_witness :
  0 < 5 ∧ 0 ≤ 11 < 12
  ∧ Nat.iter (Z.to_nat (11 mod 5))
      (λ i, IconPickerModal.gridStep 5 12 i IconPickerModal.ArrowRight)
      (Nat.iter (Z.to_nat (11 / 5))
         (λ i, IconPickerModal.gridStep 5 12 i IconPickerModal.ArrowDown) 0)
    = 11.
Proof.
  split; [lia|]. split; [lia|].
  exact (grid_reaches_every_item 5 12 11 ltac:(lia) ltac:(lia)).
Defined.

(** *** The emoji text field and its button *)

Lemma oneCodePoint_isEmoji (c : jsstring) :
  OneCodePoint c →
  truthy (JString c) = true
  ∧ isEmoji (JString c) = emojiClassMatch (codePointAt0 c).
Proof.
  intros [u|hi lo E]; simpl; [done|]. by rewrite E, orb_false_r.
Qed.

(** The submit button is enabled exactly when a submit would pass the
    value on; the validation message shows exactly when there is text
    and the button is disabled; with the field empty the button is
    disabled and there is no message. After any edit the message shows
    exactly when the one code point kept is not in an emoji range. *)
Theorem emoji_button_matches_submit (inputValue typed : jsstring) :
  (EmojiPickerView.submitDisabled inputValue = false ↔
   EmojiPicker.handleSubmit inputValue = [EmojiPicker.Submitted inputValue])
  ∧ (EmojiPickerView.submitDisabled inputValue = true ↔
     EmojiPicker.handleSubmit inputValue = [])
  ∧ EmojiPickerView.errorShown inputValue
    = bool_decide (inputValue ≠ []) && EmojiPickerView.submitDisabled inputValue
  ∧ EmojiPickerView.submitDisabled EmojiPicker.initialInputValue = true
  ∧ EmojiPickerView.errorShown EmojiPicker.initialInputValue = false
  ∧ (EmojiPickerView.errorShown (EmojiPicker.handleInputChange typed) = true ↔
     typed ≠ []
     ∧ emojiClassMatch (codePointAt0 (EmojiPicker.handleInputChange typed)) = false).
Proof.
  unfold EmojiPickerView.submitDisabled, EmojiPickerView.errorShown,
    EmojiPicker.handleSubmit.
  split; [|split; [|split; [|split; [|split]]]]; try done.
  - destruct (truthy _); destruct (isEmoji _); done.
  - destruct (truthy _); destruct (isEmoji _); done.
  - destruct inputValue as [|u rest]; [done|].
    change (truthy (JString (u :: rest))) with true.
    by rewrite bool_decide_eq_true_2.
  - pose proof (handleInputChange_empty typed) as Hempty.
    destruct (handleInputChange_shape typed) as [E|Hone].
    + rewrite E. simpl. split; [done|]. intros [Hty _]. by apply Hempty in E.
    + assert (Hne : typed ≠ []).
      { intros ->. inversion Hone. }
      destruct (oneCodePoint_isEmoji _ Hone) as [Htruthy Hclass].
      rewrite Htruthy, Hclass, andb_true_l, negb_true_iff. tauto.
Qed.

(** *** Tab between the search field and the grid *)

(** With the search field focused, Tab moves the focus to the first item
    when there is one and tracks index 0 (the same keydown reaching the
    content handler leaves it there); without items, and on Shift+Tab,
    nothing changes. Nothing is selected. *)
Theorem tab_moves_into_grid (s : PickerSession.Session) :
  PickerSession.focus s = IconPickerModal.OnSearchInput →
  let items := IconPickerModal.iconItems
                 (default [] (IconPickerModal.resultsContainer (PickerSession.modal s))) in
  PickerSession.keydown s (IconPickerModal.KeyTab false)
  = (if decide (items = []) then PickerSession.withModal s (PickerSession.modal s)
                                   IconPickerModal.OnSearchInput
     else PickerSession.withModal s
            (IconPickerModal.withFocusedIndex (PickerSession.modal s) 0)
            (IconPickerModal.OnIconItem 0), None)
  ∧ PickerSession.keydown s (IconPickerModal.KeyTab true)
    = (PickerSession.withModal s (PickerSession.modal s) IconPickerModal.OnSearchInput,
       None).
Proof.
  intros Hfocus items. unfold PickerSession.keydown. rewrite Hfocus.
  unfold PickerSession.searchInputKeydownHandler, PickerSession.focusFirstIcon.
  fold items. split.
  - destruct items as [|item rest] eqn:E.
    + rewrite decide_True by done.
      unfold PickerSession.contentKeydown, IconPickerModal.contentElKeydownHandler.
      fold items. rewrite E, Hfocus. done.
    + rewrite decide_False by done.
      unfold PickerSession.contentKeydown, IconPickerModal.contentElKeydownHandler.
      cbn [PickerSession.withModal PickerSession.modal PickerSession.focus
           IconPickerModal.withFocusedIndex IconPickerModal.resultsContainer].
      fold items. rewrite E. done.
  - unfold PickerSession.contentKeydown, IconPickerModal.contentElKeydownHandler.
    rewrite Hfocus. by destruct (_ =? 0).
Qed.

Lemma tab_moves_into_grid_witness :
  let s := (PickerSession.run IconPickerModal.asciiLower IconPickerModal.asciiUpper
              IconPickerModal.fr
              (PickerSession.start
                 (IconPickerModal.constructor sampleCatalog (u16 "Projects")
                    (Some [u16 "lucide-star"]) None))
              [PickerSession.OpenModal]).1 in
  PickerSession.focus s = IconPickerModal.OnSearchInput
  ∧ PickerSession.keydown s (IconPickerModal.KeyTab true)
    = (PickerSession.withModal s (PickerSession.modal s) IconPickerModal.OnSearchInput,
       None).
Proof.
  intros s. split; [reflexivity|].
  exact (proj2 (tab_moves_into_grid s eq_refl)).
Defined.

(** *** Switching tabs *)

(** Switching tabs in an open modal discards the search: the search
    field is emptied and the tracked focus index reset; the icons tab
    then shows the recently used icons with the search field focused,
    the emojis tab the emoji picker with the recently used emojis and no
    icon. *)
Theorem tab_switch_resets_search (toLowerCase toUpperCase : jsstring → jsstring)
    (strings : IconPickerModal.IconPickerStrings) (s : PickerSession.Session)
    (tab : IconPickerModal.Tab) :
  toLowerCase [] = [] →
  PickerSession.Invariant s →
  PickerSession.isOpen s = true →
  let s' := PickerSession.switchTab toLowerCase toUpperCase strings s tab in
  IconPickerModal.activeTab (PickerSession.modal s') = tab
  ∧ IconPickerModal.searchValue (PickerSession.modal s') = []
  ∧ IconPickerModal.focusedIndex (PickerSession.modal s') = -1
  ∧ match tab with
    | IconPickerModal.IconsTab =>
        IconPickerModal.displayedIcons (PickerSession.modal s')
        = IconPickerModal.recentlyUsedIcons (PickerSession.modal s)
        ∧ PickerSession.focus s' = IconPickerModal.OnSearchInput
    | IconPickerModal.EmojisTab =>
        IconPickerModal.resultsContainer (PickerSession.modal s')
        = Some [IconPickerModal.EmojiPickerContainer
                  (IconPickerModal.recentlyUsedEmojis (PickerSession.modal s))]
        ∧ IconPickerModal.displayedIcons (PickerSession.modal s') = []
    end.
Proof.
  intros Hlower Hinv Hopen s'.
  destruct (PickerSession.open_container s Hinv Hopen) as [nodes Hnodes].
  set (m := PickerSession.withView (PickerSession.modal s) tab []
              (IconPickerModal.resultsContainer (PickerSession.modal s))).
  assert (Hs' : PickerSession.modal s'
                = IconPickerModal.updateResults toLowerCase toUpperCase strings m).
  { subst s' m. unfold PickerSession.switchTab, PickerSession.updateResults.
    cbn [PickerSession.withModal PickerSession.modal PickerSession.withView
         IconPickerModal.resultsContainer].
    rewrite !Hnodes. by destruct tab. }
  assert (Hterm : searchTermOf toLowerCase m = []).
  { unfold searchTermOf. subst m. cbn [PickerSession.withView IconPickerModal.searchValue].
    by rewrite Hlower. }
  assert (Hcont : is_Some (IconPickerModal.resultsContainer m)).
  { subst m. cbn [PickerSession.withView IconPickerModal.resultsContainer]. by eexists. }
  rewrite Hs'. destruct tab.
  - rewrite (updateResults_empty_term toLowerCase toUpperCase strings m eq_refl Hcont Hterm).
    repeat split; try done.
    unfold IconPickerModal.displayedIcons.
    change (IconPickerModal.recentlyUsedIcons m)
      with (IconPickerModal.recentlyUsedIcons (PickerSession.modal s)).
    destruct (IconPickerModal.recentlyUsedIcons (PickerSession.modal s)) as [|icon recent];
      [done|].
    simpl. rewrite app_nil_r. f_equal. apply displayed_createIconItem.
  - unfold IconPickerModal.updateResults. destruct Hcont as [c ->]. done.
Qed.

Lemma tab_switch_resets_search_witness :
  let s := (PickerSession.run IconPickerModal.asciiLower IconPickerModal.asciiUpper
              IconPickerModal.fr
              (PickerSession.start
                 (IconPickerModal.constructor sampleCatalog (u16 "Projects")
                    (Some [u16 "lucide-star"; [0x2600]]) None))
              [PickerSession.OpenModal; PickerSession.SearchInput (u16 "fold");
               PickerSession.TimerFires 1]).1 in
  IconPickerModal.asciiLower [] = []
  ∧ PickerSession.Invariant s
  ∧ PickerSession.isOpen s = true
  ∧ IconPickerModal.searchValue
      (PickerSession.modal
         (PickerSession.switchTab IconPickerModal.asciiLower IconPickerModal.asciiUpper
            IconPickerModal.fr s IconPickerModal.EmojisTab)) = [].
Proof.
  intros s.
  assert (Hinv : PickerSession.Invariant s) by (apply run_Invariant, start_Invariant).
  split; [reflexivity|]. split; [exact Hinv|]. split; [reflexivity|].
  exact (proj1 (proj2 (tab_switch_resets_search IconPickerModal.asciiLower
                         IconPickerModal.asciiUpper IconPickerModal.fr s
                         IconPickerModal.EmojisTab eq_refl Hinv eq_refl))).
Defined.

(** *** Where a feature image comes from *)

Section FeatureImageSource.
Variable isImageFile : TFile → bool.
Variable settings : NotebookNavigatorSettings.
Variable metadataCache : MetadataCache.
Variable vault : Vault.
Variable file : TFile.

Lemma frontmatterLoop_source (properties : list jsstring) (url : jsstring) :
  FileItem.frontmatterLoop metadataCache vault file properties = Normal (Some url) →
  ∃ property s target,
    property ∈ properties
    ∧ FileItem.frontmatterAt (getFileCache metadataCache file) property = JString s
    ∧ getFirstLinkpathDest metadataCache (FileItem.unwrapWikilink s) (path file)
      = Some target
    ∧ getResourcePath vault target = Normal url.
Proof.
  induction properties as [|property rest IH]; [done|].
  cbn [FileItem.frontmatterLoop]. unfold FileItem.metadata.
  assert (Hrest : FileItem.frontmatterLoop metadataCache vault file rest = Normal (Some url) →
            ∃ property0 s target,
              property0 ∈ property :: rest
              ∧ FileItem.frontmatterAt (getFileCache metadataCache file) property0 = JString s
              ∧ getFirstLinkpathDest metadataCache (FileItem.unwrapWikilink s) (path file)
                = Some target
              ∧ getResourcePath vault target = Normal url).
  { intros H. destruct (IH H) as (q & s & target & Hq & Hrest).
    exists q, s, target. split; [by right|done]. }
  destruct (truthy _) eqn:Et; simpl; [|exact Hrest].
  destruct (FileItem.frontmatterAt _ property) as [| |b|n|s|] eqn:Ev; try done.
  destruct (getFirstLinkpathDest _ _ _) as [target|] eqn:El; [|exact Hrest].
  destruct (getResourcePath vault target) as [u|err] eqn:Er; [|exact Hrest].
  intros [= ->]. exists property, s, target. split; [by left|done].
Qed.

Lemma embedLoop_source (es : list EmbedCache) (url : jsstring) :
  FileItem.embedLoop isImageFile metadataCache vault file es = Some url →
  ∃ embed target,
    embed ∈ es
    ∧ getFirstLinkpathDest metadataCache (link embed) (path file) = Some target
    ∧ isImageFile target = true
    ∧ getResourcePath vault target = Normal url.
Proof.
  induction es as [|embed rest IH]; [done|].
  cbn [FileItem.embedLoop].
  assert (Hrest : FileItem.embedLoop isImageFile metadataCache vault file rest = Some url →
            ∃ embed0 target,
              embed0 ∈ embed :: rest
              ∧ getFirstLinkpathDest metadataCache (link embed0) (path file) = Some target
              ∧ isImageFile target = true
              ∧ getResourcePath vault target = Normal url).
  { intros H. destruct (IH H) as (e & target & He & Hrest).
    exists e, target. split; [by right|done]. }
  destruct (getFirstLinkpathDest _ _ _) as [target|] eqn:El; [|exact Hrest].
  destruct (isImageFile target) eqn:Ei; [|exact Hrest].
  destruct (getResourcePath vault target) as [u|err] eqn:Er; [|exact Hrest].
  intros [= ->]. exists embed, target. split; [by left|done].
Qed.

(** A feature image URL is never made up: whenever one is computed,
    feature images are on and the URL is the resource path the vault
    gave for the file itself (an image), for the file a configured
    frontmatter property of the note links to, or for an image file the
    note embeds. *)
Theorem featureImageUrl_source (url : jsstring) :
  FileItem.featureImageUrl isImageFile settings metadataCache vault file
  = Normal (Some url) →
  showFeatureImage settings = true
  ∧ ((isImageFile file = true ∧ getResourcePath vault file = Normal url)
     ∨ (extension file = u16 "md"
        ∧ ∃ property s target,
            property ∈ featureImageProperties settings
            ∧ FileItem.frontmatterAt (getFileCache metadataCache file) property = JString s
            ∧ getFirstLinkpathDest metadataCache (FileItem.unwrapWikilink s) (path file)
              = Some target
            ∧ getResourcePath vault target = Normal url)
     ∨ (extension file = u16 "md"
        ∧ ∃ embed target,
            embed ∈ FileItem.embedList metadataCache file
            ∧ getFirstLinkpathDest metadataCache (link embed) (path file) = Some target
            ∧ isImageFile target = true
            ∧ getResourcePath vault target = Normal url)).
Proof.
  unfold FileItem.featureImageUrl.
  destruct (showFeatureImage settings); simpl; [|done].
  destruct (isImageFile file) eqn:Ei.
  { destruct (getResourcePath vault file) as [u|err]; [|done].
    intros [= ->]. split; [done|]. by left. }
  case_bool_decide as Emd; [|done].
  destruct (FileItem.frontmatterLoop _ _ _ _) as [[u|]|err] eqn:Ef; [| |done].
  - intros [= ->]. split; [done|]. right. left. split; [done|].
    by apply frontmatterLoop_source.
  - intros [= H]. split; [done|]. right. right. split; [done|].
    by apply embedLoop_source.
Qed.
End FeatureImageSource.

Lemma featureImageUrl_source_witness :
  let cache := cacheWith stringCover [] in
  FileItem.featureImageUrl imageByExtension settingsCover cache readyVault sampleNote
  = Normal (Some (u16 "app://local/assets/photo.png"))
  ∧ showFeatureImage settingsCover = true.
Proof.
  intros cache.
  assert (H : FileItem.featureImageUrl imageByExtension settingsCover cache readyVault
                sampleNote = Normal (Some (u16 "app://local/assets/photo.png")))
    by (vm_compute; reflexivity).
  split; [exact H|].
  exact (proj1 (featureImageUrl_source imageByExtension settingsCover cache readyVault
                  sampleNote _ H)).
Defined.
